(** * UFWManager: annotation stores, rule form and command builder

    A shallow embedding of [ufwmanager.py].  The class keeps the rule list of
    the external [ufw] tool next to two annotation dictionaries (service
    labels and notes) that are keyed by the rule's positional index, written
    as a decimal string.

    Python values are modelled as follows.
    - [str] is [string]; the character classes ([isspace], [isdigit],
      [lower], and the classes of the regular expressions) are those of the
      ASCII range, and code points from 128 up are taken as plain symbols.
    - [dict] is an association list in insertion order with distinct keys.
    - the object's attributes are a record that every method takes and
      returns; the annotation files, the log of what the program ran and
      wrote, and the external tool as a function of that log live in a
      second record.  A file is missing, holds a text, or refuses access;
      creating the directory is taken to succeed.
    - a method that can raise past its own handlers, or that waits for a key
      the input does not hold, returns an [outcome].

    The first part holds the embedding, method by method in the order of the
    source, the second the vocabulary of the statements, the third the
    proofs. *)

From Stdlib Require Import String Ascii List ZArith Lia Bool Arith.
From Stdlib Require Import Decimal DecimalString DecimalZ DecimalN Permutation.
Import ListNotations.

Open Scope string_scope.
Open Scope nat_scope.

(* ================================================================== *)
(** * Python strings *)

Module PyStr.

(** [c.isspace()] on the ASCII range: tab, line feed, vertical tab, form
    feed, carriage return, the four separators 28..31 and the space. *)
Definition isspace_char (c : ascii) : bool :=
  let n := nat_of_ascii c in
  ((9 <=? n) && (n <=? 13)) || ((28 <=? n) && (n <=? 32)).

(** [c.isdigit()], also the class [\d]. *)
Definition isdigit_char (c : ascii) : bool :=
  let n := nat_of_ascii c in (48 <=? n) && (n <=? 57).

Definition isupper_char (c : ascii) : bool :=
  let n := nat_of_ascii c in (65 <=? n) && (n <=? 90).

Definition isalpha_char (c : ascii) : bool :=
  let n := nat_of_ascii c in
  ((65 <=? n) && (n <=? 90)) || ((97 <=? n) && (n <=? 122)).

(** The class [\w]: letters, digits and the underscore. *)
Definition isword_char (c : ascii) : bool :=
  isalpha_char c || isdigit_char c || Ascii.eqb c "_".

Definition lower_char (c : ascii) : ascii :=
  if isupper_char c then ascii_of_nat (nat_of_ascii c + 32) else c.

Fixpoint forall_chars (p : ascii -> bool) (s : string) : bool :=
  match s with
  | EmptyString => true
  | String c r => p c && forall_chars p r
  end.

Fixpoint mem_char (c : ascii) (s : string) : bool :=
  match s with
  | EmptyString => false
  | String d r => Ascii.eqb c d || mem_char c r
  end.

(** [s.isdigit()]: at least one character and all of them digits. *)
Definition isdigit (s : string) : bool :=
  match s with
  | EmptyString => false
  | _ => forall_chars isdigit_char s
  end.

(** [s.lower()] *)
Fixpoint lower (s : string) : string :=
  match s with
  | EmptyString => EmptyString
  | String c r => String (lower_char c) (lower r)
  end.

Fixpoint lstrip_by (p : ascii -> bool) (s : string) : string :=
  match s with
  | EmptyString => EmptyString
  | String c r => if p c then lstrip_by p r else s
  end.

Fixpoint rstrip_by (p : ascii -> bool) (s : string) : string :=
  match s with
  | EmptyString => EmptyString
  | String c r =>
      match rstrip_by p r with
      | EmptyString => if p c then EmptyString else String c EmptyString
      | r' => String c r'
      end
  end.

(** [s.strip()] *)
Definition strip (s : string) : string :=
  lstrip_by isspace_char (rstrip_by isspace_char s).

(** [s.strip(chars)] *)
Definition strip_chars (chars s : string) : string :=
  lstrip_by (fun c => mem_char c chars)
            (rstrip_by (fun c => mem_char c chars) s).

Fixpoint drop (n : nat) (s : string) : string :=
  match n, s with
  | O, _ => s
  | S _, EmptyString => EmptyString
  | S m, String _ r => drop m r
  end.

(** [sub in s] *)
Fixpoint contains (sub s : string) : bool :=
  String.prefix sub s
  || match s with
     | EmptyString => false
     | String _ r => contains sub r
     end.

(** The text before and after the first occurrence of [sep]. *)
Fixpoint cut (sep s : string) : option (string * string) :=
  if String.prefix sep s then Some (EmptyString, drop (String.length sep) s)
  else match s with
       | EmptyString => None
       | String c r =>
           match cut sep r with
           | Some (a, b) => Some (String c a, b)
           | None => None
           end
       end.

(** [s.split(sep, 1)] for a non-empty [sep] (both call sites pass one):
    one element when [sep] does not occur, two otherwise. *)
Definition split1 (sep s : string) : list string :=
  match cut sep s with
  | Some (a, b) => [a; b]
  | None => [s]
  end.

(** [s.split(c)] for a one-character separator: never empty. *)
Fixpoint split_char (sep : ascii) (s : string) : list string :=
  match s with
  | EmptyString => [EmptyString]
  | String c r =>
      if Ascii.eqb c sep then EmptyString :: split_char sep r
      else match split_char sep r with
           | t :: ts => String c t :: ts
           | [] => [String c EmptyString]
           end
  end.

(** [s.split()]: the maximal runs of non-whitespace characters. *)
Fixpoint split (s : string) : list string :=
  match s with
  | EmptyString => []
  | String c r =>
      if isspace_char c then split r
      else match r with
           | EmptyString => [String c EmptyString]
           | String d _ =>
               if isspace_char d then String c EmptyString :: split r
               else match split r with
                    | t :: ts => String c t :: ts
                    | [] => [String c EmptyString]
                    end
           end
  end.

(** [str(z)] for an integer. *)
Definition str (z : Z) : string := NilZero.string_of_int (Z.to_int z).

(** The digit groups of an integer literal: single underscores are allowed
    between digits only.  Returns the digits without the underscores. *)
Fixpoint digit_groups (after_digit : bool) (s : string) : option string :=
  match s with
  | EmptyString => if after_digit then Some EmptyString else None
  | String c r =>
      if Ascii.eqb c "_" then
        if after_digit then digit_groups false r else None
      else if isdigit_char c then
        match digit_groups true r with
        | Some ds => Some (String c ds)
        | None => None
        end
      else None
  end.

Definition unsigned_int (s : string) : option Z :=
  match digit_groups false s with
  | Some ds =>
      match NilEmpty.uint_of_string ds with
      | Some u => Some (Z.of_uint u)
      | None => None
      end
  | None => None
  end.

(** The whitespace that [int] skips around a number: tab to carriage
    return and the space, without the separators 28..31 that [strip]
    also drops. *)
Definition int_space_char (c : ascii) : bool :=
  let n := nat_of_ascii c in ((9 <=? n) && (n <=? 13)) || (n =? 32).

(** [int(s)]: surrounding whitespace is dropped, one sign is allowed.
    [None] stands for the [ValueError] Python raises. *)
Definition int (s : string) : option Z :=
  match lstrip_by int_space_char (rstrip_by int_space_char s) with
  | EmptyString => None
  | String c r =>
      if Ascii.eqb c "+" then unsigned_int r
      else if Ascii.eqb c "-" then option_map Z.opp (unsigned_int r)
      else unsigned_int (String c r)
  end.

(** [chr(k)] for a key code in the printable range. *)
Definition chr (k : Z) : ascii := ascii_of_nat (Z.to_nat k).

(** [s[:-1]] *)
Fixpoint drop_last (s : string) : string :=
  match s with
  | EmptyString => EmptyString
  | String c EmptyString => EmptyString
  | String c r => String c (drop_last r)
  end.

End PyStr.

(* ================================================================== *)
(** * Python dictionaries with string keys and values *)

Module PyDict.

(** The items in insertion order; a dictionary holds each key once. *)
Definition dict : Type := list (string * string).

Definition wf (d : dict) : Prop := NoDup (map fst d).

(** [d.get(k)] *)
Fixpoint get (k : string) (d : dict) : option string :=
  match d with
  | [] => None
  | (k', v) :: r => if String.eqb k k' then Some v else get k r
  end.

(** [k in d] *)
Definition mem (k : string) (d : dict) : bool :=
  match get k d with Some _ => true | None => false end.

(** [d[k] = v]: an existing key keeps its place, a new one goes last. *)
Fixpoint set (k v : string) (d : dict) : dict :=
  match d with
  | [] => [(k, v)]
  | (k', v') :: r =>
      if String.eqb k k' then (k', v) :: r else (k', v') :: set k v r
  end.

(** [del d[k]] *)
Fixpoint del (k : string) (d : dict) : dict :=
  match d with
  | [] => []
  | (k', v') :: r => if String.eqb k k' then r else (k', v') :: del k r
  end.

(** [a == b]: as many items, and every item of [a] is an item of [b]. *)
Definition eqb (a b : dict) : bool :=
  (length a =? length b)
  && forallb (fun kv => match get (fst kv) b with
                        | Some v => String.eqb (snd kv) v
                        | None => false
                        end) a.

End PyDict.

Abbreviation dict := PyDict.dict.

(* ================================================================== *)
(** * The regular expressions of the program *)

Module Re.
Import PyStr.

(** The longest prefix whose characters satisfy [p], and the rest. *)
Fixpoint span (p : ascii -> bool) (s : string) : string * string :=
  match s with
  | EmptyString => (EmptyString, EmptyString)
  | String c r =>
      if p c then let (a, b) := span p r in (String c a, b)
      else (EmptyString, s)
  end.

Definition not_newline (c : ascii) : bool :=
  negb (Ascii.eqb c (ascii_of_nat 10)).

(** The pattern of [_get_firewall_rules], matched at the start of a line:
    group 1 is an opening bracket, optional whitespace, at least one digit
    and a closing bracket; whitespace must follow; group 2 is the rest of
    the line.  Returns groups 1 and 2. *)
Definition match_rule_line (line : string) : option (string * string) :=
  match line with
  | String "[" r =>
      let (ws, r1) := span isspace_char r in
      let (ds, r2) := span isdigit_char r1 in
      match ds, r2 with
      | String _ _, String "]" r3 =>
          let (ws2, r4) := span isspace_char r3 in
          match ws2 with
          | String _ _ =>
              Some ("[" ++ ws ++ ds ++ "]", fst (span not_newline r4))
          | EmptyString => None
          end
      | _, _ => None
      end
  | _ => None
  end.

(** Searching for one or more digits: the first run of digits. *)
Definition search_digits (s : string) : option string :=
  match fst (span isdigit_char
               (lstrip_by (fun c => negb (isdigit_char c)) s)) with
  | EmptyString => None
  | ds => Some ds
  end.

Definition is_word (c : option ascii) : bool :=
  match c with Some a => isword_char a | None => false end.

(** A word boundary between the characters [prev] and [next]. *)
Definition word_boundary (prev next : option ascii) : bool :=
  xorb (is_word prev) (is_word next).

Definition head (s : string) : option ascii :=
  match s with EmptyString => None | String c _ => Some c end.

Fixpoint last_char (prev : option ascii) (s : string) : option ascii :=
  match s with EmptyString => prev | String c r => last_char (Some c) r end.

(** An optional group, whitespace then [word]: what it consumes and what
    is left. *)
Definition opt_ws_word (word s : string) : string * string :=
  let (ws, r) := span isspace_char s in
  match ws with
  | String _ _ =>
      if String.prefix word r
      then (ws ++ word, drop (String.length word) r)
      else (EmptyString, s)
  | EmptyString => (EmptyString, s)
  end.

(** One of [words] between word boundaries, tried at one position in the
    order of the alternation, followed by the two optional groups; the
    result is group 0. *)
Fixpoint match_action_at (words : list string) (dir1 dir2 : string)
         (prev : option ascii) (s : string) : option string :=
  match words with
  | [] => None
  | w :: ws =>
      let rest := drop (String.length w) s in
      if String.prefix w s
         && word_boundary prev (head s)
         && word_boundary (last_char prev w) (head rest)
      then
        let (g2, rest2) := opt_ws_word dir1 rest in
        let (g3, _) := opt_ws_word dir2 rest2 in
        Some (w ++ g2 ++ g3)
      else match_action_at ws dir1 dir2 prev s
  end.

(** Searching for that pattern: group 0 of the leftmost match. *)
Fixpoint search_action (words : list string) (dir1 dir2 : string)
         (prev : option ascii) (s : string) : option string :=
  match match_action_at words dir1 dir2 prev s with
  | Some g => Some g
  | None =>
      match s with
      | EmptyString => None
      | String c r => search_action words dir1 dir2 (Some c) r
      end
  end.

End Re.

(* ================================================================== *)
(** * Key codes *)

Module Curses.
Local Open Scope Z_scope.
(** The values ncurses gives these keys. *)
Definition KEY_DOWN : Z := 258.
Definition KEY_UP : Z := 259.
Definition KEY_LEFT : Z := 260.
Definition KEY_RIGHT : Z := 261.
Definition KEY_BACKSPACE : Z := 263.
Definition KEY_ENTER : Z := 343.
Definition KEY_BTAB : Z := 353.
End Curses.

(* ================================================================== *)
(** * The world outside the object *)

Import PyStr.

Definition nl : string := String (ascii_of_nat 10) EmptyString.

(** An annotation file: missing, readable and writable with some text, or
    refusing access with the text of the [OSError] it raises. *)
Inductive file : Type :=
| Absent
| Content (text : string)
| Denied (err : string).

Inductive path : Type := notes_file | services_file.

(** [os.path.basename(file_path)] *)
Definition basename (p : path) : string :=
  match p with notes_file => "notes.txt" | services_file => "services.txt" end.

(** What the program does to the outside: shell command lines it runs and
    annotation files it rewrites. *)
Inductive event : Type :=
| Ran (command : string)
| Wrote (p : path) (text : string).

(** [subprocess.run(..., check=True)]: the captured standard output, or the
    standard error of a non-zero exit. *)
Inductive completed : Type :=
| Completed (stdout : string)
| CalledProcessError (stderr : string).

(** [shell] answers a command line given everything done so far; [set_pop]
    is the position of the element that [pop] takes from a set with the
    given elements (Python leaves the choice open). *)
Record World : Type := mkWorld {
  shell : list event -> string -> completed;
  trace : list event;
  notes_txt : file;
  services_txt : file;
  set_pop : list (string * string) -> nat
}.

Definition file_at (w : World) (p : path) : file :=
  match p with notes_file => notes_txt w | services_file => services_txt w end.

Definition with_file (w : World) (p : path) (f : file) : World :=
  match p with
  | notes_file => mkWorld (shell w) (trace w) f (services_txt w) (set_pop w)
  | services_file => mkWorld (shell w) (trace w) (notes_txt w) f (set_pop w)
  end.

Definition log (w : World) (e : event) : World :=
  mkWorld (shell w) (trace w ++ [e])%list (notes_txt w) (services_txt w)
          (set_pop w).

(* ================================================================== *)
(** * The object *)

Definition rule : Type := string * string.

Record UFWManager : Type := mkUFWManager {
  selected_index : nat;
  scroll_pos : nat;
  status_message : string;
  rules : list rule;
  ufw_status : string;
  notes : dict;
  services : dict
}.

Definition with_status (st : UFWManager) (m : string) : UFWManager :=
  mkUFWManager (selected_index st) (scroll_pos st) m (rules st)
               (ufw_status st) (notes st) (services st).

Definition with_selected (st : UFWManager) (i : nat) : UFWManager :=
  mkUFWManager i (scroll_pos st) (status_message st) (rules st)
               (ufw_status st) (notes st) (services st).

Definition with_rules (st : UFWManager) (status : string) (rs : list rule)
  : UFWManager :=
  mkUFWManager (selected_index st) (scroll_pos st) (status_message st) rs
               status (notes st) (services st).

Definition with_notes (st : UFWManager) (d : dict) : UFWManager :=
  mkUFWManager (selected_index st) (scroll_pos st) (status_message st)
               (rules st) (ufw_status st) d (services st).

Definition with_services (st : UFWManager) (d : dict) : UFWManager :=
  mkUFWManager (selected_index st) (scroll_pos st) (status_message st)
               (rules st) (ufw_status st) (notes st) d.

(** The dictionary a path goes with. *)
Definition store_of (st : UFWManager) (p : path) : dict :=
  match p with notes_file => notes st | services_file => services st end.

Definition with_store (st : UFWManager) (p : path) (d : dict) : UFWManager :=
  match p with
  | notes_file => with_notes st d
  | services_file => with_services st d
  end.

Inductive exn : Type := ValueError | IndexError.

(** How a method ends: it returns, an exception leaves it, or it waits for
    a key that the input does not hold. *)
Inductive outcome (S A : Type) : Type :=
| Returns (s : S) (a : A)
| Raises (e : exn) (s : S)
| AwaitsKey.

Arguments Returns {S A} s a.
Arguments Raises {S A} e s.
Arguments AwaitsKey {S A}.

Definition is_empty (s : string) : bool :=
  match s with EmptyString => true | _ => false end.

(* ------------------------------------------------------------------ *)
(** ** [_run_command] *)

Definition _run_command (w : World) (command : string)
           (needs_input : option string) : completed * World :=
  let command :=
    match needs_input with
    | Some i =>
        if is_empty i then command else "echo '" ++ i ++ "' | " ++ command
    | None => command
    end in
  (shell w (trace w) command, log w (Ran command)).

(* ------------------------------------------------------------------ *)
(** ** [_setup_and_load_files] *)

(** Reading in text mode turns a carriage return, alone or before a line
    feed, into a line feed. *)
Fixpoint universal_newlines (s : string) : string :=
  match s with
  | EmptyString => EmptyString
  | String c r =>
      if Ascii.eqb c (ascii_of_nat 13) then
        match r with
        | String d r' =>
            if Ascii.eqb d (ascii_of_nat 10)
            then String d (universal_newlines r')
            else String (ascii_of_nat 10) (universal_newlines r)
        | EmptyString => nl
        end
      else String c (universal_newlines r)
  end.

(** [for line in f]: each line keeps its line feed. *)
Fixpoint file_lines (s : string) : list string :=
  match s with
  | EmptyString => []
  | String c r =>
      if Ascii.eqb c (ascii_of_nat 10) then nl :: file_lines r
      else match file_lines r with
           | t :: ts => String c t :: ts
           | [] => [String c EmptyString]
           end
  end.

(** The body of the loop over the lines. *)
Definition load_line (data_dict : dict) (line : string) : dict :=
  if contains ":" line then
    match split1 ":" line with
    | [num; text] =>
        if isdigit (strip num)
        then PyDict.set (strip num) (strip text) data_dict
        else data_dict
    | _ => data_dict
    end
  else data_dict.

(** The dictionary a file's text loads as, starting from the cleared one. *)
Definition parse_file (text : string) : dict :=
  fold_left load_line (file_lines (universal_newlines text)) [].

(** One round of the loop over the two files: a missing file is created
    empty; the dictionary is cleared before the file is opened for reading,
    so a file that refuses access leaves it empty and ends the whole load
    with a status message. *)
Definition load_one (p : path) (acc : UFWManager * World * bool)
  : UFWManager * World * bool :=
  let '(st, w, failed) := acc in
  if failed then acc
  else match file_at w p with
       | Absent => (with_store st p (parse_file EmptyString),
                    with_file w p (Content EmptyString), false)
       | Content text => (with_store st p (parse_file text), w, false)
       | Denied e =>
           (with_status (with_store st p [])
                        ("Error with config files: " ++ e), w, true)
       end.

Definition _setup_and_load_files (st : UFWManager) (w : World)
  : UFWManager * World :=
  fst (fold_left (fun acc p => load_one p acc) [notes_file; services_file]
                 (st, w, false)).

(* ------------------------------------------------------------------ *)
(** ** [_save_notes_or_services] *)

(** The sort key [int(item[0])]; it is only applied to keys that passed
    [isdigit], for which [int] does not raise. *)
Definition int_key (item : string * string) : Z :=
  match int (fst item) with Some z => z | None => 0%Z end.

(** [sorted(items, key=...)]: a stable sort, items with equal keys keep
    their order. *)
Fixpoint insert_sorted (key : string * string -> Z) (x : string * string)
         (l : list (string * string)) : list (string * string) :=
  match l with
  | [] => [x]
  | y :: r =>
      if (key x <=? key y)%Z then x :: l else y :: insert_sorted key x r
  end.

Fixpoint sorted (key : string * string -> Z) (l : list (string * string))
  : list (string * string) :=
  match l with
  | [] => []
  | x :: r => insert_sorted key x (sorted key r)
  end.

Definition item_line (item : string * string) : string :=
  fst item ++ ":" ++ snd item ++ nl.

(** The successive [f.write] calls. *)
Fixpoint write_lines (items : list (string * string)) : string :=
  match items with
  | [] => EmptyString
  | item :: r => item_line item ++ write_lines r
  end.

(** The text that a save leaves in the file. *)
Definition serialize (data_dict : dict) : string :=
  let valid_items := filter (fun item => isdigit (fst item)) data_dict in
  write_lines (sorted int_key valid_items).

Definition _save_notes_or_services (st : UFWManager) (w : World)
           (file_path : path) (data_dict : dict) : UFWManager * World :=
  match file_at w file_path with
  | Denied e =>
      (with_status st ("Error saving to " ++ basename file_path ++ ": " ++ e),
       w)
  | _ =>
      let text := serialize data_dict in
      (st, log (with_file w file_path (Content text)) (Wrote file_path text))
  end.

(* ------------------------------------------------------------------ *)
(** ** [_get_firewall_rules] *)

(** [next((line for line in lines if "Status:" in line), default)] *)
Fixpoint first_status_line (lines : list string) (default : string) : string :=
  match lines with
  | [] => default
  | line :: r =>
      if contains "Status:" line then line else first_status_line r default
  end.

(** The loop that collects the bracketed lines. *)
Fixpoint collect_rules (lines : list string) : list rule :=
  match lines with
  | [] => []
  | line :: r =>
      match Re.match_rule_line (strip line) with
      | Some m => m :: collect_rules r
      | None => collect_rules r
      end
  end.

Definition _get_firewall_rules (st : UFWManager) (w : World)
  : UFWManager * World :=
  let (result, w) := _run_command w "sudo ufw status numbered" None in
  match result with
  | Completed stdout =>
      let lines := split_char (ascii_of_nat 10) (strip stdout) in
      let status_line := first_status_line lines "Status: inactive" in
      (* the status line holds a colon, so element 1 exists *)
      let status := strip (nth 1 (split_char ":" status_line) EmptyString) in
      let rs := collect_rules lines in
      let st := with_rules st status rs in
      (match rs with
       | [] => with_status st "UFW is active, but no rules are configured."
       | _ => st
       end, w)
  | CalledProcessError _ =>
      (with_status (with_rules st "error" [])
         "Error fetching UFW status. Is it installed and enabled?", w)
  end.

(* ------------------------------------------------------------------ *)
(** ** [_confirm_action] *)

(** [answer] is what [getstr] read, or [None] when it raised
    [curses.error]. *)
Definition _confirm_action (answer : option string) : bool :=
  let user_input :=
    match answer with
    | Some a => lower (strip a)
    | None => EmptyString
    end in
  String.eqb user_input "y".

(* ------------------------------------------------------------------ *)
(** ** [_delete_firewall_rule] *)

(** The inner loop over [data_dict.items()]; [None] is the [ValueError] of
    [int(num_str)]. *)
Fixpoint reindex_items (deleted_num : Z) (items : list (string * string))
         (new_data : dict) : option dict :=
  match items with
  | [] => Some new_data
  | (num_str, text) :: r =>
      match int num_str with
      | None => None
      | Some num =>
          if (num =? deleted_num)%Z then reindex_items deleted_num r new_data
          else if (num >? deleted_num)%Z
          then reindex_items deleted_num r
                 (PyDict.set (str (num - 1)) text new_data)
          else reindex_items deleted_num r (PyDict.set num_str text new_data)
      end
  end.

Definition reindex (deleted_num : Z) (data_dict : dict) : option dict :=
  reindex_items deleted_num data_dict [].

(** One round of the loop over the two dictionaries.  [data_dict] is the
    object listed before the loop started; the attribute to rebind is
    chosen by comparing it with the current [self.notes]. *)
Definition reindex_round (deleted_num : Z) (data_dict : dict)
           (file_path : path) (st : UFWManager) (w : World)
  : outcome (UFWManager * World) unit :=
  match reindex deleted_num data_dict with
  | None => Raises ValueError (st, w)
  | Some new_data =>
      let st := if PyDict.eqb data_dict (notes st)
                then with_notes st new_data
                else with_services st new_data in
      let (st, w) := _save_notes_or_services st w file_path new_data in
      Returns (st, w) tt
  end.

Definition _delete_firewall_rule (st : UFWManager) (w : World)
           (answer : option string) : outcome (UFWManager * World) unit :=
  match rules st with
  | [] => Returns (with_status st "No rule selected to delete.", w) tt
  | _ =>
  if length (rules st) <=? selected_index st
  then Returns (with_status st "No rule selected to delete.", w) tt
  else
    let rule_num_str :=
      strip_chars "[] "
        (fst (nth (selected_index st) (rules st) (EmptyString, EmptyString))) in
    if negb (isdigit rule_num_str)
    then Returns (with_status st "This line is not a deletable rule.", w) tt
    else if _confirm_action answer then
      let (result, w) :=
        _run_command w ("sudo ufw delete " ++ rule_num_str) (Some "y") in
      match result with
      | CalledProcessError stderr =>
          Returns (with_status st ("Error deleting rule: " ++ strip stderr), w)
                  tt
      | Completed _ =>
          let st := with_status st
                      ("Rule " ++ rule_num_str ++ " deleted successfully.") in
          match int rule_num_str with
          | None => Raises ValueError (st, w)
          | Some deleted_num =>
              let notes0 := notes st in
              let services0 := services st in
              match reindex_round deleted_num notes0 notes_file st w with
              | Returns (st, w) _ =>
                  match reindex_round deleted_num services0 services_file
                                      st w with
                  | Returns (st, w) _ =>
                      (* max(0, self.selected_index - 1) *)
                      let st := with_selected st
                                  (Nat.pred (selected_index st)) in
                      let (st, w) := _get_firewall_rules st w in
                      Returns (st, w) tt
                  | other => other
                  end
              | other => other
              end
          end
      end
    else Returns (st, w) tt
  end.

(* ------------------------------------------------------------------ *)
(** ** [_get_rule_input_from_form] *)

Definition actions : list string := ["allow"; "deny"; "reject"; "limit"].
Definition protocols : list string := ["tcp"; "udp"; "any"].
Definition directions : list string := ["in"; "out"].

(** The names in [field_order]. *)
Inductive field_name : Type :=
| FAction | FDirection | FProtocol | FPort | FFromToIP | FService | FNote.

Definition field_order : list field_name :=
  [FAction; FDirection; FProtocol; FPort; FFromToIP; FService; FNote].

(** The dictionary [fields]: a drop-down holds the position of its current
    option, a text field its text. *)
Record form_fields : Type := mkFields {
  Action : nat;
  Direction : nat;
  Protocol : nat;
  Port : string;
  From_To_IP : string;
  Service : string;
  Note : string
}.

Definition default_fields : form_fields :=
  mkFields 0 0 0 EmptyString "any" EmptyString EmptyString.

(** The options of a drop-down; [None] for a text field. *)
Definition options_of (name : field_name) : option (list string) :=
  match name with
  | FAction => Some actions
  | FDirection => Some directions
  | FProtocol => Some protocols
  | _ => None
  end.

Definition get_index (fs : form_fields) (name : field_name) : nat :=
  match name with
  | FAction => Action fs
  | FDirection => Direction fs
  | FProtocol => Protocol fs
  | _ => 0
  end.

Definition set_index (fs : form_fields) (name : field_name) (i : nat)
  : form_fields :=
  match name with
  | FAction => mkFields i (Direction fs) (Protocol fs) (Port fs)
                        (From_To_IP fs) (Service fs) (Note fs)
  | FDirection => mkFields (Action fs) i (Protocol fs) (Port fs)
                           (From_To_IP fs) (Service fs) (Note fs)
  | FProtocol => mkFields (Action fs) (Direction fs) i (Port fs)
                          (From_To_IP fs) (Service fs) (Note fs)
  | _ => fs
  end.

Definition get_text (fs : form_fields) (name : field_name) : string :=
  match name with
  | FPort => Port fs
  | FFromToIP => From_To_IP fs
  | FService => Service fs
  | FNote => Note fs
  | _ => EmptyString
  end.

Definition set_text (fs : form_fields) (name : field_name) (s : string)
  : form_fields :=
  match name with
  | FPort => mkFields (Action fs) (Direction fs) (Protocol fs) s
                      (From_To_IP fs) (Service fs) (Note fs)
  | FFromToIP => mkFields (Action fs) (Direction fs) (Protocol fs) (Port fs)
                          s (Service fs) (Note fs)
  | FService => mkFields (Action fs) (Direction fs) (Protocol fs) (Port fs)
                         (From_To_IP fs) s (Note fs)
  | FNote => mkFields (Action fs) (Direction fs) (Protocol fs) (Port fs)
                      (From_To_IP fs) (Service fs) s
  | _ => fs
  end.

(** The two loops over [enumerate(...)]: the last option found in the text
    sets the position. *)
Fixpoint last_found (found : string -> bool) (options : list string)
         (i : nat) (current : nat) : nat :=
  match options with
  | [] => current
  | o :: r => last_found found r (S i) (if found o then i else current)
  end.

(** The block under [if existing_rule]: seeds the fields from the rule's
    text and from the two dictionaries.  [inl IndexError] is the exception
    of taking element 0 of an empty [split()]. *)
Definition prepopulate (st : UFWManager) (existing_rule : rule)
           (fs : form_fields) : exn + form_fields :=
  let rule_num := strip_chars "[] " (fst existing_rule) in
  let rule_text := lower (snd existing_rule) in
  let fs := set_index fs FAction
              (last_found (fun a => contains a rule_text) actions 0
                          (Action fs)) in
  let fs := set_index fs FDirection
              (last_found (fun d => contains (" " ++ d ++ " ") rule_text)
                          directions 0 (Direction fs)) in
  let fs := match Re.search_digits rule_text with
            | Some port => set_text fs FPort port
            | None => fs
            end in
  let seeded :=
    match Re.search_action actions "in" "out" None rule_text with
    | Some action_str =>
        match split1 action_str rule_text with
        | [_; after] =>
            let from_part := strip after in
            match split from_part with
            | from_ip :: _ =>
                if negb (is_empty from_ip)
                   && negb (String.eqb (lower from_ip) "anywhere")
                then inr (set_text fs FFromToIP from_ip)
                else inr fs
            | [] => inl IndexError
            end
        | _ => inl IndexError
        end
    | None => inr fs
    end in
  match seeded with
  | inr fs =>
      let fs := set_text fs FService
                  (match PyDict.get rule_num (services st) with
                   | Some s => s | None => EmptyString end) in
      let fs := set_text fs FNote
                  (match PyDict.get rule_num (notes st) with
                   | Some s => s | None => EmptyString end) in
      inr fs
  | inl e => inl e
  end.

Definition key_in (key : Z) (keys : list Z) : bool :=
  existsb (Z.eqb key) keys.

(** The longest text a field takes by typing; 0 for a drop-down. *)
Definition max_len (name : field_name) : nat :=
  match name with
  | FPort => 5
  | FFromToIP => 15
  | FService => 18
  | FNote => 43
  | _ => 0
  end.

(** One turn of the loop after a key that is neither Enter nor Escape.
    Positions are natural numbers, so [(i - 1 + n) % n] is computed with
    the addition first. *)
Definition form_key (fs : form_fields) (current_field_idx : nat) (key : Z)
  : form_fields * nat :=
  let n := length field_order in
  let current_field_name := nth current_field_idx field_order FAction in
  if key_in key [Curses.KEY_UP; Curses.KEY_BTAB]
  then (fs, (current_field_idx + n - 1) mod n)
  else if key_in key [Curses.KEY_DOWN; 9%Z]
  then (fs, (current_field_idx + 1) mod n)
  else
    match options_of current_field_name with
    | Some options =>
        let current_idx := get_index fs current_field_name in
        if (key =? Curses.KEY_LEFT)%Z
        then (set_index fs current_field_name
                ((current_idx + length options - 1) mod length options),
              current_field_idx)
        else if (key =? Curses.KEY_RIGHT)%Z
        then (set_index fs current_field_name
                ((current_idx + 1) mod length options),
              current_field_idx)
        else (fs, current_field_idx)
    | None =>
        let text := get_text fs current_field_name in
        if key_in key [Curses.KEY_BACKSPACE; 127%Z; 8%Z]
        then (set_text fs current_field_name (drop_last text),
              current_field_idx)
        else if (32 <=? key)%Z && (key <=? 126)%Z
        then
          if max_len current_field_name <=? String.length text
          then (fs, current_field_idx)
          else (set_text fs current_field_name
                  (text ++ String (chr key) EmptyString),
                current_field_idx)
        else (fs, current_field_idx)
    end.

(** How the loop over the keys ends. *)
Inductive form_exit : Type :=
| Entered (fs : form_fields)
| Escaped
| StillOpen (fs : form_fields) (current_field_idx : nat).

Fixpoint form_loop (fs : form_fields) (current_field_idx : nat)
         (keys : list Z) : form_exit :=
  match keys with
  | [] => StillOpen fs current_field_idx
  | key :: rest =>
      if key_in key [Curses.KEY_ENTER; 10%Z; 13%Z] then Entered fs
      else if (key =? 27)%Z then Escaped
      else let (fs, i) := form_key fs current_field_idx key in
           form_loop fs i rest
  end.

(** The code after the loop: the port check and the command string. *)
Definition build_rule (st : UFWManager) (fs : form_fields)
  : UFWManager * option (string * string * string) :=
  let action := nth (Action fs) actions EmptyString in
  let direction := nth (Direction fs) directions EmptyString in
  let protocol := nth (Protocol fs) protocols EmptyString in
  let port := Port fs in
  let from_ip := From_To_IP fs in
  if negb (isdigit port)
  then (with_status st "Error: Port must be a number.", None)
  else
    let rule := action ++ " " ++ direction in
    let rule := if negb (String.eqb (lower from_ip) "any")
                then rule ++ " from " ++ from_ip else rule in
    let rule := rule ++ " to any port " ++ port in
    let rule := if negb (String.eqb (lower protocol) "any")
                then rule ++ " proto " ++ protocol else rule in
    (st, Some (rule, Service fs, Note fs)).

Definition form_result : Type := option (string * string * string).

(** The fields the form opens with. *)
Definition seed_fields (st : UFWManager) (existing_rule : option rule)
  : exn + form_fields :=
  match existing_rule with
  | Some r => prepopulate st r default_fields
  | None => inr default_fields
  end.

Definition _get_rule_input_from_form (st : UFWManager)
           (existing_rule : option rule) (keys : list Z)
  : outcome UFWManager form_result :=
  match seed_fields st existing_rule with
  | inl e => Raises e st
  | inr fs =>
      match form_loop fs 0 keys with
      | Entered fs => let (st, r) := build_rule st fs in Returns st r
      | Escaped => Returns st None
      | StillOpen _ _ => AwaitsKey
      end
  end.

(* ------------------------------------------------------------------ *)
(** ** [_add_or_edit_rule] *)

Definition rule_eqb (a b : rule) : bool :=
  String.eqb (fst a) (fst b) && String.eqb (snd a) (snd b).

Definition rule_in (x : rule) (s : list rule) : bool := existsb (rule_eqb x) s.

(** [{tuple(r) for r in rs}]: a set is a list without repetition. *)
Fixpoint rule_set (rs : list rule) : list rule :=
  match rs with
  | [] => []
  | r :: rest =>
      let s := rule_set rest in if rule_in r s then s else r :: s
  end.

(** [a - b] on sets. *)
Definition set_minus (a b : list rule) : list rule :=
  filter (fun x => negb (rule_in x b)) a.

(** One round of the loop of the edit branch: the dictionary is changed in
    place and saved. *)
Definition annotate_round (num text : string) (file_path : path)
           (st : UFWManager) (w : World) : UFWManager * World :=
  let data_dict := store_of st file_path in
  let data_dict :=
    if negb (is_empty text) then PyDict.set num text data_dict
    else if PyDict.mem num data_dict then PyDict.del num data_dict
    else data_dict in
  _save_notes_or_services (with_store st file_path data_dict) w file_path
                          data_dict.

(** The annotation of a rule that an add produced: a text that is empty
    leaves its dictionary and file alone. *)
Definition annotate_new (new_rule_num text : string) (file_path : path)
           (st : UFWManager) (w : World) : UFWManager * World :=
  if negb (is_empty text) then
    let data_dict := PyDict.set new_rule_num text (store_of st file_path) in
    _save_notes_or_services (with_store st file_path data_dict) w file_path
                            data_dict
  else (st, w).

(** The body of the [try] up to the success message; [inr] carries the
    standard error of the command that failed. *)
Definition apply_rule (st : UFWManager) (w : World) (is_edit : bool)
           (old_rule_num new_rule_command service_text note_text : string)
  : (UFWManager * World) + (UFWManager * World * string) :=
  if is_edit then
    let (r1, w) :=
      _run_command w ("sudo ufw delete " ++ old_rule_num) (Some "y") in
    match r1 with
    | CalledProcessError e => inr (st, w, e)
    | Completed _ =>
        let (r2, w) :=
          _run_command w ("sudo ufw insert " ++ old_rule_num ++ " "
                          ++ new_rule_command) None in
        match r2 with
        | CalledProcessError e => inr (st, w, e)
        | Completed _ =>
            let (st, w) :=
              annotate_round old_rule_num service_text services_file st w in
            inl (annotate_round old_rule_num note_text notes_file st w)
        end
    end
  else
    let old_rules_set := rule_set (rules st) in
    let (r, w) := _run_command w ("sudo ufw " ++ new_rule_command) None in
    match r with
    | CalledProcessError e => inr (st, w, e)
    | Completed _ =>
        let (st, w) := _get_firewall_rules st w in
        let new_rules_set := rule_set (rules st) in
        let added_rules := set_minus new_rules_set old_rules_set in
        match added_rules with
        | [] => inl (st, w)
        | first :: _ =>
            let popped :=
              nth (set_pop w added_rules mod length added_rules) added_rules
                  first in
            let new_rule_num := strip_chars "[] " (fst popped) in
            let (st, w) :=
              annotate_new new_rule_num service_text services_file st w in
            inl (annotate_new new_rule_num note_text notes_file st w)
        end
    end.

(** The first lines of the method: [None] when an edit finds no selected
    rule, otherwise the value of [rule_to_edit]. *)
Definition selected_rule (st : UFWManager) (is_edit : bool)
  : option (option rule) :=
  if is_edit then
    match rules st with
    | [] => None
    | _ =>
        if length (rules st) <=? selected_index st then None
        else Some (Some (nth (selected_index st) (rules st)
                             (EmptyString, EmptyString)))
    end
  else Some None.

Definition _add_or_edit_rule (st : UFWManager) (w : World) (is_edit : bool)
           (keys : list Z) : outcome (UFWManager * World) unit :=
  match selected_rule st is_edit with
  | None => Returns (with_status st "No rule selected to edit.", w) tt
  | Some rule_to_edit =>
      let old_rule_num :=
        match rule_to_edit with
        | Some r => strip_chars "[] " (fst r)
        | None => EmptyString
        end in
      match _get_rule_input_from_form st rule_to_edit keys with
      | Raises e st => Raises e (st, w)
      | AwaitsKey => AwaitsKey
      | Returns st None => Returns (st, w) tt
      | Returns st (Some (new_rule_command, service_text, note_text)) =>
          match apply_rule st w is_edit old_rule_num new_rule_command
                           service_text note_text with
          | inl (st, w) =>
              let st := with_status st "Rule applied successfully." in
              let (st, w) := _get_firewall_rules st w in
              Returns (st, w) tt
          | inr (st, w, stderr) =>
              Returns (with_status st ("Error applying rule: " ++ strip stderr),
                       w) tt
          end
      end
  end.

(* ------------------------------------------------------------------ *)
(** ** [_panic_mode] *)

Fixpoint _panic_mode (st : UFWManager) (w : World) (keys : list Z)
  : outcome (UFWManager * World) unit :=
  match keys with
  | [] => AwaitsKey
  | key :: rest =>
      if key_in key [Curses.KEY_ENTER; 10%Z; 13%Z] then
        let (r, w) := _run_command w "sudo ufw reset" (Some "y") in
        match r with
        | Completed _ =>
            let st := with_status st "Firewall has been reset to default." in
            let (st, w) := _get_firewall_rules st w in
            Returns (st, w) tt
        | CalledProcessError e =>
            Returns (with_status st ("Error resetting firewall: " ++ strip e),
                     w) tt
        end
      else if (key =? 27)%Z then
        Returns (with_status st "Panic mode aborted.", w) tt
      else _panic_mode st w rest
  end.

(* ================================================================== *)
(** * The remaining methods *)

(* ------------------------------------------------------------------ *)
(** ** [__init__] *)

(** The attributes before the files are loaded. *)
Definition initial : UFWManager :=
  mkUFWManager 0 0 "Welcome to UFW Manager! Press 'R' to load/reload rules."
               [] "inactive" [] [].

Definition __init__ (w : World) : UFWManager * World :=
  _setup_and_load_files initial w.

(* ------------------------------------------------------------------ *)
(** ** [_reload_firewall] *)

Definition _reload_firewall (st : UFWManager) (w : World)
  : UFWManager * World :=
  let (r, w) := _run_command w "sudo ufw reload" None in
  let st :=
    match r with
    | Completed _ => with_status st "Firewall reloaded successfully."
    | CalledProcessError e =>
        with_status st ("Error reloading firewall: " ++ strip e)
    end in
  _get_firewall_rules st w.

(* ------------------------------------------------------------------ *)
(** ** [_draw_main_window] *)

(** Calls into curses are taken to succeed.  What a drawing method changes
    in the object is modelled, and the texts it writes are returned; colours,
    borders and separator lines are left out. *)

Fixpoint spaces (n : nat) : string :=
  match n with O => EmptyString | S m => String " " (spaces m) end.

(** The format [{s:<n}]: padded with spaces on the right up to [n]
    characters, never cut. *)
Definition ljust (n : nat) (s : string) : string :=
  s ++ spaces (n - String.length s).

Fixpoint take (n : nat) (s : string) : string :=
  match n, s with
  | S m, String c r => String c (take m r)
  | _, _ => EmptyString
  end.

(** [s[:n]]: a negative [n] counts from the end. *)
Definition slice_to (n : Z) (s : string) : string :=
  if (n <? 0)%Z then take (Z.to_nat (Z.of_nat (String.length s) + n)) s
  else take (Z.to_nat n) s.

(** [l[start:stop]] for a start that is not negative. *)
Definition list_slice {A : Type} (start : nat) (stop : Z) (l : list A)
  : list A :=
  let stop :=
    if (stop <? 0)%Z then Z.max 0 (Z.of_nat (length l) + stop) else stop in
  firstn (Z.to_nat stop - start) (skipn start l).

Definition display_actions : list string :=
  ["ALLOW"; "DENY"; "REJECT"; "LIMIT"].

(** The three columns taken from a rule's description: what precedes the
    action phrase, the phrase, and the first word after it.  [inl] is the
    [IndexError] of element 0 of an empty [split()]. *)
Definition row_parts (rule_details : string)
  : exn + (string * string * string) :=
  match Re.search_action display_actions "IN" "OUT" None rule_details with
  | Some action_str =>
      match split1 action_str rule_details with
      | [before; after] =>
          match split (strip after) with
          | from_part :: _ => inr (strip before, strip action_str, from_part)
          | [] => inl IndexError
          end
      | _ => inl IndexError
      end
  | None => inr (rule_details, EmptyString, EmptyString)
  end.

(** The text of one row, before it is cut to the window. *)
Definition row_line (st : UFWManager) (r : rule) : exn + string :=
  let rule_num := fst r in
  let rule_num_str := strip_chars "[] " rule_num in
  let note_display := if PyDict.mem rule_num_str (notes st)
                      then "Yes" else "No" in
  let service := match PyDict.get rule_num_str (services st) with
                 | Some s => s | None => EmptyString end in
  match row_parts (snd r) with
  | inr (to_part, action_part, from_part) =>
      inr (ljust 5 rule_num ++ " " ++ ljust 17 to_part ++ " "
           ++ ljust 12 action_part ++ " " ++ ljust 15 from_part ++ " "
           ++ ljust 18 service ++ " " ++ note_display)
  | inl e => inl e
  end.

(** The loop over the visible rules: each row with whether it is the
    selected one; [i] is the position in the slice. *)
Fixpoint draw_rows (st : UFWManager) (width : Z) (i : nat)
         (visible : list rule) : exn + list (string * bool) :=
  match visible with
  | [] => inr []
  | r :: rest =>
      match row_line st r with
      | inl e => inl e
      | inr line =>
          match draw_rows st width (S i) rest with
          | inl e => inl e
          | inr rows =>
              inr ((slice_to (width - 4) line,
                    i + scroll_pos st =? selected_index st) :: rows)
          end
      end
  end.

Definition with_scroll (st : UFWManager) (p : nat) : UFWManager :=
  mkUFWManager (selected_index st) p (status_message st) (rules st)
               (ufw_status st) (notes st) (services st).

(** The number of rows that fit: [(height - 9) // 2]. *)
Definition list_height (height : Z) : Z := ((height - 9) / 2)%Z.

(** The two assignments that keep the selected rule in view. *)
Definition scrolled (st : UFWManager) (height : Z) : Z :=
  let sel := Z.of_nat (selected_index st) in
  let pos := Z.of_nat (scroll_pos st) in
  let pos := if (sel <? pos)%Z then sel else pos in
  if (sel >=? pos + list_height height)%Z
  then (sel - list_height height + 1)%Z else pos.

(** What the main window shows. *)
Inductive main_view : Type :=
| StatusError
| NoRules
| Rows (rows : list (string * bool)) (more_below : bool).

Definition _draw_main_window (st : UFWManager) (height width : Z)
  : outcome UFWManager main_view :=
  if String.eqb (ufw_status st) "error" then Returns st StatusError
  else
    match rules st with
    | [] => Returns st NoRules
    | _ =>
        let st := with_scroll st (Z.to_nat (scrolled st height)) in
        let stop := (Z.of_nat (scroll_pos st) + list_height height)%Z in
        match draw_rows st width 0
                        (list_slice (scroll_pos st) stop (rules st)) with
        | inl e => Raises e st
        | inr rows =>
            Returns st (Rows rows (stop <? Z.of_nat (length (rules st)))%Z)
        end
    end.

(* ------------------------------------------------------------------ *)
(** ** [_draw_footer] *)

(** The key help on the left; its two arrows are code points above 127. *)
Definition keys_left : string :=
  String (ascii_of_nat 129)
         ("/" ++ String (ascii_of_nat 130)
                        "|A:Add|D:Del|ENT:Edit|R:Reload|Q:Quit").

Definition keys_right : string := "Shift+P: Panic Mode!!".

(** Returns whether the hint of the reset key is drawn and the status line
    that is drawn, if any; the status message is shown once and cleared. *)
Definition _draw_footer (st : UFWManager) (width : Z)
  : UFWManager * (bool * option string) :=
  let start_x := (width - Z.of_nat (String.length keys_right) - 2)%Z in
  let hint := (start_x >? Z.of_nat (String.length keys_left))%Z in
  if negb (is_empty (status_message st))
  then (with_status st EmptyString,
        (hint, Some (slice_to (width - 2)
                              ("Status: " ++ status_message st))))
  else (st, (hint, None)).

(* ------------------------------------------------------------------ *)
(** ** [_app_loop] *)

(** What one pass of the loop reads: the size of the terminal, the key (or
    -1 when the wait timed out), and what the dialog that the key opens
    reads until it closes: the answer to a confirmation, the keys of a form
    or of the reset dialog. *)
Record pass_input : Type := mkInput {
  height : Z;
  width : Z;
  key : Z;
  answer : option string;
  dialog_keys : list Z
}.

(** How a pass ends: with [break], or at the end of the body. *)
Inductive pass_end : Type := Break | Next.

Definition lift_unit (o : outcome (UFWManager * World) unit)
           (k : UFWManager -> World -> outcome (UFWManager * World) pass_end)
  : outcome (UFWManager * World) pass_end :=
  match o with
  | Returns (st, w) _ => k st w
  | Raises e s => Raises e s
  | AwaitsKey => AwaitsKey
  end.

(** The end of the body: the three drawing methods.  The header changes
    nothing in the object. *)
Definition redraw (i : pass_input) (st : UFWManager) (w : World)
  : outcome (UFWManager * World) pass_end :=
  match _draw_main_window st (height i) (width i) with
  | Returns st _ =>
      let (st, _) := _draw_footer st (width i) in Returns (st, w) Next
  | Raises e st => Raises e (st, w)
  | AwaitsKey => AwaitsKey
  end.

(** The refresh of a pass whose wait timed out. *)
Definition idle_refresh (i : pass_input) (st : UFWManager) (w : World)
  : UFWManager * World :=
  if (key i =? -1)%Z then
    let (st, w) := _get_firewall_rules st w in _setup_and_load_files st w
  else (st, w).

(** One pass of the [while True] loop. *)
Definition loop_pass (st : UFWManager) (w : World) (i : pass_input)
  : outcome (UFWManager * World) pass_end :=
  if ((height i <? 15) || (width i <? 80))%Z then
    if (key i =? 113)%Z then Returns (st, w) Break else Returns (st, w) Next
  else if key_in (key i) [113; 81]%Z then Returns (st, w) Break
  else
    let finish st w :=
      let (st, w) := idle_refresh i st w in redraw i st w in
    if (key i =? Curses.KEY_UP)%Z
    then finish (with_selected st (Nat.pred (selected_index st))) w
    else if (key i =? Curses.KEY_DOWN)%Z && negb (length (rules st) =? 0)
    then finish (with_selected st (Nat.min (length (rules st) - 1)
                                           (selected_index st + 1))) w
    else if key_in (key i) [114; 82]%Z
    then let (st, w) := _reload_firewall st w in finish st w
    else if key_in (key i) [100; 68]%Z
    then lift_unit (_delete_firewall_rule st w (answer i)) finish
    else if key_in (key i) [97; 65]%Z
    then lift_unit (_add_or_edit_rule st w false (dialog_keys i)) finish
    else if key_in (key i) [Curses.KEY_ENTER; 10; 13]%Z
    then lift_unit (_add_or_edit_rule st w true (dialog_keys i)) finish
    else if (key i =? 80)%Z
    then lift_unit (_panic_mode st w (dialog_keys i)) finish
    else finish st w.

(** The loop over the passes that the input holds. *)
Fixpoint run_passes (st : UFWManager) (w : World) (inputs : list pass_input)
  : outcome (UFWManager * World) unit :=
  match inputs with
  | [] => AwaitsKey
  | i :: rest =>
      match loop_pass st w i with
      | Returns (st, w) Break => Returns (st, w) tt
      | Returns (st, w) Next => run_passes st w rest
      | Raises e s => Raises e s
      | AwaitsKey => AwaitsKey
      end
  end.

(** The method: one fetch of the rules, then the loop. *)
Definition _app_loop (st : UFWManager) (w : World) (inputs : list pass_input)
  : outcome (UFWManager * World) unit :=
  let (st, w) := _get_firewall_rules st w in run_passes st w inputs.

(* ================================================================== *)
(** * Vocabulary of the statements *)

(** The clause of the command for the remote address, in the words of the
    specification: absent for the neutral value, whatever its case. *)
Definition from_clause (remote_address : string) : string :=
  if String.eqb (lower remote_address) "any" then EmptyString
  else " from " ++ remote_address.

(** The clause of the command for the protocol. *)
Definition proto_clause (protocol : string) : string :=
  if String.eqb (lower protocol) "any" then EmptyString
  else " proto " ++ protocol.

(** The command in the words of the specification: action and direction,
    the address clause, the port, the protocol clause, in this order. *)
Definition spec_command (action direction remote_address port protocol
                         : string) : string :=
  action ++ " " ++ direction ++ from_clause remote_address
  ++ " to any port " ++ port ++ proto_clause protocol.

Definition LF : ascii := ascii_of_nat 10.
Definition CR : ascii := ascii_of_nat 13.

Definition is_linebreak (c : ascii) : bool :=
  Ascii.eqb c LF || Ascii.eqb c CR.

(** A text without line feed or carriage return. *)
Definition one_line (s : string) : bool :=
  forall_chars (fun c => negb (is_linebreak c)) s.



(** Neither annotation file refuses access. *)
Definition accessible (w : World) : Prop :=
  (forall e, notes_txt w <> Denied e) /\ (forall e, services_txt w <> Denied e).

(** The text a load reads from a file that does not refuse access. *)
Definition text_of (f : file) : string :=
  match f with Content t => t | _ => EmptyString end.



(** A missing file after a load. *)
Definition created (f : file) : file :=
  match f with Absent => Content EmptyString | _ => f end.

(* ------------------------------------------------------------------ *)
(** ** Concrete objects and worlds *)

(** A tool that lists no rule, as [ufw] does while it is inactive. *)
Definition quiet_shell (_ : list event) (_ : string) : completed :=
  Completed "Status: inactive".

Definition empty_world : World :=
  mkWorld quiet_shell [] (Content EmptyString) (Content EmptyString)
          (fun _ => 0).

Definition fresh : UFWManager :=
  mkUFWManager 0 0 EmptyString [] "inactive" [] [].

(** A note that starts with a space, as the form lets one type it. *)
Definition spaced_note : UFWManager :=
  with_notes fresh [("1", " x")].

(** Keys: three times down to the port field, the digits 2 2, Enter. *)
Definition keys_port_22 : list Z := [258; 258; 258; 50; 50; 10]%Z.

(** The same, then down to the address field, three backspaces over the
    default, and the address 10.0.0.5. *)
Definition keys_port_22_from_10_0_0_5 : list Z :=
  [258; 258; 258; 50; 50; 258; 263; 263; 263;
   49; 48; 46; 48; 46; 48; 46; 53; 10]%Z.

(** Keys: down to the port field, the letters a b c, Enter. *)
Definition keys_port_abc : list Z := [258; 258; 258; 97; 98; 99; 10]%Z.

Definition fields_port_abc : form_fields :=
  mkFields 0 0 0 "abc" "any" EmptyString EmptyString.

(** A listed rule whose source address is longer than fifteen characters,
    and the fields an edit of it opens with. *)
Definition rule_from_subnet : rule :=
  ("[ 1]", "22/tcp                     ALLOW IN    192.168.100.200/24").

Definition fields_from_subnet : form_fields :=
  mkFields 0 0 0 "22" "192.168.100.200/24" EmptyString EmptyString.

(** A listed rule for a UDP port, and the fields an edit of it opens with. *)
Definition rule_udp : rule :=
  ("[ 1]", "53/udp                     ALLOW IN    Anywhere").

Definition fields_udp : form_fields :=
  mkFields 0 0 0 "53" "any" EmptyString EmptyString.

Definition port_error : string := "Error: Port must be a number.".

Definition applied_message : string := "Rule applied successfully.".


(** A key that the reset dialog ignores. *)
Definition ignored_by_panic (key : Z) : bool :=
  negb (key_in key [Curses.KEY_ENTER; 10%Z; 13%Z]) && negb (key =? 27)%Z.

(** What an outcome returned, if it returned. *)
Definition returned {S A : Type} (o : outcome S A) : option S :=
  match o with Returns s _ => Some s | _ => None end.

(** The two snapshots of the specification's example. *)
Definition before_AB : list rule := [("[ 1]", "A"); ("[ 2]", "B")].
Definition after_ABC : list rule :=
  [("[ 1]", "A"); ("[ 2]", "B"); ("[ 3]", "C")].

(** Three listed rules, the first selected. *)
Definition three_rules : list rule :=
  [("[ 1]", "22/tcp                     ALLOW IN    Anywhere");
   ("[ 2]", "80/tcp                     ALLOW IN    Anywhere");
   ("[ 3]", "443/tcp                    ALLOW IN    Anywhere")].

(** The listing after the first of them is deleted. *)
Definition listing_after_delete : string :=
  "Status: active" ++ nl
  ++ "[ 1] 80/tcp                     ALLOW IN    Anywhere" ++ nl
  ++ "[ 2] 443/tcp                    ALLOW IN    Anywhere" ++ nl.

Definition shell_after_delete (_ : list event) (command : string)
  : completed :=
  if String.eqb command "sudo ufw status numbered"
  then Completed listing_after_delete
  else Completed "Rule deleted".

Definition world_three_rules : World :=
  mkWorld shell_after_delete [] (Content EmptyString) (Content EmptyString)
          (fun _ => 0).

(** The example of the specification: rule 2 has a service and a note. *)
Definition annotated_second : UFWManager :=
  mkUFWManager 0 0 EmptyString three_rules "active"
               [("2", "note")] [("2", "web")].

(** Rule 2 has the note web, rule 1 has the service web. *)
Definition same_text_twice : UFWManager :=
  mkUFWManager 0 0 EmptyString three_rules "active"
               [("2", "web")] [("1", "web")].

(** The stores and the annotation files that an operation leaves, if it
    returns. *)
Definition stores_and_files (o : outcome (UFWManager * World) unit)
  : option (dict * dict * file * file) :=
  match returned o with
  | Some (st, w) => Some (notes st, services st, notes_txt w, services_txt w)
  | None => None
  end.

(** The two rules that [listing_after_delete] lists. *)
Definition two_rules : list rule :=
  [("[ 1]", "80/tcp                     ALLOW IN    Anywhere");
   ("[ 2]", "443/tcp                    ALLOW IN    Anywhere")].

Definition listed_two : UFWManager :=
  mkUFWManager 0 0 EmptyString two_rules "active" [] [].

(** Keys: down to the port field, 8 0, down three times to the note field,
    the letter w, Enter. *)
Definition keys_port_80_note : list Z :=
  [258; 258; 258; 56; 48; 258; 258; 258; 119; 10]%Z.

(** The invariant of the data model, at most one entry per index: two keys
    of the store that read as the same number are the same key. *)
Definition one_entry_per_index (d : dict) : Prop :=
  forall k1 v1 k2 v2 n,
    In (k1, v1) d -> In (k2, v2) d ->
    int k1 = Some n -> int k2 = Some n -> k1 = k2.

(** Where the reindexing after the deletion of [deleted_num] puts an item,
    if it keeps it. *)
Definition moved_item (deleted_num : Z) (item : string * string)
  : option (string * string) :=
  match int (fst item) with
  | Some num =>
      if (num =? deleted_num)%Z then None
      else if (num >? deleted_num)%Z then Some (str (num - 1), snd item)
      else Some item
  | None => None
  end.

Fixpoint moved_items (deleted_num : Z) (items : list (string * string))
  : list (string * string) :=
  match items with
  | [] => []
  | item :: r =>
      match moved_item deleted_num item with
      | Some m => m :: moved_items deleted_num r
      | None => moved_items deleted_num r
      end
  end.

(** A world with a notes file of two lines and no services file. *)
Definition world_with_notes_file : World :=
  mkWorld quiet_shell [] (Content ("2: web server " ++ nl ++ "x:y" ++ nl))
          Absent (fun _ => 0).

(** Keys: down to the port field, 2 2, down three times to the note field,
    the letter w, Enter. *)
Definition keys_port_22_note : list Z :=
  [258; 258; 258; 50; 50; 258; 258; 258; 119; 10]%Z.

Definition no_rules_message : string :=
  "UFW is active, but no rules are configured.".

(** The rules, the notes and the status message that an operation leaves,
    if it returns. *)
Definition rules_notes_message (o : outcome (UFWManager * World) unit)
  : option (list rule * dict * string) :=
  match returned o with
  | Some (st, _) => Some (rules st, notes st, status_message st)
  | None => None
  end.

(** A line feed occurs only as the last character. *)
Fixpoint lf_last (s : string) : bool :=
  match s with
  | EmptyString => true
  | String c r => (negb (Ascii.eqb c LF) || is_empty r) && lf_last r
  end.

(** A line as a file read in text mode gives it. *)
Definition line_ok (s : string) : bool :=
  forall_chars (fun c => negb (Ascii.eqb c CR)) s && lf_last s.

(** What holds of a store that a load produced: distinct numeric keys and
    stripped texts of one line. *)
Definition loaded (d : dict) : Prop :=
  PyDict.wf d
  /\ forall k v, In (k, v) d ->
                 isdigit k = true /\ strip v = v /\ one_line v = true.

(** The three drop-downs point at one of their options. *)
Definition choices_in_range (fs : form_fields) : Prop :=
  Action fs < length actions
  /\ Direction fs < length directions
  /\ Protocol fs < length protocols.

(** A tool that lists one rule. *)
Definition shell_one_rule (_ : list event) (_ : string) : completed :=
  Completed ("Status: active" ++ nl
             ++ "[ 1] 22/tcp                     ALLOW IN    Anywhere" ++ nl).

Definition world_one_rule : World :=
  mkWorld shell_one_rule [] (Content EmptyString) (Content EmptyString)
          (fun _ => 0).

(** Keys: down to the port field, 2 2, down three times to the note field,
    a space and the letter x, Enter. *)
Definition keys_port_22_note_space_x : list Z :=
  [258; 258; 258; 50; 50; 258; 258; 258; 32; 120; 10]%Z.

(* ------------------------------------------------------------------ *)
(** ** Vocabulary for the remaining properties *)


(** The items whose key passes [isdigit], which a save keeps. *)
Definition valid_items (d : dict) : list (string * string) :=
  filter (fun item => isdigit (fst item)) d.

(** The message of a load that a file refused. *)
Definition config_error (e : string) : string :=
  "Error with config files: " ++ e.

(** A world whose notes file refuses access and whose services file is
    missing. *)
Definition world_notes_refused : World :=
  mkWorld quiet_shell [] (Denied "[Errno 13] Permission denied") Absent
          (fun _ => 0).

(** A world whose services file refuses access. *)
Definition world_services_refused : World :=
  mkWorld quiet_shell [] (Content ("2: web server " ++ nl))
          (Denied "[Errno 13] Permission denied") (fun _ => 0).

Definition welcome : string :=
  "Welcome to UFW Manager! Press 'R' to load/reload rules.".

(** The index column as [ufw] prints it: the number in brackets, padded
    with spaces on the left. *)
Definition index_text (pad : nat) (num : string) : string :=
  "[" ++ spaces pad ++ num ++ "]".

(** A listed rule as [ufw] prints it: such an index, and a description of
    one line without whitespace around it. *)
Definition printed_rule (r : rule) : Prop :=
  (exists pad num, isdigit num = true /\ fst r = index_text pad num)
  /\ snd r <> EmptyString
  /\ strip (snd r) = snd r
  /\ one_line (snd r) = true.

(** The line of the listing for a rule: index, a space, the description,
    and the spaces that pad the last column. *)
Definition listing_line (pad : rule -> nat) (r : rule) : string :=
  (fst r ++ " " ++ snd r) ++ spaces (pad r).

(** The lines joined by line feeds. *)
Fixpoint join_lines (lines : list string) : string :=
  match lines with
  | [] => EmptyString
  | l :: r =>
      match r with
      | [] => l
      | _ => l ++ nl ++ join_lines r
      end
  end.

Definition header_lines : list string :=
  [EmptyString;
   "     To                         Action      From";
   "     --                         ------      ----"].

Definition status_line (status : string) : string := "Status: " ++ status.

(** The output of [ufw status numbered]: the status line, an empty line,
    the two lines of the table's head, one padded line per rule, and some
    whitespace at the end. *)
Definition ufw_output (status : string) (rs : list rule) (pad : rule -> nat)
           (trailing : string) : string :=
  join_lines (status_line status
              :: header_lines ++ map (listing_line pad) rs)
  ++ trailing.

(** A status word: no whitespace and no colon. *)
Definition status_word (s : string) : bool :=
  forall_chars (fun c => negb (isspace_char c) && negb (Ascii.eqb c ":")) s.

(** The index that the program reads off a listed rule. *)
Definition rule_number (r : rule) : string := strip_chars "[] " (fst r).

(** A tool that prints the three rules of [three_rules]. *)
Definition shell_three_rules (_ : list event) (_ : string) : completed :=
  Completed (ufw_output "active" three_rules (fun _ => 18) (nl ++ nl)).

(** The command lines of a log, in the order they were run. *)
Fixpoint commands_run (tr : list event) : list string :=
  match tr with
  | [] => []
  | Ran c :: r => c :: commands_run r
  | Wrote _ _ :: r => commands_run r
  end.


(** The command lines of the program. *)
Definition delete_command (num : string) : string :=
  "echo 'y' | sudo ufw delete " ++ num.

Definition insert_command (num new_rule_command : string) : string :=
  "sudo ufw insert " ++ num ++ " " ++ new_rule_command.

Definition fetch_command : string := "sudo ufw status numbered".

Definition reset_command : string := "echo 'y' | sudo ufw reset".

(** The selected rule, when the selection points at one. *)
Definition selected (st : UFWManager) : rule :=
  nth (selected_index st) (rules st) (EmptyString, EmptyString).

(** A tool whose commands all fail. *)
Definition failing_shell (_ : list event) (_ : string) : completed :=
  CalledProcessError ("ERROR: bad" ++ nl).

Definition failing_world : World :=
  mkWorld failing_shell [] (Content EmptyString) (Content EmptyString)
          (fun _ => 0).

(** A tool that deletes and then fails to insert. *)
Definition shell_insert_fails (_ : list event) (command : string)
  : completed :=
  if String.prefix "sudo ufw insert" command
  then CalledProcessError ("ERROR: bad" ++ nl)
  else Completed "Rule deleted".

Definition world_insert_fails : World :=
  mkWorld shell_insert_fails [] (Content EmptyString) (Content EmptyString)
          (fun _ => 0).

Definition reload_command : string := "sudo ufw reload".

(** The message that a reload sets before it fetches the rules. *)
Definition reload_message (r : completed) : string :=
  match r with
  | Completed _ => "Firewall reloaded successfully."
  | CalledProcessError e => "Error reloading firewall: " ++ strip e
  end.

(** A tool that lists the two rules of [two_rules] and fails to reload. *)
Definition shell_reload_fails (_ : list event) (command : string)
  : completed :=
  if String.eqb command "sudo ufw status numbered"
  then Completed listing_after_delete
  else CalledProcessError ("ERROR: busy" ++ nl).

Definition world_reload_fails : World :=
  mkWorld shell_reload_fails [] (Content ("2:note" ++ nl))
          (Content EmptyString) (fun _ => 0).

(** The key codes that typing a text sends. *)
Fixpoint type_keys (s : string) : list Z :=
  match s with
  | EmptyString => []
  | String c r => Z.of_nat (nat_of_ascii c) :: type_keys r
  end.

(** The characters that the form takes as text: codes 32 to 126. *)
Definition printable_char (c : ascii) : bool :=
  (32 <=? nat_of_ascii c) && (nat_of_ascii c <=? 126).

Definition printable (s : string) : bool := forall_chars printable_char s.

(** The texts that a log records as written, with their files. *)
Fixpoint files_written (tr : list event) : list (path * string) :=
  match tr with
  | [] => []
  | Ran _ :: r => files_written r
  | Wrote p t :: r => (p, t) :: files_written r
  end.

(** The terminal has the size that the main screen asks for. *)
Definition big_enough (i : pass_input) : bool :=
  ((15 <=? height i) && (80 <=? width i))%Z.

(** The key ends the loop: q at any size, Q on the main screen. *)
Definition quit_key (i : pass_input) : bool :=
  ((key i =? 113) || ((key i =? 81) && big_enough i))%Z.

(** The keys that open the delete dialog or the form: d, D, a, A and the
    three codes of Enter. *)
Definition annotation_key (k : Z) : bool :=
  key_in k [100; 68; 97; 65; Curses.KEY_ENTER; 10; 13]%Z.

(** A pass of the loop on a terminal of 24 lines and 80 columns. *)
Definition pass_24x80 (k : Z) (a : option string) (keys : list Z)
  : pass_input :=
  mkInput 24 80 k a keys.

(** The annotation files hold the same texts and nothing more was written
    to them. *)
Definition files_kept (w w' : World) : Prop :=
  files_written (trace w') = files_written (trace w)
  /\ forall p, text_of (file_at w' p) = text_of (file_at w p).

(** The branch that the key of a pass takes on the main screen, before
    the refresh and the redraw that end the pass. *)
Definition key_action (st : UFWManager) (w : World) (i : pass_input)
  : outcome (UFWManager * World) unit :=
  if (key i =? Curses.KEY_UP)%Z
  then Returns (with_selected st (Nat.pred (selected_index st)), w) tt
  else if (key i =? Curses.KEY_DOWN)%Z && negb (length (rules st) =? 0)
  then Returns (with_selected st (Nat.min (length (rules st) - 1)
                                          (selected_index st + 1)), w) tt
  else if key_in (key i) [114; 82]%Z
  then Returns (_reload_firewall st w) tt
  else if key_in (key i) [100; 68]%Z
  then _delete_firewall_rule st w (answer i)
  else if key_in (key i) [97; 65]%Z
  then _add_or_edit_rule st w false (dialog_keys i)
  else if key_in (key i) [Curses.KEY_ENTER; 10; 13]%Z
  then _add_or_edit_rule st w true (dialog_keys i)
  else if (key i =? 80)%Z
  then _panic_mode st w (dialog_keys i)
  else Returns (st, w) tt.

(** The end of a pass on the main screen. *)
Definition finish_pass (i : pass_input) (st : UFWManager) (w : World)
  : outcome (UFWManager * World) pass_end :=
  let (st, w) := idle_refresh i st w in redraw i st w.

(** A world whose notes file holds an entry that the object has not
    loaded. *)
Definition world_edited_outside : World :=
  mkWorld shell_after_delete [] (Content ("1:ssh" ++ nl))
          (Content EmptyString) (fun _ => 0).


(** No capital letter in the text. *)
Definition no_upper (s : string) : bool :=
  forall_chars (fun c => negb (isupper_char c)) s.

(** Three listed rules, the second without anything after its action. *)
Definition rules_second_without_source : list rule :=
  [("[ 1]", "22/tcp                     ALLOW IN    Anywhere");
   ("[ 2]", "80/tcp DENY");
   ("[ 3]", "443/tcp                    ALLOW IN    Anywhere")].

(* ================================================================== *)
(** * Facts about strings *)

Section StringFacts.

Lemma append_assoc (a b c : string) : (a ++ b) ++ c = a ++ b ++ c.
Proof. induction a as [|x a IH]; simpl; [reflexivity | now rewrite IH]. Qed.

Lemma append_nil_r (a : string) : a ++ "" = a.
Proof. induction a as [|x a IH]; simpl; [reflexivity | now rewrite IH]. Qed.

Lemma length_append (a b : string) :
  String.length (a ++ b) = String.length a + String.length b.
Proof. induction a as [|x a IH]; simpl; [reflexivity | now rewrite IH]. Qed.

Lemma forall_chars_append (p : ascii -> bool) (a b : string) :
  forall_chars p (a ++ b) = forall_chars p a && forall_chars p b.
Proof.
  induction a as [|x a IH]; simpl; [reflexivity |].
  now rewrite IH, andb_assoc.
Qed.

Lemma forall_chars_impl (p q : ascii -> bool) (s : string) :
  (forall c, p c = true -> q c = true) ->
  forall_chars p s = true -> forall_chars q s = true.
Proof.
  intros Hpq; induction s as [|x s IH]; simpl; [reflexivity |].
  intros H; apply andb_prop in H as [Hx Hs].
  now rewrite (Hpq _ Hx), IH.
Qed.

Lemma isdigit_forall (s : string) :
  isdigit s = true -> forall_chars isdigit_char s = true.
Proof. destruct s; simpl; [discriminate | trivial]. Qed.

Lemma isdigit_spec (s : string) :
  isdigit s = true <-> s <> "" /\ forall_chars isdigit_char s = true.
Proof.
  destruct s; simpl; split; try discriminate; intuition congruence.
Qed.

Lemma digit_not_space (c : ascii) :
  isdigit_char c = true -> isspace_char c = false.
Proof.
  unfold isdigit_char, isspace_char; intros H.
  apply andb_prop in H as [H1 H2].
  apply Nat.leb_le in H1, H2.
  apply orb_false_iff; split; apply andb_false_iff.
  - right; apply Nat.leb_gt; lia.
  - right; apply Nat.leb_gt; lia.
Qed.

Lemma digit_not_char (c : ascii) (n : nat) :
  isdigit_char c = true -> n < 48 \/ 57 < n -> n < 256 ->
  Ascii.eqb c (ascii_of_nat n) = false.
Proof.
  unfold isdigit_char; intros H Hn Hlt.
  apply andb_prop in H as [H1 H2]; apply Nat.leb_le in H1, H2.
  apply Ascii.eqb_neq; intros ->.
  rewrite nat_ascii_embedding in H1, H2 by assumption; lia.
Qed.

Lemma lstrip_by_head (p : ascii -> bool) (c : ascii) (s : string) :
  p c = false -> lstrip_by p (String c s) = String c s.
Proof. intros H; simpl; now rewrite H. Qed.

Lemma rstrip_by_none (p : ascii -> bool) (s : string) :
  forall_chars (fun c => negb (p c)) s = true -> rstrip_by p s = s.
Proof.
  induction s as [|x s IH]; simpl; [reflexivity |].
  intros H; apply andb_prop in H as [Hx Hs].
  rewrite (IH Hs). apply negb_true_iff in Hx; rewrite Hx.
  now destruct s.
Qed.

Lemma rstrip_by_append_all (p : ascii -> bool) (s t : string) :
  forall_chars p t = true -> rstrip_by p (s ++ t) = rstrip_by p s.
Proof.
  intros Ht; induction s as [|x s IH]; simpl.
  - induction t as [|y t IHt]; simpl; [reflexivity |].
    simpl in Ht; apply andb_prop in Ht as [Hy Ht].
    now rewrite (IHt Ht), Hy.
  - now rewrite IH.
Qed.

Lemma strip_by_digits (p : ascii -> bool) (s : string) :
  (forall c, isdigit_char c = true -> p c = false) ->
  isdigit s = true -> lstrip_by p (rstrip_by p s) = s.
Proof.
  intros Hp H.
  rewrite rstrip_by_none.
  - destruct s as [|c s]; [discriminate |].
    simpl in H; apply andb_prop in H as [Hc _].
    apply lstrip_by_head, Hp, Hc.
  - apply isdigit_forall in H.
    revert H; apply forall_chars_impl; intros c Hc.
    now rewrite (Hp _ Hc).
Qed.


Lemma digit_not_int_space (c : ascii) :
  isdigit_char c = true -> int_space_char c = false.
Proof.
  unfold isdigit_char, int_space_char; intros H.
  apply andb_prop in H as [H1 H2].
  apply Nat.leb_le in H1, H2.
  apply orb_false_iff; split.
  - apply andb_false_iff; right; apply Nat.leb_gt; lia.
  - apply Nat.eqb_neq; lia.
Qed.


End StringFacts.

(* ================================================================== *)
(** * Numbers and their text *)

Section Numbers.

Lemma uint_string_digits (d : uint) :
  forall_chars isdigit_char (NilEmpty.string_of_uint d) = true.
Proof. induction d; simpl; trivial. Qed.

Lemma uint_string_nonempty (d : uint) :
  d <> Nil -> NilEmpty.string_of_uint d <> EmptyString.
Proof. destruct d; simpl; intros H; try discriminate. now destruct H. Qed.

Lemma digit_groups_digits (s : string) (b : bool) :
  forall_chars isdigit_char s = true ->
  b = true \/ s <> EmptyString ->
  digit_groups b s = Some s.
Proof.
  revert b; induction s as [|c s IH]; intros b Hd Hb.
  - destruct Hb as [-> | Hne]; [reflexivity | now destruct Hne].
  - cbn [forall_chars] in Hd; apply andb_prop in Hd as [Hc Hs].
    cbn [digit_groups].
    change "_"%char with (ascii_of_nat 95).
    rewrite (digit_not_char c 95) by (trivial; lia).
    rewrite Hc, (IH true Hs) by now left. reflexivity.
Qed.

Lemma unsigned_int_uint (d : uint) :
  d <> Nil ->
  unsigned_int (NilEmpty.string_of_uint d) = Some (Z.of_uint d).
Proof.
  intros Hd; unfold unsigned_int.
  rewrite digit_groups_digits.
  - now rewrite NilEmpty.usu.
  - apply uint_string_digits.
  - right; now apply uint_string_nonempty.
Qed.

Lemma nilzero_string (d : uint) :
  d <> Nil -> NilZero.string_of_uint d = NilEmpty.string_of_uint d.
Proof. destruct d; intros H; try reflexivity. now destruct H. Qed.

Lemma int_of_digits (s : string) :
  isdigit s = true -> int s = unsigned_int s.
Proof.
  intros H; unfold int.
  rewrite (strip_by_digits _ s digit_not_int_space H).
  destruct s as [|c r]; [discriminate |].
  cbn [isdigit forall_chars] in H; apply andb_prop in H as [Hc _].
  change "+"%char with (ascii_of_nat 43).
  change "-"%char with (ascii_of_nat 45).
  now rewrite !(digit_not_char c) by (trivial; lia).
Qed.

Lemma int_uint (d : uint) :
  d <> Nil -> int (NilEmpty.string_of_uint d) = Some (Z.of_uint d).
Proof.
  intros Hd; rewrite int_of_digits; [now apply unsigned_int_uint |].
  apply isdigit_spec; split;
    [now apply uint_string_nonempty | apply uint_string_digits].
Qed.

Lemma int_neg_uint (d : uint) :
  d <> Nil ->
  int (String "-" (NilEmpty.string_of_uint d)) = Some (- Z.of_uint d)%Z.
Proof.
  intros Hd; unfold int.
  rewrite rstrip_by_none.
  - rewrite lstrip_by_head by reflexivity.
    change (Ascii.eqb "-" "+") with false.
    change (Ascii.eqb "-" "-") with true.
    cbv beta iota. now rewrite unsigned_int_uint.
  - cbn [forall_chars]. apply andb_true_intro; split; [reflexivity |].
    generalize (uint_string_digits d); apply forall_chars_impl.
    intros c Hc; now rewrite (digit_not_int_space c Hc).
Qed.

(** Reading back the text of a number gives the number. *)
Lemma int_str (z : Z) : int (str z) = Some z.
Proof.
  unfold str. rewrite <- (DecimalZ.of_to z) at 2.
  destruct z as [| p | p]; cbn [Z.to_int NilZero.string_of_int Z.of_int].
  - reflexivity.
  - rewrite nilzero_string by apply DecimalPos.Unsigned.to_uint_nonnil.
    apply int_uint, DecimalPos.Unsigned.to_uint_nonnil.
  - rewrite nilzero_string by apply DecimalPos.Unsigned.to_uint_nonnil.
    apply int_neg_uint, DecimalPos.Unsigned.to_uint_nonnil.
Qed.

Lemma str_inj (a b : Z) : str a = str b -> a = b.
Proof.
  intros H. pose proof (int_str a) as Ha. rewrite H, int_str in Ha.
  congruence.
Qed.


End Numbers.

(* ================================================================== *)
(** * Facts about dictionaries *)

Section DictFacts.

Lemma get_set (k k' v : string) (d : dict) :
  PyDict.get k (PyDict.set k' v d)
  = if String.eqb k k' then Some v else PyDict.get k d.
Proof.
  induction d as [|[k0 v0] r IH]; simpl; [reflexivity |].
  destruct (String.eqb_spec k' k0) as [-> | Hne]; simpl.
  - destruct (String.eqb_spec k k0); reflexivity.
  - rewrite IH.
    destruct (String.eqb_spec k k0) as [-> | Hne2]; [| reflexivity].
    destruct (String.eqb_spec k0 k'); congruence.
Qed.

Lemma get_some_in (k v : string) (d : dict) :
  PyDict.get k d = Some v -> In (k, v) d.
Proof.
  induction d as [|[k0 v0] r IH]; simpl; [discriminate |].
  destruct (String.eqb_spec k k0) as [-> | Hne].
  - intros [= ->]; now left.
  - intros H; right; auto.
Qed.

Lemma get_none_notin (k : string) (d : dict) :
  PyDict.get k d = None <-> ~ In k (map fst d).
Proof.
  induction d as [|[k0 v0] r IH]; simpl; [tauto |].
  destruct (String.eqb_spec k k0) as [-> | Hne].
  - split; [discriminate | intros H; exfalso; apply H; now left].
  - rewrite IH; split; intros H; [intros [E | E]; congruence | tauto].
Qed.

Lemma in_get_some (k v : string) (d : dict) :
  PyDict.wf d -> In (k, v) d -> PyDict.get k d = Some v.
Proof.
  unfold PyDict.wf.
  induction d as [|[k0 v0] r IH]; simpl; [tauto |].
  intros Hnd [E | Hin]; inversion Hnd as [|? ? Hnot Hnd']; subst.
  - injection E as -> ->. now rewrite String.eqb_refl.
  - destruct (String.eqb_spec k k0) as [-> | Hne]; [| auto].
    exfalso; apply Hnot. now apply (in_map fst) in Hin.
Qed.




(** Successive assignments of items with distinct keys: the dictionary
    maps each of those keys to its item, and other keys as before. *)
Lemma get_fold_set (k : string) (l : list (string * string)) (acc : dict) :
  NoDup (map fst l) ->
  PyDict.get k (fold_left (fun a kv => PyDict.set (fst kv) (snd kv) a) l acc)
  = match PyDict.get k l with
    | Some v => Some v
    | None => PyDict.get k acc
    end.
Proof.
  revert acc; induction l as [|[k0 v0] r IH]; simpl; intros acc Hnd;
    [reflexivity |].
  inversion Hnd as [|? ? Hnot Hnd']; subst.
  rewrite (IH _ Hnd'), get_set.
  destruct (String.eqb_spec k k0) as [-> | Hne]; [| reflexivity].
  apply get_none_notin in Hnot. now rewrite Hnot.
Qed.




End DictFacts.

(* ================================================================== *)
(** * Saving and loading *)

Section SaveLoad.




Lemma one_line_no_LF (s : string) :
  one_line s = true -> forall_chars (fun c => negb (Ascii.eqb c LF)) s = true.
Proof.
  apply forall_chars_impl; intros c H.
  unfold is_linebreak in H. apply negb_true_iff, orb_false_iff in H as [H _].
  now rewrite H.
Qed.


Lemma digits_one_line (s : string) : isdigit s = true -> one_line s = true.
Proof.
  intros H; apply isdigit_forall in H; revert H.
  apply forall_chars_impl; intros c Hc. unfold is_linebreak, LF, CR.
  rewrite !(digit_not_char c) by (trivial; lia). reflexivity.
Qed.


Lemma prefix_char (a c : ascii) (s : string) :
  String.prefix (String a EmptyString) (String c s) = Ascii.eqb a c.
Proof.
  cbn [String.prefix].
  destruct (ascii_dec a c); destruct (Ascii.eqb_spec a c); try congruence.
  now destruct s.
Qed.

Lemma contains_cons (sub : string) (c : ascii) (r : string) :
  contains sub (String c r)
  = String.prefix sub (String c r) || contains sub r.
Proof. reflexivity. Qed.

Lemma cut_cons (sep : string) (c : ascii) (r : string) :
  cut sep (String c r)
  = if String.prefix sep (String c r)
    then Some (EmptyString, drop (String.length sep) (String c r))
    else match cut sep r with
         | Some (a, b) => Some (String c a, b)
         | None => None
         end.
Proof. reflexivity. Qed.










End SaveLoad.

(* ================================================================== *)
(** * Stores that a load produced *)

Section Loaded.

Lemma lstrip_by_forall (p q : ascii -> bool) (s : string) :
  forall_chars q s = true -> forall_chars q (lstrip_by p s) = true.
Proof.
  induction s as [|c r IH]; cbn [lstrip_by forall_chars]; [trivial |].
  intros H; destruct (p c); [| exact H].
  apply andb_prop in H as [_ Hr]; auto.
Qed.

Lemma rstrip_by_empty_inv (p : ascii -> bool) (c : ascii) (r : string) :
  rstrip_by p (String c r) = String c r -> rstrip_by p r = r.
Proof.
  cbn [rstrip_by]. destruct (rstrip_by p r) as [| d r'] eqn:E.
  - destruct (p c); [discriminate |]. now intros [= <-].
  - now intros [= <-].
Qed.

Lemma rstrip_by_idem (p : ascii -> bool) (s : string) :
  rstrip_by p (rstrip_by p s) = rstrip_by p s.
Proof.
  induction s as [|c r IH]; cbn [rstrip_by]; [reflexivity |].
  destruct (rstrip_by p r) as [| d r'] eqn:E.
  - destruct (p c) eqn:Hc; cbn [rstrip_by]; [reflexivity | now rewrite Hc].
  - cbn [rstrip_by] in IH |- *.
    destruct (rstrip_by p r') as [| e r''] eqn:E'.
    + destruct (p d); [discriminate | now rewrite IH].
    + now rewrite IH.
Qed.

Lemma rstrip_lstrip_fixed (p : ascii -> bool) (s : string) :
  rstrip_by p s = s -> rstrip_by p (lstrip_by p s) = lstrip_by p s.
Proof.
  induction s as [|c r IH]; [trivial |].
  intros H; cbn [lstrip_by]. destruct (p c); [| exact H].
  apply IH. eapply rstrip_by_empty_inv; exact H.
Qed.

Lemma lstrip_by_idem (p : ascii -> bool) (s : string) :
  lstrip_by p (lstrip_by p s) = lstrip_by p s.
Proof.
  induction s as [|c r IH]; cbn [lstrip_by]; [reflexivity |].
  destruct (p c) eqn:Hc; [exact IH |]. cbn [lstrip_by]; now rewrite Hc.
Qed.

(** Stripping twice is stripping once. *)
Lemma strip_idem (s : string) : strip (strip s) = strip s.
Proof.
  unfold strip.
  rewrite rstrip_lstrip_fixed by apply rstrip_by_idem.
  apply lstrip_by_idem.
Qed.

Lemma space_LF : isspace_char LF = true.
Proof. reflexivity. Qed.

Lemma rstrip_line_ok (s : string) :
  line_ok s = true -> one_line (rstrip_by isspace_char s) = true.
Proof.
  unfold line_ok, one_line.
  induction s as [|c r IH]; cbn [forall_chars lf_last rstrip_by];
    [reflexivity |].
  intros H. apply andb_prop in H as [Hcr Hlf].
  apply andb_prop in Hcr as [Hc Hr]. apply andb_prop in Hlf as [Hl Hlr].
  assert (IH' := IH (andb_true_intro (conj Hr Hlr))).
  assert (Hnl : forall x, isspace_char x = false \/ Ascii.eqb x LF = false ->
                          Ascii.eqb x CR = false ->
                          negb (is_linebreak x) = true).
  { intros x [Hx | Hx] Hx'; unfold is_linebreak; rewrite Hx'.
    - destruct (Ascii.eqb_spec x LF) as [-> | _]; [discriminate | reflexivity].
    - now rewrite Hx. }
  apply negb_true_iff in Hc.
  destruct (rstrip_by isspace_char r) as [| d r'] eqn:E.
  - destruct (isspace_char c) eqn:Hs; [reflexivity |].
    cbn [forall_chars]. rewrite Hnl; auto.
  - cbn [forall_chars] in IH' |- *. rewrite IH'.
    destruct r as [| e r0]; [discriminate E |].
    cbn [is_empty] in Hl. rewrite orb_false_r in Hl.
    apply negb_true_iff in Hl. rewrite Hnl; auto.
Qed.

Lemma strip_line_ok (s : string) :
  line_ok s = true -> one_line (strip s) = true.
Proof.
  intros H; unfold strip, one_line.
  apply lstrip_by_forall. now apply rstrip_line_ok.
Qed.

Lemma line_ok_suffix (a b : string) :
  line_ok (a ++ b) = true -> line_ok b = true.
Proof.
  unfold line_ok; induction a as [|c a IH]; cbn [append]; [trivial |].
  cbn [forall_chars lf_last]; intros H.
  apply andb_prop in H as [H1 H2].
  apply andb_prop in H1 as [_ H1]. apply andb_prop in H2 as [_ H2].
  apply IH. now rewrite H1, H2.
Qed.

Lemma cut_colon_app (s a b : string) :
  cut ":" s = Some (a, b) -> s = a ++ String ":" b.
Proof.
  revert a; induction s as [|c r IH]; intros a.
  - cbn; discriminate.
  - rewrite cut_cons, prefix_char.
    destruct (Ascii.eqb_spec ":" c) as [<- | _].
    + cbn [String.length drop]. now intros [= <- <-].
    + destruct (cut ":" r) as [[a' b'] |]; [| discriminate].
      intros [= <- <-]. cbn [append]. f_equal. now apply IH.
Qed.

Lemma universal_newlines_no_CR (s : string) :
  forall_chars (fun c => negb (Ascii.eqb c CR)) (universal_newlines s) = true.
Proof.
  assert (H : forall t,
             forall_chars (fun c => negb (Ascii.eqb c CR))
                          (universal_newlines t) = true
             /\ forall c,
                 forall_chars (fun c => negb (Ascii.eqb c CR))
                              (universal_newlines (String c t)) = true).
  { induction t as [|d t [IH1 IH2]].
    - split; [reflexivity |]. intros c; cbn [universal_newlines].
      fold CR. destruct (Ascii.eqb_spec c CR) as [-> | Hne]; [reflexivity |].
      cbn [forall_chars]. apply Ascii.eqb_neq in Hne. now rewrite Hne.
    - split; [apply IH2 |]. intros c.
      change (universal_newlines (String c (String d t)))
        with (if Ascii.eqb c CR
              then if Ascii.eqb d LF
                   then String d (universal_newlines t)
                   else String LF (universal_newlines (String d t))
              else String c (universal_newlines (String d t))).
      destruct (Ascii.eqb_spec c CR) as [-> | Hne].
      + destruct (Ascii.eqb_spec d LF) as [-> | _]; cbn [forall_chars];
          [rewrite IH1 | rewrite IH2]; reflexivity.
      + cbn [forall_chars]. apply Ascii.eqb_neq in Hne.
        now rewrite Hne, IH2. }
  apply H.
Qed.

Lemma file_lines_ok (s : string) :
  forall_chars (fun c => negb (Ascii.eqb c CR)) s = true ->
  Forall (fun l => line_ok l = true) (file_lines s).
Proof.
  induction s as [|c r IH]; [constructor |].
  cbn [forall_chars]; intros H; apply andb_prop in H as [Hc Hr].
  specialize (IH Hr).
  change (file_lines (String c r))
    with (if Ascii.eqb c LF then nl :: file_lines r
          else match file_lines r with
               | t :: ts => String c t :: ts
               | [] => [String c EmptyString]
               end).
  destruct (Ascii.eqb c LF) eqn:Hlf.
  - constructor; [reflexivity | exact IH].
  - destruct (file_lines r) as [| t ts].
    + constructor; [| constructor].
      unfold line_ok; cbn [forall_chars lf_last is_empty].
      now rewrite Hc, Hlf.
    + inversion IH as [| ? ? Ht Hts]; subst.
      constructor; [| exact Hts].
      unfold line_ok in *; cbn [forall_chars lf_last].
      apply andb_prop in Ht as [Ht1 Ht2]. now rewrite Hc, Hlf, Ht1, Ht2.
Qed.

Lemma set_in (k v k' v' : string) (d : dict) :
  In (k', v') (PyDict.set k v d) -> (k' = k /\ v' = v) \/ In (k', v') d.
Proof.
  induction d as [|[k0 v0] r IH]; cbn [PyDict.set].
  - intros [[= <- <-] | []]; now left.
  - destruct (String.eqb_spec k k0) as [-> | Hne].
    + intros [[= <- <-] | H]; [now left | right; now right].
    + intros [H | H]; [right; now left |].
      destruct (IH H) as [E | Hin]; [now left | right; now right].
Qed.

Lemma set_wf (k v : string) (d : dict) :
  PyDict.wf d -> PyDict.wf (PyDict.set k v d).
Proof.
  unfold PyDict.wf; induction d as [|[k0 v0] r IH]; cbn [PyDict.set map fst].
  - intros _; repeat constructor. intros [].
  - intros Hnd; inversion Hnd as [| ? ? Hnot Hnd']; subst.
    destruct (String.eqb_spec k k0) as [-> | Hne]; [exact Hnd |].
    cbn [map fst]; constructor; [| now apply IH].
    intros Hin. apply in_map_iff in Hin as [[k1 v1] [E Hin]].
    cbn [fst] in E; subst k1.
    destruct (set_in _ _ _ _ _ Hin) as [[E _] | Hin']; [congruence |].
    apply Hnot. now apply (in_map fst) in Hin'.
Qed.

Lemma load_line_loaded (d : dict) (line : string) :
  line_ok line = true -> loaded d -> loaded (load_line d line).
Proof.
  intros Hline Hd; unfold load_line.
  destruct (contains ":" line); [| exact Hd].
  unfold split1. destruct (cut ":" line) as [[num text] |] eqn:Hcut;
    [| exact Hd].
  destruct (isdigit (strip num)) eqn:Hnum; [| exact Hd].
  apply cut_colon_app in Hcut; subst line.
  apply line_ok_suffix in Hline.
  change (String ":" text) with (":" ++ text) in Hline.
  apply line_ok_suffix in Hline.
  destruct Hd as [Hwf Hall]. split; [now apply set_wf |].
  intros k v Hin. destruct (set_in _ _ _ _ _ Hin) as [[-> ->] | Hin'].
  - repeat split; [exact Hnum | apply strip_idem | now apply strip_line_ok].
  - now apply Hall.
Qed.

(** Every load produces such a store. *)
Lemma parse_file_loaded (text : string) : loaded (parse_file text).
Proof.
  unfold parse_file.
  assert (H : forall lines d,
             Forall (fun l => line_ok l = true) lines -> loaded d ->
             loaded (fold_left load_line lines d)).
  { induction lines as [| l ls IH]; intros d Hl Hd; [exact Hd |].
    inversion Hl as [| ? ? H1 H2]; subst. cbn [fold_left].
    apply IH; [exact H2 | now apply load_line_loaded]. }
  apply H.
  - apply file_lines_ok, universal_newlines_no_CR.
  - split; [constructor | intros k v []].
Qed.


End Loaded.

(* ================================================================== *)
(** * The methods that save and load *)

Section Persistence.

Lemma save_writes (st : UFWManager) (w : World) (p : path) (d : dict) :
  (forall e, file_at w p <> Denied e) ->
  _save_notes_or_services st w p d
  = (st, log (with_file w p (Content (serialize d))) (Wrote p (serialize d))).
Proof.
  intros H; unfold _save_notes_or_services.
  destruct (file_at w p) eqn:E; try reflexivity.
  now destruct (H err).
Qed.

Lemma load_accessible (st : UFWManager) (w : World) :
  accessible w ->
  _setup_and_load_files st w
  = (with_services (with_notes st (parse_file (text_of (notes_txt w))))
                   (parse_file (text_of (services_txt w))),
     mkWorld (shell w) (trace w) (created (notes_txt w))
             (created (services_txt w)) (set_pop w)).
Proof.
  intros [Hn Hs]; destruct w as [sh tr nf sf pop]; simpl in *.
  unfold _setup_and_load_files; simpl.
  destruct nf as [| tn | en]; [| | now destruct (Hn en)];
    destruct sf as [| ts | es]; try now destruct (Hs es).
  all: reflexivity.
Qed.


Lemma store_of_load (st : UFWManager) (w : World) (p : path) :
  accessible w ->
  store_of (fst (_setup_and_load_files st w)) p
  = parse_file (text_of (file_at w p)).
Proof.
  intros Ha; rewrite (load_accessible st w Ha); now destruct p.
Qed.


End Persistence.

Lemma load_gives_loaded (st : UFWManager) (w : World) (p : path) :
  accessible w -> loaded (store_of (fst (_setup_and_load_files st w)) p).
Proof.
  intros Ha; rewrite store_of_load by assumption. apply parse_file_loaded.
Qed.






(** On that world the load reads one entry, stripped, whatever was in
    memory. *)
Lemma load_example :
  notes (fst (_setup_and_load_files spaced_note world_with_notes_file))
  = [("2", "web server")]
  /\ services (fst (_setup_and_load_files spaced_note world_with_notes_file))
     = []
  /\ services_txt (snd (_setup_and_load_files spaced_note
                                              world_with_notes_file))
     = Content EmptyString.
Proof. repeat split. Qed.

(* ================================================================== *)
(** * The form *)

Section Form.

Lemma drop_last_length (s : string) :
  String.length (drop_last s) <= String.length s.
Proof.
  induction s as [|c s IH]; simpl; [lia |].
  destruct s; simpl in *; lia.
Qed.

Lemma get_set_text (fs : form_fields) (name name' : field_name) (s : string) :
  get_text (set_text fs name s) name'
  = match options_of name with
    | Some _ => get_text fs name'
    | None =>
        match name, name' with
        | FPort, FPort | FFromToIP, FFromToIP
        | FService, FService | FNote, FNote => s
        | _, _ => get_text fs name'
        end
    end.
Proof. destruct name, name'; reflexivity. Qed.

Lemma get_text_set_index (fs : form_fields) (name name' : field_name)
      (i : nat) :
  get_text (set_index fs name i) name' = get_text fs name'.
Proof. destruct name, name'; reflexivity. Qed.

(** A key never makes a text longer than its limit, unless it already
    was. *)
Lemma form_key_bound (fs : form_fields) (idx : nat) (key : Z)
      (name : field_name) :
  String.length (get_text (fst (form_key fs idx key)) name)
  <= Nat.max (max_len name) (String.length (get_text fs name)).
Proof.
  unfold form_key.
  destruct (key_in key [Curses.KEY_UP; Curses.KEY_BTAB]); [cbn [fst]; lia |].
  destruct (key_in key [Curses.KEY_DOWN; 9%Z]); [cbn [fst]; lia |].
  set (cur := nth idx field_order FAction).
  destruct (options_of cur) as [options |] eqn:Hopt.
  - destruct (key =? Curses.KEY_LEFT)%Z;
      [cbn [fst]; rewrite get_text_set_index; lia |].
    destruct (key =? Curses.KEY_RIGHT)%Z;
      [cbn [fst]; rewrite get_text_set_index; lia |].
    cbn [fst]; lia.
  - destruct (key_in key [Curses.KEY_BACKSPACE; 127%Z; 8%Z]).
    + simpl fst. rewrite get_set_text, Hopt.
      pose proof (drop_last_length (get_text fs cur)).
      destruct cur, name; cbn [get_text max_len options_of] in *;
        try discriminate; lia.
    + destruct ((32 <=? key)%Z && (key <=? 126)%Z); [| cbn [fst]; lia].
      destruct (Nat.leb_spec (max_len cur) (String.length (get_text fs cur)))
        as [Hle | Hlt]; [cbn [fst]; lia |].
      simpl fst. rewrite get_set_text, Hopt.
      destruct cur, name; cbn [get_text max_len options_of] in *;
        try discriminate; try lia;
        rewrite length_append; cbn [String.length]; lia.
Qed.

Lemma form_loop_bound (keys : list Z) (fs0 fs : form_fields) (idx : nat)
      (name : field_name) :
  form_loop fs0 idx keys = Entered fs ->
  String.length (get_text fs name)
  <= Nat.max (max_len name) (String.length (get_text fs0 name)).
Proof.
  revert fs0 idx; induction keys as [|key rest IH]; intros fs0 idx;
    cbn [form_loop]; [discriminate |].
  destruct (key_in key [Curses.KEY_ENTER; 10%Z; 13%Z]).
  - intros [= <-]; lia.
  - destruct (key =? 27)%Z; [discriminate |].
    pose proof (form_key_bound fs0 idx key name) as Hk.
    destruct (form_key fs0 idx key) as [fs1 i1]; cbn [fst] in Hk.
    intros H; apply IH in H; lia.
Qed.

(** Keys that follow the one that closed the form do not reach it. *)
Lemma form_loop_entered_app (keys rest : list Z) (fs0 fs : form_fields)
      (idx : nat) :
  form_loop fs0 idx keys = Entered fs ->
  form_loop fs0 idx (keys ++ rest) = Entered fs.
Proof.
  revert fs0 idx; induction keys as [|key ks IH]; intros fs0 idx;
    [discriminate |].
  rewrite <- app_comm_cons; cbn [form_loop].
  destruct (key_in key [Curses.KEY_ENTER; 10%Z; 13%Z]); [trivial |].
  destruct (key =? 27)%Z; [discriminate |].
  destruct (form_key fs0 idx key) as [fs1 i1]; apply IH.
Qed.

Lemma build_rule_rejects (st : UFWManager) (fs : form_fields) :
  isdigit (Port fs) = false ->
  build_rule st fs = (with_status st port_error, None).
Proof. intros H; unfold build_rule; now rewrite H. Qed.

Lemma build_rule_accepts (st : UFWManager) (fs : form_fields) :
  isdigit (Port fs) = true ->
  build_rule st fs
  = (st,
     Some (spec_command (nth (Action fs) actions EmptyString)
                        (nth (Direction fs) directions EmptyString)
                        (From_To_IP fs) (Port fs)
                        (nth (Protocol fs) protocols EmptyString),
           Service fs, Note fs)).
Proof.
  intros H; unfold build_rule, spec_command, from_clause, proto_clause.
  rewrite H.
  cbn [negb].
  destruct (String.eqb (lower (From_To_IP fs)) "any");
    destruct (String.eqb (lower (nth (Protocol fs) protocols "")) "any");
    cbn [negb]; repeat rewrite append_assoc; cbn [append];
    rewrite ?append_nil_r; reflexivity.
Qed.

Lemma prepopulate_protocol (st : UFWManager) (r : rule) (fs0 fs : form_fields) :
  prepopulate st r fs0 = inr fs -> Protocol fs = Protocol fs0.
Proof.
  unfold prepopulate.
  destruct (Re.search_digits (lower (snd r))) as [port |];
    destruct (Re.search_action actions "in" "out" None (lower (snd r)))
      as [action_str |];
    try destruct (split1 action_str (lower (snd r))) as [| a [| b [| c l]]];
    try destruct (split (strip b)) as [| from_ip l'];
    try destruct (negb (is_empty from_ip)
                  && negb (String.eqb (lower from_ip) "anywhere"));
    intros H; try discriminate; injection H as <-; reflexivity.
Qed.

End Form.

(* ================================================================== *)
(** * Indexing that cannot go out of range *)

Section InRange.

Lemma last_found_range (found : string -> bool) (options : list string)
      (i current n : nat) :
  current < n -> i + length options <= n ->
  last_found found options i current < n.
Proof.
  revert i current; induction options as [| o r IH]; intros i current Hc Hi;
    cbn [last_found]; [exact Hc |].
  cbn [length] in Hi. apply IH; [| lia].
  destruct (found o); lia.
Qed.

Lemma prepopulate_in_range (st : UFWManager) (r : rule) (fs : form_fields) :
  prepopulate st r default_fields = inr fs -> choices_in_range fs.
Proof.
  unfold prepopulate.
  set (a := last_found _ actions 0 _). set (d := last_found _ directions 0 _).
  assert (Ha : a < length actions) by (apply last_found_range; cbn; lia).
  assert (Hd : d < length directions) by (apply last_found_range; cbn; lia).
  clearbody a d.
  destruct (Re.search_digits (lower (snd r))) as [port |];
    destruct (Re.search_action actions "in" "out" None (lower (snd r)))
      as [action_str |];
    try destruct (split1 action_str (lower (snd r))) as [| x [| y [| z l]]];
    try destruct (split (strip y)) as [| from_ip l'];
    try destruct (negb (is_empty from_ip)
                  && negb (String.eqb (lower from_ip) "anywhere"));
    intros H; try discriminate; injection H as <-;
    unfold choices_in_range; cbn in *; lia.
Qed.

Lemma form_key_in_range (fs : form_fields) (idx : nat) (key : Z) :
  choices_in_range fs -> choices_in_range (fst (form_key fs idx key)).
Proof.
  intros (Ha & Hd & Hp); unfold form_key.
  destruct (key_in key [Curses.KEY_UP; Curses.KEY_BTAB]);
    [cbn [fst]; now repeat split |].
  destruct (key_in key [Curses.KEY_DOWN; 9%Z]);
    [cbn [fst]; now repeat split |].
  destruct (nth idx field_order FAction);
    cbn [options_of];
    repeat match goal with
           | |- context [if ?b then _ else _] => destruct b
           end;
    cbn [fst set_index set_text get_index];
    unfold choices_in_range;
    cbn [Action Direction Protocol length actions directions protocols];
    repeat split; trivial; apply Nat.mod_upper_bound; lia.
Qed.

Lemma form_loop_in_range (keys : list Z) (fs0 fs : form_fields) (idx : nat) :
  choices_in_range fs0 -> form_loop fs0 idx keys = Entered fs ->
  choices_in_range fs.
Proof.
  revert fs0 idx; induction keys as [| key rest IH]; intros fs0 idx H0;
    cbn [form_loop]; [discriminate |].
  destruct (key_in key [Curses.KEY_ENTER; 10%Z; 13%Z]);
    [now intros [= <-] |].
  destruct (key =? 27)%Z; [discriminate |].
  pose proof (form_key_in_range fs0 idx key H0) as H1.
  destruct (form_key fs0 idx key) as [fs1 i1]. now apply IH.
Qed.

(** The fields that a commit yields name an action, a direction and a
    protocol of the three lists: indexing them never falls outside. *)
Lemma committed_choices_valid (st : UFWManager) (r : option rule)
      (keys : list Z) (fs0 fs : form_fields) :
  seed_fields st r = inr fs0 -> form_loop fs0 0 keys = Entered fs ->
  In (nth (Action fs) actions EmptyString) actions
  /\ In (nth (Direction fs) directions EmptyString) directions
  /\ In (nth (Protocol fs) protocols EmptyString) protocols.
Proof.
  intros Hseed Hloop.
  assert (H0 : choices_in_range fs0).
  { destruct r as [r |]; cbn [seed_fields] in Hseed.
    - now apply (prepopulate_in_range st r).
    - injection Hseed as <-. unfold choices_in_range; cbn; lia. }
  destruct (form_loop_in_range keys fs0 fs 0 H0 Hloop) as (Ha & Hd & Hp).
  repeat split; now apply nth_In.
Qed.

Lemma contains_mem_colon (s : string) :
  contains "Status:" s = true -> mem_char ":" s = true.
Proof.
  induction s as [| c r IH]; [discriminate |].
  rewrite contains_cons. intros H; apply orb_prop in H as [H | H].
  - clear IH. apply String.prefix_correct in H.
    cbn [String.length] in H.
    assert (E : String.get 6 (String c r) = Some ":"%char).
    { pose proof (String.substring_correct1 (String c r) 0 7 6) as G.
      rewrite H in G. rewrite Nat.add_0_r in G. symmetry; apply G; lia. }
    clear H. revert E. generalize (String c r). intros t.
    assert (G : forall n u, String.get n u = Some ":"%char ->
                            mem_char ":" u = true).
    { induction n as [| n IHn]; intros [| x u]; cbn; try discriminate.
      - intros [= ->]. reflexivity.
      - intros H. rewrite (IHn u H). apply orb_true_r. }
    apply G.
  - cbn [mem_char]. rewrite (IH H). apply orb_true_r.
Qed.

Lemma split_char_nonempty (sep : ascii) (s : string) :
  split_char sep s <> [].
Proof.
  induction s as [| c r IH]; cbn [split_char]; [discriminate |].
  destruct (Ascii.eqb c sep); [discriminate |].
  now destruct (split_char sep r).
Qed.

Lemma split_char_two (s : string) :
  mem_char ":" s = true -> 2 <= length (split_char ":" s).
Proof.
  induction s as [| c r IH]; [discriminate |].
  cbn [mem_char split_char]. rewrite Ascii.eqb_sym.
  destruct (Ascii.eqb c ":") eqn:E; cbn [orb].
  - intros _. pose proof (split_char_nonempty ":" r).
    destruct (split_char ":" r); [contradiction | cbn; lia].
  - intros H. specialize (IH H).
    destruct (split_char ":" r); cbn in *; lia.
Qed.

(** The status line always has a second field: taking element 1 of its
    split never falls outside. *)
Lemma status_line_has_field (lines : list string) :
  2 <= length (split_char ":" (first_status_line lines "Status: inactive")).
Proof.
  apply split_char_two.
  induction lines as [| l ls IH]; cbn [first_status_line]; [reflexivity |].
  destruct (contains "Status:" l) eqn:E; [now apply contains_mem_colon | exact IH].
Qed.

End InRange.

(** C3: an accepted commit builds the action and the direction, then the
    address clause unless the address is the neutral one, then the port,
    then the protocol clause unless the protocol is the neutral one; the
    action, the direction and the protocol are options of their lists.  The
    two commands of the specification come out as written. *)
Theorem command_token_order
        (st : UFWManager) (r : option rule) (keys : list Z)
        (fs0 fs : form_fields) :
  seed_fields st r = inr fs0 ->
  form_loop fs0 0 keys = Entered fs ->
  isdigit (Port fs) = true ->
  _get_rule_input_from_form st r keys
  = Returns st
      (Some (spec_command (nth (Action fs) actions EmptyString)
                          (nth (Direction fs) directions EmptyString)
                          (From_To_IP fs) (Port fs)
                          (nth (Protocol fs) protocols EmptyString),
             Service fs, Note fs))
  /\ In (nth (Action fs) actions EmptyString) actions
  /\ In (nth (Direction fs) directions EmptyString) directions
  /\ In (nth (Protocol fs) protocols EmptyString) protocols
  /\ from_clause "any" = EmptyString
  /\ (lower (From_To_IP fs) <> "any" ->
      from_clause (From_To_IP fs) = " from " ++ From_To_IP fs)
  /\ proto_clause "any" = EmptyString
  /\ proto_clause "tcp" = " proto tcp"
  /\ proto_clause "udp" = " proto udp"
  /\ _get_rule_input_from_form st None keys_port_22
     = Returns st (Some ("allow in to any port 22 proto tcp",
                         EmptyString, EmptyString))
  /\ _get_rule_input_from_form st None keys_port_22_from_10_0_0_5
     = Returns st (Some ("allow in from 10.0.0.5 to any port 22 proto tcp",
                         EmptyString, EmptyString)).
Proof.
  intros Hseed Hloop Hport.
  destruct (committed_choices_valid st r keys fs0 fs Hseed Hloop)
    as (Ha & Hd & Hp).
  repeat split; try reflexivity; trivial.
  - unfold _get_rule_input_from_form. rewrite Hseed, Hloop.
    now rewrite build_rule_accepts.
  - intros Hne; unfold from_clause.
    now destruct (String.eqb_spec (lower (From_To_IP fs)) "any").
Qed.

Lemma command_token_order_witness :
  _get_rule_input_from_form fresh (Some rule_from_subnet)
                            [261; 258; 258; 261; 10]%Z
  = Returns fresh
      (Some ("deny in from 192.168.100.200/24 to any port 22 proto udp",
             EmptyString, EmptyString)).
Proof.
  exact (proj1 (command_token_order fresh (Some rule_from_subnet)
                  [261; 258; 258; 261; 10]%Z fields_from_subnet
                  (mkFields 1 0 1 "22" "192.168.100.200/24" "" "")
                  eq_refl eq_refl eq_refl)).
Defined.

(** C4: a commit whose port is not a non-empty run of digits is refused:
    the form returns nothing, and [_add_or_edit_rule] returns with the
    world as it was, so no command was run and no file written. *)
Theorem invalid_port_rejects_commit
        (st : UFWManager) (w : World) (is_edit : bool) (keys : list Z)
        (r : option rule) (fs0 fs : form_fields) :
  selected_rule st is_edit = Some r ->
  seed_fields st r = inr fs0 ->
  form_loop fs0 0 keys = Entered fs ->
  isdigit (Port fs) = false ->
  _get_rule_input_from_form st r keys
  = Returns (with_status st port_error) None
  /\ _add_or_edit_rule st w is_edit keys
     = Returns (with_status st port_error, w) tt
  /\ isdigit "abc" = false
  /\ isdigit EmptyString = false.
Proof.
  intros Hsel Hseed Hloop Hport.
  assert (Hform : _get_rule_input_from_form st r keys
                  = Returns (with_status st port_error) None).
  { unfold _get_rule_input_from_form.
    now rewrite Hseed, Hloop, build_rule_rejects. }
  repeat split; try reflexivity; [exact Hform |].
  unfold _add_or_edit_rule. now rewrite Hsel, Hform.
Qed.

Lemma invalid_port_rejects_commit_witness :
  _add_or_edit_rule fresh empty_world false keys_port_abc
  = Returns (with_status fresh port_error, empty_world) tt.
Proof.
  exact (proj1 (proj2 (invalid_port_rejects_commit
                         fresh empty_world false keys_port_abc None
                         default_fields fields_port_abc
                         eq_refl eq_refl eq_refl eq_refl))).
Defined.

(** C5, as amended: a commit that fails the port check closes the form;
    the method returns no result and sets the status message, the fields
    are gone with it and the keys that follow are not read by the form. *)
Theorem invalid_port_closes_form
        (st : UFWManager) (r : option rule) (keys rest : list Z)
        (fs0 fs : form_fields) :
  seed_fields st r = inr fs0 ->
  form_loop fs0 0 keys = Entered fs ->
  isdigit (Port fs) = false ->
  _get_rule_input_from_form st r (keys ++ rest)
  = Returns (with_status st port_error) None.
Proof.
  intros Hseed Hloop Hport; unfold _get_rule_input_from_form.
  rewrite Hseed, (form_loop_entered_app _ rest _ _ _ Hloop).
  now rewrite build_rule_rejects.
Qed.

Lemma invalid_port_closes_form_witness :
  _get_rule_input_from_form fresh None (keys_port_abc ++ [263; 50]%Z)
  = Returns (with_status fresh port_error) None.
Proof.
  exact (invalid_port_closes_form fresh None keys_port_abc [263; 50]%Z
           default_fields fields_port_abc eq_refl eq_refl eq_refl).
Defined.

(** C5, as stated, fails: after Enter on the port abc the form is not
    waiting for a key, it has returned. *)
Lemma invalid_port_form_not_open :
  form_loop default_fields 0 keys_port_abc = Entered fields_port_abc
  /\ Port fields_port_abc = "abc"
  /\ _get_rule_input_from_form fresh None keys_port_abc
     = Returns (with_status fresh port_error) None
  /\ _get_rule_input_from_form fresh None keys_port_abc <> AwaitsKey.
Proof. repeat split; discriminate. Qed.

(** C6, as amended: the form of an edit opens with the protocol on its
    first option, tcp, whatever the description says. *)
Theorem protocol_seeded_first_option
        (st : UFWManager) (r : rule) (fs : form_fields) :
  seed_fields st (Some r) = inr fs ->
  Protocol fs = 0 /\ nth (Protocol fs) protocols EmptyString = "tcp".
Proof.
  unfold seed_fields; intros H.
  apply prepopulate_protocol in H; rewrite H. now split.
Qed.

Lemma protocol_seeded_first_option_witness :
  Protocol fields_udp = 0
  /\ nth (Protocol fields_udp) protocols EmptyString = "tcp".
Proof.
  exact (protocol_seeded_first_option fresh rule_udp fields_udp eq_refl).
Defined.

(** C6, as stated, fails: a rule for a UDP port seeds the protocol tcp,
    not any. *)
Lemma protocol_not_seeded_any :
  seed_fields fresh (Some rule_udp) = inr fields_udp
  /\ nth (Protocol fields_udp) protocols EmptyString = "tcp"
  /\ nth (Protocol fields_udp) protocols EmptyString <> "any".
Proof. repeat split; discriminate. Qed.

(** C9, as amended: typing never makes a text longer than its limit, so a
    committed text is at most the longer of the limit and what the form
    opened with; from the defaults of an add all four limits hold; and an
    accepted commit has a port made of digits. *)
Theorem text_fields_bounded
        (st : UFWManager) (fs0 fs : form_fields) (idx : nat) (keys : list Z) :
  (form_loop fs0 idx keys = Entered fs ->
   forall name,
     String.length (get_text fs name)
     <= Nat.max (max_len name) (String.length (get_text fs0 name)))
  /\ (form_loop default_fields idx keys = Entered fs ->
      String.length (Port fs) <= 5
      /\ String.length (From_To_IP fs) <= 15
      /\ String.length (Service fs) <= 18
      /\ String.length (Note fs) <= 43)
  /\ (forall result, snd (build_rule st fs) = Some result ->
      isdigit (Port fs) = true).
Proof.
  split; [| split].
  - intros H name; now apply (form_loop_bound keys fs0 fs idx).
  - intros H.
    pose proof (form_loop_bound keys _ _ idx FPort H).
    pose proof (form_loop_bound keys _ _ idx FFromToIP H).
    pose proof (form_loop_bound keys _ _ idx FService H).
    pose proof (form_loop_bound keys _ _ idx FNote H).
    cbn [get_text max_len default_fields Port From_To_IP Service Note
         String.length] in *.
    lia.
  - intros result; unfold build_rule.
    destruct (isdigit (Port fs)); [trivial | discriminate].
Qed.

Lemma text_fields_bounded_witness :
  (forall name,
      String.length (get_text fields_from_subnet name)
      <= Nat.max (max_len name)
                 (String.length (get_text fields_from_subnet name)))
  /\ (String.length (Port (mkFields 0 0 0 "22" "10.0.0.5" "" "")) <= 5
      /\ String.length (From_To_IP (mkFields 0 0 0 "22" "10.0.0.5" "" ""))
         <= 15
      /\ String.length (Service (mkFields 0 0 0 "22" "10.0.0.5" "" "")) <= 18
      /\ String.length (Note (mkFields 0 0 0 "22" "10.0.0.5" "" "")) <= 43)
  /\ isdigit (Port fields_from_subnet) = true.
Proof.
  split; [| split].
  - exact (proj1 (text_fields_bounded fresh fields_from_subnet
                    fields_from_subnet 0 [10%Z]) eq_refl).
  - exact (proj1 (proj2 (text_fields_bounded fresh default_fields
                           (mkFields 0 0 0 "22" "10.0.0.5" "" "") 0
                           keys_port_22_from_10_0_0_5)) eq_refl).
  - exact (proj2 (proj2 (text_fields_bounded fresh default_fields
                           fields_from_subnet 0 []))
                 ("allow in from 192.168.100.200/24 to any port 22 proto tcp",
                  EmptyString, EmptyString) eq_refl).
Defined.

(** C9, as stated, fails: the edit of a rule from a subnet opens with an
    address of eighteen characters, and Enter commits it. *)
Lemma prepopulated_address_exceeds_limit :
  seed_fields fresh (Some rule_from_subnet) = inr fields_from_subnet
  /\ form_loop fields_from_subnet 0 [10%Z] = Entered fields_from_subnet
  /\ String.length (From_To_IP fields_from_subnet) = 18
  /\ _get_rule_input_from_form fresh (Some rule_from_subnet) [10%Z]
     = Returns fresh
         (Some ("allow in from 192.168.100.200/24 to any port 22 proto tcp",
                EmptyString, EmptyString)).
Proof. repeat split. Qed.

(* ================================================================== *)
(** * The operations *)

Section Operations.

Lemma rule_eqb_refl (x : rule) : rule_eqb x x = true.
Proof. unfold rule_eqb; now rewrite !String.eqb_refl. Qed.

Lemma rule_in_true (x : rule) (s : list rule) : In x s -> rule_in x s = true.
Proof.
  intros H; unfold rule_in; apply existsb_exists.
  exists x; split; [exact H | apply rule_eqb_refl].
Qed.

Lemma set_minus_self (s : list rule) : set_minus s s = [].
Proof.
  unfold set_minus.
  assert (H : forall l, (forall x, In x l -> In x s) ->
                        filter (fun x => negb (rule_in x s)) l = []).
  { induction l as [|x l IH]; intros Hsub; simpl; [reflexivity |].
    rewrite (rule_in_true x s) by (apply Hsub; now left); simpl.
    apply IH; intros y Hy; apply Hsub; now right. }
  now apply H.
Qed.

(** Fetching the rules touches neither the stores nor the files; it runs
    one command, and it leaves the status message alone when it lists a
    rule. *)
Lemma get_firewall_rules_frame (st : UFWManager) (w : World) :
  notes (fst (_get_firewall_rules st w)) = notes st
  /\ services (fst (_get_firewall_rules st w)) = services st
  /\ notes_txt (snd (_get_firewall_rules st w)) = notes_txt w
  /\ services_txt (snd (_get_firewall_rules st w)) = services_txt w
  /\ trace (snd (_get_firewall_rules st w))
     = (trace w ++ [Ran "sudo ufw status numbered"])%list
  /\ (rules (fst (_get_firewall_rules st w)) <> [] ->
      status_message (fst (_get_firewall_rules st w)) = status_message st).
Proof.
  unfold _get_firewall_rules, _run_command; cbn [is_empty].
  destruct (shell w (trace w) "sudo ufw status numbered") as [out | err].
  - destruct (collect_rules (split_char (ascii_of_nat 10) (strip out)));
      cbn; repeat split; congruence.
  - cbn; repeat split; congruence.
Qed.

End Operations.



(** C7, as amended: the rule an add produced is looked for in the set
    difference of the listings after and before.  On the example the
    difference is the third rule alone, and a listing minus itself is
    empty.  When the difference is empty the add attaches nothing: stores
    and files stay and no file is written; the method sets the success
    message and ends with a refresh of the listing, and the success
    message is the one left whenever that refresh lists a rule. *)
Theorem empty_diff_attaches_nothing
        (st : UFWManager) (w : World) (keys : list Z)
        (cmd svc note out : string) :
  set_minus (rule_set after_ABC) (rule_set before_AB) = [("[ 3]", "C")]
  /\ (forall rs, set_minus (rule_set rs) (rule_set rs) = [])
  /\ (_get_rule_input_from_form st None keys
      = Returns st (Some (cmd, svc, note)) ->
      shell w (trace w) ("sudo ufw " ++ cmd) = Completed out ->
      let fetched :=
        _get_firewall_rules st (log w (Ran ("sudo ufw " ++ cmd))) in
      set_minus (rule_set (rules (fst fetched))) (rule_set (rules st)) = [] ->
      let final :=
        _get_firewall_rules (with_status (fst fetched) applied_message)
                            (snd fetched) in
      _add_or_edit_rule st w false keys = Returns final tt
      /\ notes (fst final) = notes st
      /\ services (fst final) = services st
      /\ notes_txt (snd final) = notes_txt w
      /\ services_txt (snd final) = services_txt w
      /\ trace (snd final)
         = (trace w ++ [Ran ("sudo ufw " ++ cmd);
                        Ran "sudo ufw status numbered";
                        Ran "sudo ufw status numbered"])%list
      /\ (rules (fst final) <> [] ->
          status_message (fst final) = applied_message)).
Proof.
  split; [reflexivity |].
  split; [intros rs; apply set_minus_self |].
  intros Hform Hrun fetched Hdiff final.
  destruct (get_firewall_rules_frame
              st (log w (Ran ("sudo ufw " ++ cmd))))
    as (Hn & Hs & Hnf & Hsf & Htr & _).
  destruct (get_firewall_rules_frame
              (with_status (fst fetched) applied_message) (snd fetched))
    as (Hn' & Hs' & Hnf' & Hsf' & Htr' & Hmsg).
  change (_get_firewall_rules st (log w (Ran ("sudo ufw " ++ cmd))))
    with fetched in Hn, Hs, Hnf, Hsf, Htr.
  change (_get_firewall_rules (with_status (fst fetched) applied_message)
                              (snd fetched))
    with final in Hn', Hs', Hnf', Hsf', Htr', Hmsg.
  split.
  - unfold _add_or_edit_rule; cbn [selected_rule].
    rewrite Hform. unfold apply_rule, _run_command. rewrite Hrun.
    change (_get_firewall_rules st (log w (Ran ("sudo ufw " ++ cmd))))
      with fetched.
    unfold final. destruct fetched as [st1 w1].
    cbn [fst snd] in Hdiff |- *. rewrite Hdiff.
    clear; unfold applied_message.
    now destruct (_get_firewall_rules
                    (with_status st1 "Rule applied successfully.") w1).
  - cbn [notes services with_status] in Hn', Hs'.
    rewrite Hn', Hs', Hnf', Hsf', Htr', Hn, Hs, Hnf, Hsf, Htr.
    cbn [trace log notes_txt services_txt].
    rewrite <- !app_assoc. repeat split; trivial.
Qed.

Lemma empty_diff_attaches_nothing_witness :
  status_message
    (fst (_get_firewall_rules
            (with_status
               (fst (_get_firewall_rules listed_two
                       (log world_three_rules
                          (Ran "sudo ufw allow in to any port 80 proto tcp"))))
               applied_message)
            (snd (_get_firewall_rules listed_two
                    (log world_three_rules
                       (Ran "sudo ufw allow in to any port 80 proto tcp"))))))
  = applied_message.
Proof.
  refine (proj2 (proj2 (proj2 (proj2 (proj2 (proj2
            (proj2 (proj2 (empty_diff_attaches_nothing
               listed_two world_three_rules keys_port_80_note
               "allow in to any port 80 proto tcp" EmptyString "w"
               "Rule deleted")) eq_refl eq_refl eq_refl)))))) _).
  discriminate.
Defined.

(** C7, as stated, fails on its last part: while the tool lists no rule,
    before and after an add that it accepted, the note typed in the form is
    attached nowhere and the message left is the notice of the empty
    listing, not the success message. *)
Lemma empty_listing_replaces_success_message :
  rule_set (rules fresh) = []
  /\ _get_rule_input_from_form fresh None keys_port_22_note
     = Returns fresh (Some ("allow in to any port 22 proto tcp",
                            EmptyString, "w"))
  /\ rules_notes_message
       (_add_or_edit_rule fresh empty_world false keys_port_22_note)
     = Some ([], [], no_rules_message)
  /\ no_rules_message <> applied_message.
Proof. repeat split; discriminate. Qed.

(** A store as in [spaced_note] arises from the form: an add whose note is
    typed as a space and an x leaves that note in memory and in the file,
    and the next load reads it back without the space. *)
Lemma typed_note_keeps_space :
  stores_and_files
    (_add_or_edit_rule fresh world_one_rule false keys_port_22_note_space_x)
  = Some ([("1", " x")], [], Content ("1: x" ++ nl), Content EmptyString)
  /\ parse_file ("1: x" ++ nl) = [("1", "x")].
Proof. split; reflexivity. Qed.

(* ================================================================== *)
(** * Reindexing after a deletion *)

Section Reindex.

Variable deleted_num : Z.

(** The loop builds the dictionary of the moved items, in order. *)
Lemma reindex_items_fold (items : list (string * string)) (acc R : dict) :
  reindex_items deleted_num items acc = Some R ->
  R = fold_left (fun a kv => PyDict.set (fst kv) (snd kv) a)
                (moved_items deleted_num items) acc.
Proof.
  revert acc; induction items as [|[k v] r IH]; intros acc;
    cbn [reindex_items moved_items].
  - now intros [= <-].
  - unfold moved_item; cbn [fst snd].
    destruct (int k) as [num |]; [| discriminate].
    destruct (num =? deleted_num)%Z; [apply IH |].
    destruct (num >? deleted_num)%Z; intros H; apply IH in H; exact H.
Qed.


Lemma in_moved_items (items : list (string * string)) (m : string * string) :
  In m (moved_items deleted_num items) <->
  exists item, In item items /\ moved_item deleted_num item = Some m.
Proof.
  induction items as [|x r IH]; cbn [moved_items].
  - split; [intros [] | intros [item [[] _]]].
  - destruct (moved_item deleted_num x) as [mx |] eqn:E.
    + split.
      * intros [<- | H]; [exists x; split; [now left | exact E] |].
        apply IH in H as [item [Hin Hm]]. exists item; split; [now right | exact Hm].
      * intros [item [[<- | Hin] Hm]].
        -- left; congruence.
        -- right; apply IH; now exists item.
    + rewrite IH; split; intros [item [Hin Hm]].
      * exists item; split; [now right | exact Hm].
      * destruct Hin as [<- | Hin]; [congruence | now exists item].
Qed.

(** With one entry per index, two items that are moved to the same key
    are the same key. *)
Lemma moved_key_inj (d : dict) (a b ma mb : string * string) :
  one_entry_per_index d -> In a d -> In b d ->
  moved_item deleted_num a = Some ma ->
  moved_item deleted_num b = Some mb ->
  fst ma = fst mb -> fst a = fst b.
Proof.
  intros Hone Ha Hb; destruct a as [ka va], b as [kb vb].
  unfold moved_item; cbn [fst snd].
  destruct (int ka) as [na |] eqn:Ea; [| discriminate].
  destruct (int kb) as [nb |] eqn:Eb; [| discriminate].
  destruct (Z.eqb_spec na deleted_num); [discriminate |].
  destruct (Z.eqb_spec nb deleted_num); [discriminate |].
  destruct (Z.gtb_spec na deleted_num) as [Ga | Ga];
    destruct (Z.gtb_spec nb deleted_num) as [Gb | Gb];
    intros [= <-] [= <-]; cbn [fst]; intros Hk.
  - apply str_inj in Hk.
    apply (Hone ka va kb vb na Ha Hb Ea). rewrite Eb; f_equal; lia.
  - subst kb. rewrite int_str in Eb. injection Eb as <-. lia.
  - subst ka. rewrite int_str in Ea. injection Ea as <-. lia.
  - exact Hk.
Qed.

Lemma moved_items_wf (d : dict) :
  PyDict.wf d -> one_entry_per_index d ->
  PyDict.wf (moved_items deleted_num d).
Proof.
  unfold PyDict.wf; intros Hwf Hone.
  assert (H : forall l, (forall x, In x l -> In x d) -> NoDup (map fst l) ->
                        NoDup (map fst (moved_items deleted_num l))).
  { induction l as [|x r IH]; intros Hsub Hnd; cbn [moved_items];
      [constructor |].
    inversion Hnd as [|? ? Hnot Hnd']; subst.
    assert (Hr : forall y, In y r -> In y d)
      by (intros y Hy; apply Hsub; now right).
    destruct (moved_item deleted_num x) as [mx |] eqn:E; [| now apply IH].
    cbn [map]; constructor; [| now apply IH].
    intros Hin; apply Hnot.
    apply in_map_iff in Hin as [my [Hk Hmy]].
    apply in_moved_items in Hmy as [y [Hy Hm]].
    apply in_map_iff; exists y; split; [| exact Hy].
    symmetry; eapply moved_key_inj; eauto.
    apply Hsub; now left. }
  now apply H.
Qed.

(** The store after reindexing holds exactly the moved items. *)
Lemma reindex_get (d R : dict) (k : string) :
  PyDict.wf d -> one_entry_per_index d ->
  reindex deleted_num d = Some R ->
  PyDict.get k R = PyDict.get k (moved_items deleted_num d).
Proof.
  intros Hwf Hone HR; unfold reindex in HR.
  apply reindex_items_fold in HR; subst R.
  rewrite get_fold_set by now apply moved_items_wf.
  now destruct (PyDict.get k (moved_items deleted_num d)).
Qed.

(** The reindexing as the specification words it: an entry below the
    deleted index stays, an entry above it moves one down with its text,
    and nothing else is in the result, so the entry at the deleted index
    is gone. *)
Lemma reindex_spec (d R : dict) :
  PyDict.wf d -> one_entry_per_index d ->
  reindex deleted_num d = Some R ->
  (forall k v n, In (k, v) d -> int k = Some n -> (n < deleted_num)%Z ->
                 PyDict.get k R = Some v)
  /\ (forall k v n, In (k, v) d -> int k = Some n -> (deleted_num < n)%Z ->
                    PyDict.get (str (n - 1)) R = Some v)
  /\ (forall k' v, PyDict.get k' R = Some v ->
                   exists k n,
                     In (k, v) d /\ int k = Some n /\
                     (((n < deleted_num)%Z /\ k' = k)
                      \/ ((deleted_num < n)%Z /\ k' = str (n - 1)))).
Proof.
  intros Hwf Hone HR.
  pose proof (moved_items_wf d Hwf Hone) as Hmwf.
  split; [| split].
  - intros k v n Hin Hk Hlt. rewrite (reindex_get d R k Hwf Hone HR).
    apply in_get_some; [exact Hmwf |].
    apply in_moved_items; exists (k, v); split; [exact Hin |].
    unfold moved_item; cbn [fst snd]; rewrite Hk.
    destruct (Z.eqb_spec n deleted_num); [lia |].
    destruct (Z.gtb_spec n deleted_num); [lia | reflexivity].
  - intros k v n Hin Hk Hgt.
    rewrite (reindex_get d R _ Hwf Hone HR).
    apply in_get_some; [exact Hmwf |].
    apply in_moved_items; exists (k, v); split; [exact Hin |].
    unfold moved_item; cbn [fst snd]; rewrite Hk.
    destruct (Z.eqb_spec n deleted_num); [lia |].
    destruct (Z.gtb_spec n deleted_num); [reflexivity | lia].
  - intros k' v Hget. rewrite (reindex_get d R k' Hwf Hone HR) in Hget.
    apply get_some_in, in_moved_items in Hget as [[k v0] [Hin Hm]].
    unfold moved_item in Hm; cbn [fst snd] in Hm.
    destruct (int k) as [n |] eqn:Hk; [| discriminate].
    exists k, n.
    destruct (Z.eqb_spec n deleted_num); [discriminate |].
    destruct (Z.gtb_spec n deleted_num); injection Hm as <- <-;
      (split; [exact Hin | split; [exact Hk |]]);
      [right | left]; split; trivial; lia.
Qed.

End Reindex.

(* ================================================================== *)
(** * Deleting a rule *)

Section Delete.

Lemma dict_eqb_refl (d : dict) : PyDict.wf d -> PyDict.eqb d d = true.
Proof.
  intros Hwf; unfold PyDict.eqb. rewrite Nat.eqb_refl; cbn [andb].
  apply forallb_forall; intros [k v] Hin; cbn [fst snd].
  rewrite (in_get_some k v d Hwf Hin). apply String.eqb_refl.
Qed.

(** The files of a confirmed deletion hold both reindexed stores; the
    attributes hold them too unless the old services compare equal to the
    reindexed notes, in which case [notes] is rebound a second time and
    [services] keeps its old value. *)
Lemma delete_outcome (st : UFWManager) (w : World) (answer : option string)
      (deleted_num : Z) (out : string) (n' s' : dict) :
  let rule_num_str :=
    strip_chars "[] "
      (fst (nth (selected_index st) (rules st) (EmptyString, EmptyString))) in
  selected_index st < length (rules st) ->
  isdigit rule_num_str = true ->
  _confirm_action answer = true ->
  shell w (trace w) ("echo 'y' | sudo ufw delete " ++ rule_num_str)
  = Completed out ->
  int rule_num_str = Some deleted_num ->
  reindex deleted_num (notes st) = Some n' ->
  reindex deleted_num (services st) = Some s' ->
  PyDict.wf (notes st) ->
  accessible w ->
  exists st' w',
    _delete_firewall_rule st w answer = Returns (st', w') tt
    /\ notes_txt w' = Content (serialize n')
    /\ services_txt w' = Content (serialize s')
    /\ (if PyDict.eqb (services st) n'
        then notes st' = s' /\ services st' = services st
        else notes st' = n' /\ services st' = s').
Proof.
  intros rule_num_str Hsel Hdigit Hyes Hrun Hint Hn Hs Hwf [Han Has].
  subst rule_num_str. unfold _delete_firewall_rule.
  destruct (Nat.leb_spec (length (rules st)) (selected_index st)); [lia |].
  destruct (rules st) as [| r0 rs] eqn:Hrules; [cbn in Hsel; lia |].
  rewrite Hdigit, Hyes; cbn [negb].
  unfold _run_command; cbn [is_empty append] in Hrun |- *.
  rewrite Hrun, Hint.
  unfold reindex_round at 1; cbn [notes with_status]. rewrite Hn.
  rewrite (dict_eqb_refl _ Hwf).
  rewrite save_writes by (cbn; exact Han).
  unfold reindex_round; cbn [services with_status with_notes]. rewrite Hs.
  cbn [notes services with_notes with_services with_status].
  destruct (PyDict.eqb (services st) n').
  - rewrite save_writes by (cbn; exact Has).
    match goal with
    | |- context [_get_firewall_rules ?a ?b] =>
        destruct (get_firewall_rules_frame a b) as (E1 & E2 & E3 & E4 & _);
        destruct (_get_firewall_rules a b) as [st' w']
    end.
    exists st', w'. cbn in E1, E2, E3, E4. auto.
  - rewrite save_writes by (cbn; exact Has).
    match goal with
    | |- context [_get_firewall_rules ?a ?b] =>
        destruct (get_firewall_rules_frame a b) as (E1 & E2 & E3 & E4 & _);
        destruct (_get_firewall_rules a b) as [st' w']
    end.
    exists st', w'. cbn in E1, E2, E3, E4. auto.
Qed.

(** The example of the specification: deleting rule 1 moves the service
    and the note of rule 2 to index 1, in memory and in the files. *)
Lemma delete_example :
  stores_and_files
    (_delete_firewall_rule annotated_second world_three_rules (Some "y"))
  = Some ([("1", "note")], [("1", "web")],
          Content ("1:note" ++ nl), Content ("1:web" ++ nl)).
Proof. reflexivity. Qed.

End Delete.

(** C1, where the code departs from it: rule 2 carries the note web and
    rule 1 the service web.  Deleting rule 1 must leave the note at index 1
    and no service.  The files say so, but in memory the notes are empty
    and the service of the deleted rule is still there: the old services
    compare equal to the reindexed notes, so the second round rebinds
    [notes] instead of [services]. *)
Theorem delete_rebinds_notes_for_services :
  reindex 1 (notes same_text_twice) = Some [("1", "web")]
  /\ reindex 1 (services same_text_twice) = Some []
  /\ stores_and_files
       (_delete_firewall_rule same_text_twice world_three_rules (Some "y"))
     = Some ([], [("1", "web")], Content ("1:web" ++ nl), Content EmptyString).
Proof. repeat split. Qed.

(* ================================================================== *)
(** * Saving and loading: order, normal form, refusals *)

Section Order.

Variable key : string * string -> Z.




End Order.
















Lemma load_frame (st : UFWManager) (w : World) :
  trace (snd (_setup_and_load_files st w)) = trace w
  /\ rules (fst (_setup_and_load_files st w)) = rules st
  /\ ufw_status (fst (_setup_and_load_files st w)) = ufw_status st
  /\ selected_index (fst (_setup_and_load_files st w)) = selected_index st
  /\ scroll_pos (fst (_setup_and_load_files st w)) = scroll_pos st.
Proof.
  unfold _setup_and_load_files. cbn [fold_left load_one file_at].
  destruct w as [sh tr nf sf pop]. cbn [notes_txt services_txt].
  destruct nf as [|nt|ne]; destruct sf as [|stx|se]; cbn; repeat split.
Qed.

Lemma load_file_texts (st : UFWManager) (w : World) (p : path) :
  text_of (file_at (snd (_setup_and_load_files st w)) p)
  = text_of (file_at w p)
  /\ (forall e, file_at (snd (_setup_and_load_files st w)) p = Denied e
                <-> file_at w p = Denied e).
Proof.
  unfold _setup_and_load_files. cbn [fold_left load_one file_at].
  destruct w as [sh tr nf sf pop]. cbn [notes_txt services_txt].
  destruct nf as [|nt|ne]; destruct sf as [|stx|se]; destruct p; cbn;
    (split; [reflexivity|]); intros e; split; intros H;
    try discriminate H; exact H.
Qed.

(** X4.  A load runs no command and writes nothing: it changes neither
    the log nor the text of an annotation file (a missing file is created
    empty, a file that refuses access stays as it is), and it leaves the
    rule list, the firewall status, the selection and the scroll position
    alone. *)
Theorem load_changes_only_stores (st : UFWManager) (w : World) :
  trace (snd (_setup_and_load_files st w)) = trace w
  /\ (forall p, text_of (file_at (snd (_setup_and_load_files st w)) p)
                = text_of (file_at w p))
  /\ (forall p e, file_at (snd (_setup_and_load_files st w)) p = Denied e
                  <-> file_at w p = Denied e)
  /\ rules (fst (_setup_and_load_files st w)) = rules st
  /\ ufw_status (fst (_setup_and_load_files st w)) = ufw_status st
  /\ selected_index (fst (_setup_and_load_files st w)) = selected_index st
  /\ scroll_pos (fst (_setup_and_load_files st w)) = scroll_pos st.
Proof.
  destruct (load_frame st w) as (Ht & Hr & Hu & Hs & Hp).
  split; [exact Ht|].
  split; [intros p; apply load_file_texts|].
  split; [intros p e; apply load_file_texts|].
  repeat split; assumption.
Qed.

(** X5.  A notes file that refuses access ends the load at once: the
    notes are emptied, the services store keeps what it held and its file
    is neither read nor created.  A services file that refuses access
    leaves the notes loaded and the services empty.  Both report the
    error in the status message. *)
Theorem refused_file_ends_load (st : UFWManager) (w : World) (e : string) :
  (notes_txt w = Denied e ->
   _setup_and_load_files st w
   = (with_status (with_notes st []) (config_error e), w))
  /\ ((forall e', notes_txt w <> Denied e') ->
      services_txt w = Denied e ->
      fst (_setup_and_load_files st w)
      = with_status
          (with_services
             (with_notes st (parse_file (text_of (notes_txt w)))) [])
          (config_error e)).
Proof.
  unfold _setup_and_load_files. cbn [fold_left load_one file_at].
  destruct w as [sh tr nf sf pop]. cbn [notes_txt services_txt].
  split.
  - intros ->. reflexivity.
  - intros Hn ->. destruct nf as [|nt|ne]; cbn; try reflexivity.
    exfalso. now apply (Hn ne).
Qed.

Lemma refused_file_ends_load_witness :
  _setup_and_load_files spaced_note world_notes_refused
  = (with_status (with_notes spaced_note [])
                 (config_error "[Errno 13] Permission denied"),
     world_notes_refused)
  /\ fst (_setup_and_load_files spaced_note world_services_refused)
     = with_status
         (with_services
            (with_notes spaced_note
               (parse_file (text_of (notes_txt world_services_refused))))
            [])
         (config_error "[Errno 13] Permission denied").
Proof.
  split.
  - apply (proj1 (refused_file_ends_load spaced_note world_notes_refused
                    "[Errno 13] Permission denied")).
    reflexivity.
  - apply (proj2 (refused_file_ends_load spaced_note world_services_refused
                    "[Errno 13] Permission denied")).
    + intros e' H. cbn in H. discriminate H.
    + reflexivity.
Defined.

(** X6.  A new object lists no rule, selects position 0, reports the
    firewall as inactive and has run no command.  With accessible files it
    shows the welcome message and holds the two stores that the files
    load as, each with distinct numeric keys and stripped texts; when the
    notes file refuses access both stores are empty and the message
    reports the error. *)
Theorem new_object_state (w : World) :
  rules (fst (__init__ w)) = []
  /\ selected_index (fst (__init__ w)) = 0
  /\ scroll_pos (fst (__init__ w)) = 0
  /\ ufw_status (fst (__init__ w)) = "inactive"
  /\ trace (snd (__init__ w)) = trace w
  /\ (accessible w ->
      status_message (fst (__init__ w)) = welcome
      /\ notes (fst (__init__ w)) = parse_file (text_of (notes_txt w))
      /\ services (fst (__init__ w)) = parse_file (text_of (services_txt w))
      /\ loaded (notes (fst (__init__ w)))
      /\ loaded (services (fst (__init__ w))))
  /\ (forall e, notes_txt w = Denied e ->
                notes (fst (__init__ w)) = []
                /\ services (fst (__init__ w)) = []
                /\ status_message (fst (__init__ w)) = config_error e).
Proof.
  unfold __init__.
  destruct (load_frame initial w) as (Ht & Hr & Hu & Hs & Hp).
  repeat (split; [assumption|]).
  split.
  - intros Hacc. rewrite (load_accessible initial w Hacc).
    cbn [fst status_message notes services with_notes with_services initial].
    split; [reflexivity|]. split; [reflexivity|]. split; [reflexivity|].
    split; apply parse_file_loaded.
  - intros e He.
    unfold _setup_and_load_files. cbn [fold_left load_one file_at].
    rewrite He. cbn. repeat split.
Qed.

Lemma new_object_state_witness :
  status_message (fst (__init__ world_with_notes_file)) = welcome
  /\ notes (fst (__init__ world_with_notes_file)) = [("2", "web server")]
  /\ services (fst (__init__ world_with_notes_file)) = []
  /\ notes (fst (__init__ world_notes_refused)) = []
  /\ status_message (fst (__init__ world_notes_refused))
     = config_error "[Errno 13] Permission denied".
Proof.
  destruct (new_object_state world_with_notes_file)
    as (_ & _ & _ & _ & _ & Hacc & _).
  destruct (new_object_state world_notes_refused)
    as (_ & _ & _ & _ & _ & _ & Hden).
  destruct Hacc as (Hm & Hn & Hs & _).
  { split; intros e H; cbn in H; discriminate H. }
  destruct (Hden _ eq_refl) as (Hn' & _ & Hm').
  repeat split; assumption.
Defined.

(* ================================================================== *)
(** * Reading the listing of the tool *)

Section Listing.

Lemma rstrip_by_fixed_app (p : ascii -> bool) (a b : string) :
  rstrip_by p b = b -> b <> EmptyString -> rstrip_by p (a ++ b) = a ++ b.
Proof.
  intros Hb Hne. induction a as [|c a IH]; [exact Hb|].
  cbn [append rstrip_by]. rewrite IH.
  destruct (a ++ b) eqn:E; [|reflexivity].
  destruct a; cbn in E; [contradiction | discriminate].
Qed.

Lemma rstrip_by_split (p : ascii -> bool) (s : string) :
  exists t, s = rstrip_by p s ++ t.
Proof.
  induction s as [|c s [t IH]]; [now exists EmptyString|].
  cbn [rstrip_by]. destruct (rstrip_by p s) eqn:E.
  - destruct (p c).
    + exists (String c s). reflexivity.
    + exists s. reflexivity.
  - exists t. cbn [append]. f_equal. exact IH.
Qed.

Lemma lstrip_by_length (p : ascii -> bool) (s : string) :
  String.length (lstrip_by p s) <= String.length s.
Proof.
  induction s as [|c s IH]; [apply le_n|].
  cbn [lstrip_by]. destruct (p c); cbn [String.length]; lia.
Qed.

Lemma strip_fixed_rstrip (s : string) :
  strip s = s -> rstrip_by isspace_char s = s.
Proof.
  unfold strip. intros H.
  destruct (rstrip_by_split isspace_char s) as [t Ht].
  assert (Hl := lstrip_by_length isspace_char (rstrip_by isspace_char s)).
  rewrite H in Hl.
  assert (Hlen : String.length s
                 = String.length (rstrip_by isspace_char s)
                   + String.length t)
    by (rewrite Ht at 1; apply length_append).
  destruct t; [now rewrite append_nil_r in Ht|].
  cbn [String.length] in Hlen. lia.
Qed.

Lemma strip_fixed_head (c : ascii) (s : string) :
  strip (String c s) = String c s -> isspace_char c = false.
Proof.
  intros H. assert (Hr := strip_fixed_rstrip _ H).
  unfold strip in H. rewrite Hr in H. cbn [lstrip_by] in H.
  destruct (isspace_char c); [|reflexivity].
  assert (Hl := lstrip_by_length isspace_char s).
  rewrite H in Hl. cbn [String.length] in Hl. lia.
Qed.

Lemma lstrip_by_all_app (p : ascii -> bool) (a b : string) :
  forall_chars p a = true -> lstrip_by p (a ++ b) = lstrip_by p b.
Proof.
  induction a as [|c a IH]; intros H; [reflexivity|].
  cbn [forall_chars] in H. apply andb_prop in H. destruct H as [Hc Ha].
  cbn [append lstrip_by]. rewrite Hc. now apply IH.
Qed.

Lemma span_app (p : ascii -> bool) (a : string) (c : ascii) (b : string) :
  forall_chars p a = true -> p c = false ->
  Re.span p (a ++ String c b) = (a, String c b).
Proof.
  intros Ha Hc. induction a as [|x a IH].
  - cbn [append Re.span]. now rewrite Hc.
  - cbn [forall_chars] in Ha. apply andb_prop in Ha. destruct Ha as [Hx Ha].
    cbn [append Re.span]. rewrite Hx, (IH Ha). reflexivity.
Qed.

Lemma span_all (p : ascii -> bool) (a : string) :
  forall_chars p a = true -> Re.span p a = (a, EmptyString).
Proof.
  induction a as [|x a IH]; intros Ha; [reflexivity|].
  cbn [forall_chars] in Ha. apply andb_prop in Ha. destruct Ha as [Hx Ha].
  cbn [Re.span]. rewrite Hx, (IH Ha). reflexivity.
Qed.

Lemma spaces_space (n : nat) : forall_chars isspace_char (spaces n) = true.
Proof. induction n; [reflexivity | exact IHn]. Qed.

Lemma spaces_strip_chars (n : nat) :
  forall_chars (fun c => mem_char c "[] ") (spaces n) = true.
Proof. induction n; [reflexivity | exact IHn]. Qed.

Lemma spaces_no_LF (n : nat) :
  forall_chars (fun c => negb (Ascii.eqb c LF)) (spaces n) = true.
Proof. induction n; [reflexivity | exact IHn]. Qed.

Lemma digit_not_bracket (c : ascii) :
  isdigit_char c = true -> mem_char c "[] " = false.
Proof.
  intros H. cbn [mem_char].
  assert (E1 := digit_not_char c 91 H).
  assert (E2 := digit_not_char c 93 H).
  assert (E3 := digit_not_char c 32 H).
  change (ascii_of_nat 91) with "["%char in E1.
  change (ascii_of_nat 93) with "]"%char in E2.
  change (ascii_of_nat 32) with " "%char in E3.
  rewrite E1, E2, E3 by lia. reflexivity.
Qed.

(** The program reads the number back from the printed index. *)
Lemma rule_number_index (pad : nat) (num : string) :
  isdigit num = true -> strip_chars "[] " (index_text pad num) = num.
Proof.
  intros H. unfold strip_chars, index_text.
  set (p := fun c : ascii => mem_char c "[] ").
  assert (Hnum : rstrip_by p num = num).
  { apply rstrip_by_none. apply isdigit_forall in H.
    revert H. apply forall_chars_impl. intros c Hc.
    unfold p. now rewrite (digit_not_bracket c Hc). }
  replace ("[" ++ spaces pad ++ num ++ "]")
    with (("[" ++ spaces pad ++ num) ++ "]")
    by now rewrite !append_assoc.
  rewrite rstrip_by_append_all by reflexivity.
  replace ("[" ++ spaces pad ++ num) with (("[" ++ spaces pad) ++ num)
    by now rewrite !append_assoc.
  rewrite rstrip_by_fixed_app;
    [| exact Hnum | intros ->; discriminate H].
  rewrite lstrip_by_all_app.
  - destruct num as [|c r]; [discriminate H|].
    apply lstrip_by_head. unfold p. apply digit_not_bracket.
    cbn in H. now apply andb_prop in H.
  - change ("[" ++ spaces pad) with (String "[" (spaces pad)).
    cbn [forall_chars]. rewrite spaces_strip_chars. reflexivity.
Qed.

Lemma strip_rstrip (s : string) : strip (rstrip_by isspace_char s) = strip s.
Proof. unfold strip. now rewrite rstrip_by_idem. Qed.

Lemma strip_padded (s : string) (n : nat) : strip (s ++ spaces n) = strip s.
Proof.
  unfold strip. now rewrite rstrip_by_append_all by apply spaces_space.
Qed.

Lemma bare_line_strip (r : rule) :
  printed_rule r ->
  rstrip_by isspace_char (fst r ++ " " ++ snd r) = fst r ++ " " ++ snd r
  /\ fst r ++ " " ++ snd r <> EmptyString.
Proof.
  destruct r as [idx desc]. intros (_ & Hne & Hstrip & _).
  cbn [fst snd] in *. split.
  - rewrite <- append_assoc.
    apply rstrip_by_fixed_app; [now apply strip_fixed_rstrip | exact Hne].
  - destruct idx; cbn; discriminate.
Qed.

Lemma printed_rule_line (pad : rule -> nat) (r : rule) :
  printed_rule r -> Re.match_rule_line (strip (listing_line pad r)) = Some r.
Proof.
  intros Hp. unfold listing_line. rewrite strip_padded.
  destruct r as [idx desc].
  destruct Hp as ((k & num & Hnum & Hidx) & Hne & Hstrip & Hone).
  cbn [fst snd] in *. subst idx.
  unfold index_text.
  destruct desc as [|d desc']; [contradiction|].
  assert (Hd := strip_fixed_head _ _ Hstrip).
  assert (Hr := strip_fixed_rstrip _ Hstrip).
  set (desc := String d desc') in *.
  assert (Hline : strip (("[" ++ spaces k ++ num ++ "]") ++ " " ++ desc)
                  = String "[" (spaces k ++ num
                                ++ String "]" (String " " desc))).
  { unfold strip.
    replace (("[" ++ spaces k ++ num ++ "]") ++ " " ++ desc)
      with (("[" ++ spaces k ++ num ++ "] ") ++ desc)
      by (cbn [append]; rewrite !append_assoc; reflexivity).
    rewrite rstrip_by_fixed_app by (assumption || discriminate).
    cbn [append]. rewrite !append_assoc. cbn [append].
    apply lstrip_by_head. reflexivity. }
  rewrite Hline. clear Hline.
  unfold Re.match_rule_line.
  destruct num as [|n0 num']; [discriminate Hnum|].
  assert (Hn0 : isdigit_char n0 = true)
    by (cbn in Hnum; now apply andb_prop in Hnum).
  cbn [append].
  rewrite (span_app isspace_char (spaces k) n0)
    by (apply spaces_space || now apply digit_not_space).
  change (String n0 (num' ++ String "]" (String " " desc)))
    with (String n0 num' ++ String "]" (String " " desc)).
  rewrite (span_app isdigit_char (String n0 num') "]")
    by (now apply isdigit_forall || reflexivity).
  change (String " " desc) with (" " ++ desc).
  unfold desc at 1.
  rewrite (span_app isspace_char " " d desc') by (reflexivity || exact Hd).
  fold desc.
  rewrite (span_all Re.not_newline desc).
  - cbn [fst append]. reflexivity.
  - apply one_line_no_LF in Hone. exact Hone.
Qed.

Lemma collect_rules_app (a b : list string) :
  collect_rules (a ++ b) = (collect_rules a ++ collect_rules b)%list.
Proof.
  induction a as [|l a IH]; [reflexivity|].
  rewrite <- app_comm_cons. cbn [collect_rules].
  destruct (Re.match_rule_line (strip l)); [|exact IH].
  rewrite <- app_comm_cons. now rewrite IH.
Qed.

Lemma collect_rules_last (front : list string) (x : string) :
  collect_rules (front ++ [rstrip_by isspace_char x])
  = collect_rules (front ++ [x]).
Proof.
  rewrite !collect_rules_app. f_equal. cbn [collect_rules].
  now rewrite strip_rstrip.
Qed.

Lemma collect_printed_rules (pad : rule -> nat) (rs : list rule) :
  Forall printed_rule rs -> collect_rules (map (listing_line pad) rs) = rs.
Proof.
  induction 1 as [|r rs Hr _ IH]; [reflexivity|].
  cbn [map collect_rules]. rewrite (printed_rule_line pad r Hr).
  now rewrite IH.
Qed.

Lemma split_char_none (sep : ascii) (s : string) :
  forall_chars (fun c => negb (Ascii.eqb c sep)) s = true ->
  split_char sep s = [s].
Proof.
  induction s as [|c s IH]; intros H; [reflexivity|].
  cbn [forall_chars] in H. apply andb_prop in H. destruct H as [Hc Hs].
  cbn [split_char]. apply negb_true_iff in Hc. rewrite Hc.
  now rewrite (IH Hs).
Qed.

Lemma split_char_line (sep : ascii) (a b : string) :
  forall_chars (fun c => negb (Ascii.eqb c sep)) a = true ->
  split_char sep (a ++ String sep b) = a :: split_char sep b.
Proof.
  induction a as [|c a IH]; intros H.
  - cbn [append split_char]. now rewrite Ascii.eqb_refl.
  - cbn [forall_chars] in H. apply andb_prop in H. destruct H as [Hc Ha].
    cbn [append split_char]. apply negb_true_iff in Hc. rewrite Hc.
    now rewrite (IH Ha).
Qed.

Lemma split_join_lines (l : string) (lines : list string) :
  Forall (fun s => forall_chars (fun c => negb (Ascii.eqb c LF)) s = true)
         (l :: lines) ->
  split_char LF (join_lines (l :: lines)) = l :: lines.
Proof.
  revert l. induction lines as [|m r IH]; intros l H.
  - cbn [join_lines]. apply split_char_none. now inversion H.
  - inversion H as [|? ? Hl Hr]; subst.
    change (join_lines (l :: m :: r))
      with (l ++ String LF (join_lines (m :: r))).
    rewrite split_char_line by exact Hl. now rewrite IH.
Qed.

Lemma join_lines_last (lines : list string) :
  exists a, forall x, join_lines (lines ++ [x]) = a ++ x.
Proof.
  induction lines as [|l r [a IH]].
  - now exists EmptyString.
  - exists (l ++ nl ++ a). intros x.
    change ((l :: r) ++ [x])%list with (l :: (r ++ [x]))%list.
    cbn [join_lines]. destruct (r ++ [x])%list eqn:E.
    + now destruct r.
    + rewrite <- E, IH. now rewrite !append_assoc.
Qed.

Lemma listing_line_no_LF (pad : rule -> nat) (r : rule) :
  printed_rule r ->
  forall_chars (fun c => negb (Ascii.eqb c LF)) (listing_line pad r) = true.
Proof.
  destruct r as [idx desc].
  intros ((k & num & Hnum & Hidx) & _ & _ & Hone).
  cbn [fst snd] in *. subst idx. unfold listing_line, index_text.
  cbn [fst snd]. rewrite !forall_chars_append.
  rewrite !spaces_no_LF, (one_line_no_LF _ Hone).
  rewrite (one_line_no_LF _ (digits_one_line _ Hnum)). reflexivity.
Qed.

Lemma rstrip_no_LF (s : string) :
  forall_chars (fun c => negb (Ascii.eqb c LF)) s = true ->
  forall_chars (fun c => negb (Ascii.eqb c LF)) (rstrip_by isspace_char s)
  = true.
Proof.
  intros H. destruct (rstrip_by_split isspace_char s) as [t Ht].
  rewrite Ht in H. rewrite forall_chars_append in H.
  now apply andb_prop in H.
Qed.

Lemma status_word_facts (status : string) :
  status_word status = true ->
  forall_chars (fun c => negb (isspace_char c)) status = true
  /\ forall_chars (fun c => negb (Ascii.eqb c ":")) status = true
  /\ forall_chars (fun c => negb (Ascii.eqb c LF)) status = true.
Proof.
  unfold status_word. intros H. repeat split;
    revert H; apply forall_chars_impl; intros c Hc;
    apply andb_prop in Hc; destruct Hc as [H1 H2]; try assumption.
  destruct (Ascii.eqb_spec c LF) as [->|]; [discriminate H1 | reflexivity].
Qed.

(** The lines of the output: all but the last, and the last, which keeps
    a character when its padding is dropped. *)
Lemma output_lines_last (status : string) (rs : list rule)
      (pad : rule -> nat) :
  Forall printed_rule rs ->
  exists rest x,
    (status_line status :: header_lines ++ map (listing_line pad) rs)%list
    = ((status_line status :: rest) ++ [x])%list
    /\ rstrip_by isspace_char x <> EmptyString.
Proof.
  intros Hrs. destruct rs as [|r0 rs0 _] using rev_ind.
  - exists [EmptyString;
            "     To                         Action      From"],
           "     --                         ------      ----".
    split; [reflexivity | discriminate].
  - exists ((header_lines ++ map (listing_line pad) rs0)%list),
           (listing_line pad r0).
    split.
    + rewrite map_app. cbn [map]. rewrite <- app_comm_cons, app_assoc.
      reflexivity.
    + apply Forall_app in Hrs. destruct Hrs as [_ Hr0].
      inversion Hr0 as [|? ? Hp _]; subst.
      destruct (bare_line_strip r0 Hp) as [Hfix Hne].
      unfold listing_line.
      rewrite rstrip_by_append_all by apply spaces_space.
      now rewrite Hfix.
Qed.

Lemma rstrip_by_app_kept (a b : string) :
  rstrip_by isspace_char b <> EmptyString ->
  rstrip_by isspace_char (a ++ b) = a ++ rstrip_by isspace_char b.
Proof.
  intros Hne. induction a as [|c a IH]; [reflexivity|].
  cbn [append rstrip_by]. rewrite IH.
  destruct (a ++ rstrip_by isspace_char b) eqn:E; [|reflexivity].
  destruct a; cbn in E; [contradiction | discriminate].
Qed.

Lemma strip_head_nonspace (c : ascii) (r : string) :
  isspace_char c = false -> exists r', strip (String c r) = String c r'.
Proof.
  intros Hc. unfold strip. cbn [rstrip_by].
  destruct (rstrip_by isspace_char r) as [|d r'].
  - rewrite Hc. exists EmptyString. cbn [lstrip_by]. now rewrite Hc.
  - exists (String d r'). cbn [lstrip_by]. now rewrite Hc.
Qed.

Lemma collect_skip (line : string) (rest : list string) :
  Re.match_rule_line (strip line) = None ->
  collect_rules (line :: rest) = collect_rules rest.
Proof. intros H. cbn [collect_rules]. now rewrite H. Qed.

Lemma collect_output_lines (status : string) (rs : list rule)
      (pad : rule -> nat) :
  Forall printed_rule rs ->
  collect_rules (status_line status
                 :: header_lines ++ map (listing_line pad) rs)
  = rs.
Proof.
  intros Hrs. rewrite collect_skip.
  - unfold header_lines. rewrite <- !app_comm_cons, app_nil_l.
    do 3 (rewrite collect_skip by reflexivity).
    now apply collect_printed_rules.
  - destruct (strip_head_nonspace "S" ("tatus: " ++ status) eq_refl)
      as [r' Hr'].
    change (status_line status) with (String "S" ("tatus: " ++ status)).
    rewrite Hr'. reflexivity.
Qed.

Lemma output_lines_no_LF (status : string) (rs : list rule)
      (pad : rule -> nat) :
  status_word status = true ->
  Forall printed_rule rs ->
  Forall (fun s => forall_chars (fun c => negb (Ascii.eqb c LF)) s = true)
         (status_line status :: header_lines ++ map (listing_line pad) rs).
Proof.
  intros Hst Hrs. constructor.
  - unfold status_line. rewrite forall_chars_append.
    now rewrite (proj2 (proj2 (status_word_facts _ Hst))).
  - apply Forall_app. split.
    + unfold header_lines. repeat constructor.
    + apply Forall_map. revert Hrs. apply Forall_impl.
      intros r. apply listing_line_no_LF.
Qed.

(** The lines that the program sees: the stripped output loses the
    padding of its last line only. *)
Lemma stripped_output_lines (status : string) (rs : list rule)
      (pad : rule -> nat) (trailing : string) :
  status_word status = true ->
  Forall printed_rule rs ->
  forall_chars isspace_char trailing = true ->
  exists rest x,
    (status_line status :: header_lines ++ map (listing_line pad) rs)%list
    = ((status_line status :: rest) ++ [x])%list
    /\ split_char LF (strip (ufw_output status rs pad trailing))
       = ((status_line status :: rest) ++ [rstrip_by isspace_char x])%list.
Proof.
  intros Hst Hrs Htr.
  destruct (output_lines_last status rs pad Hrs) as (rest & x & E & Hne).
  exists rest, x. split; [exact E|].
  assert (Hlf := output_lines_no_LF status rs pad Hst Hrs).
  rewrite E in Hlf. apply Forall_app in Hlf. destruct Hlf as [Hfront Hx].
  unfold ufw_output, strip. rewrite E.
  destruct (join_lines_last (status_line status :: rest)) as [a Ha].
  rewrite rstrip_by_append_all by exact Htr.
  rewrite Ha, rstrip_by_app_kept by exact Hne.
  rewrite <- Ha.
  assert (Hhead : exists t,
             join_lines ((status_line status :: rest)
                         ++ [rstrip_by isspace_char x])
             = String "S" t).
  { rewrite <- app_comm_cons. cbn [join_lines].
    destruct (rest ++ [rstrip_by isspace_char x])%list;
      unfold status_line; cbn [append]; eexists; reflexivity. }
  destruct Hhead as [t Ht]. rewrite Ht.
  rewrite lstrip_by_head by reflexivity. rewrite <- Ht.
  rewrite <- app_comm_cons. apply split_join_lines.
  rewrite app_comm_cons. apply Forall_app. split; [exact Hfront|].
  constructor; [|constructor]. apply rstrip_no_LF. now inversion Hx.
Qed.

Lemma status_field (status : string) :
  status_word status = true ->
  strip (nth 1 (split_char ":" (status_line status)) EmptyString) = status.
Proof.
  intros Hst. destruct (status_word_facts _ Hst) as (Hsp & Hcol & _).
  change (status_line status) with ("Status" ++ String ":" (" " ++ status)).
  rewrite split_char_line by reflexivity.
  rewrite split_char_none
    by (change (" " ++ status) with (String " " status);
        cbn [forall_chars]; now rewrite Hcol).
  cbn [nth]. change (" " ++ status) with (String " " status).
  unfold strip. cbn [rstrip_by]. rewrite (rstrip_by_none _ _ Hsp).
  destruct status as [|c r]; [reflexivity|].
  cbn [lstrip_by]. change (isspace_char " ") with true. cbn iota.
  apply lstrip_by_head. cbn [forall_chars] in Hsp.
  apply andb_prop in Hsp. destruct Hsp as [Hc _].
  now apply negb_true_iff in Hc.
Qed.

End Listing.

(** X7.  The fetch reads the listing as the tool prints it: given the
    status line, the head of the table and one line per rule, padded with
    spaces or not, it lists exactly these rules in their order and takes
    the word after "Status:" as the firewall status; and each listed rule
    has a numeric index, so that it can be deleted and annotated. *)
Theorem fetch_lists_printed_rules (st : UFWManager) (w : World)
        (status : string) (rs : list rule) (pad : rule -> nat)
        (trailing : string) :
  shell w (trace w) "sudo ufw status numbered"
  = Completed (ufw_output status rs pad trailing) ->
  status_word status = true ->
  Forall printed_rule rs ->
  forall_chars isspace_char trailing = true ->
  rules (fst (_get_firewall_rules st w)) = rs
  /\ ufw_status (fst (_get_firewall_rules st w)) = status
  /\ Forall (fun r => isdigit (rule_number r) = true) rs.
Proof.
  intros Hsh Hst Hrs Htr.
  assert (Hfetch :
    fst (_get_firewall_rules st w)
    = match rs with
      | [] => with_status (with_rules st status rs)
                          "UFW is active, but no rules are configured."
      | _ => with_rules st status rs
      end).
  { unfold _get_firewall_rules, _run_command. rewrite Hsh.
    change (ascii_of_nat 10) with LF.
    destruct (stripped_output_lines status rs pad trailing Hst Hrs Htr)
      as (rest & x & E & ->).
    assert (Hcol : collect_rules
                     ((status_line status :: rest)
                      ++ [rstrip_by isspace_char x])
                   = rs).
    { rewrite collect_rules_last, <- E.
      now apply collect_output_lines. }
    rewrite Hcol. rewrite <- app_comm_cons.
    cbn [first_status_line].
    assert (Hc : contains "Status:" (status_line status) = true)
      by reflexivity.
    rewrite Hc. rewrite (status_field status Hst).
    cbn [fst]. destruct rs; reflexivity. }
  rewrite Hfetch. split; [destruct rs; reflexivity|].
  split; [destruct rs; reflexivity|].
  revert Hrs. apply Forall_impl.
  intros [idx desc] ((k & num & Hnum & Hidx) & _).
  cbn [fst] in Hidx. subst idx. unfold rule_number. cbn [fst].
  now rewrite rule_number_index.
Qed.

Lemma fetch_lists_printed_rules_witness :
  rules (fst (_get_firewall_rules fresh
                (mkWorld shell_three_rules [] (Content EmptyString)
                         (Content EmptyString) (fun _ => 0))))
  = three_rules
  /\ ufw_status (fst (_get_firewall_rules fresh
                        (mkWorld shell_three_rules [] (Content EmptyString)
                                 (Content EmptyString) (fun _ => 0))))
     = "active"
  /\ Forall (fun r => isdigit (rule_number r) = true) three_rules.
Proof.
  apply (fetch_lists_printed_rules fresh
           (mkWorld shell_three_rules [] (Content EmptyString)
                    (Content EmptyString) (fun _ => 0))
           "active" three_rules (fun _ => 18) (nl ++ nl)).
  - reflexivity.
  - reflexivity.
  - unfold three_rules.
    repeat constructor; cbn [fst snd];
      try discriminate; try reflexivity.
    + exists 1, "1". split; reflexivity.
    + exists 1, "2". split; reflexivity.
    + exists 1, "3". split; reflexivity.
  - reflexivity.
Defined.

(* ================================================================== *)
(** * Adding, editing, deleting, resetting and reloading *)

Section Frames.

Lemma rule_eqb_eq (a b : rule) : rule_eqb a b = true <-> a = b.
Proof.
  destruct a as [a1 a2], b as [b1 b2]. unfold rule_eqb. cbn [fst snd].
  rewrite andb_true_iff, !String.eqb_eq. split.
  - intros [-> ->]. reflexivity.
  - intros H. inversion H. auto.
Qed.

Lemma rule_in_iff (x : rule) (s : list rule) : rule_in x s = true <-> In x s.
Proof.
  unfold rule_in. rewrite existsb_exists. split.
  - intros (y & Hy & E). apply rule_eqb_eq in E. now subst.
  - intros H. exists x. split; [exact H | apply rule_eqb_refl].
Qed.


Lemma rule_set_nodup (l : list rule) : NoDup (rule_set l).
Proof.
  induction l as [|r l IH]; [constructor|].
  cbn [rule_set]. destruct (rule_in r (rule_set l)) eqn:E; [exact IH|].
  constructor; [|exact IH].
  intros H. apply rule_in_iff in H. congruence.
Qed.


Lemma commands_run_app (a b : list event) :
  commands_run (a ++ b) = (commands_run a ++ commands_run b)%list.
Proof.
  induction a as [|[c|p t] a IH]; [reflexivity| |];
    rewrite <- app_comm_cons; cbn [commands_run]; rewrite IH; reflexivity.
Qed.





(** What a fetch leaves alone, and the command it runs. *)
Lemma fetch_frame (st : UFWManager) (w : World) :
  notes (fst (_get_firewall_rules st w)) = notes st
  /\ services (fst (_get_firewall_rules st w)) = services st
  /\ selected_index (fst (_get_firewall_rules st w)) = selected_index st
  /\ scroll_pos (fst (_get_firewall_rules st w)) = scroll_pos st
  /\ notes_txt (snd (_get_firewall_rules st w)) = notes_txt w
  /\ services_txt (snd (_get_firewall_rules st w)) = services_txt w
  /\ shell (snd (_get_firewall_rules st w)) = shell w
  /\ set_pop (snd (_get_firewall_rules st w)) = set_pop w
  /\ trace (snd (_get_firewall_rules st w))
     = (trace w ++ [Ran fetch_command])%list.
Proof.
  unfold _get_firewall_rules, _run_command, fetch_command.
  destruct (shell w (trace w) "sudo ufw status numbered") as [out | err].
  - destruct (collect_rules (split_char (ascii_of_nat 10) (strip out)));
      cbn; repeat split.
  - cbn; repeat split.
Qed.

Lemma add_or_edit_after_form (st : UFWManager) (w : World) (is_edit : bool)
      (keys : list Z) (r : option rule) (cmd svc note : string) :
  selected_rule st is_edit = Some r ->
  _get_rule_input_from_form st r keys = Returns st (Some (cmd, svc, note)) ->
  _add_or_edit_rule st w is_edit keys
  = match apply_rule st w is_edit
            (match r with
             | Some x => rule_number x
             | None => EmptyString
             end) cmd svc note with
    | inl (st1, w1) =>
        Returns (_get_firewall_rules (with_status st1 applied_message) w1) tt
    | inr (st1, w1, stderr) =>
        Returns (with_status st1 ("Error applying rule: " ++ strip stderr),
                 w1) tt
    end.
Proof.
  intros Hsel Hform. unfold _add_or_edit_rule. rewrite Hsel, Hform.
  unfold rule_number, applied_message.
  destruct (apply_rule _ _ _ _ _ _ _) as [[st1 w1]|[[st1 w1] e]];
    [|reflexivity].
  now destruct (_get_firewall_rules _ w1).
Qed.



End Frames.





(** X10.  A command that fails leaves everything but the status message
    as it was.  When the deletion fails in a delete, the only command
    fails in an add, the first command fails in an edit, or the reset
    fails, the method returns with the same rules, stores and files, the
    failed command as the only addition to the log, and a message that
    carries the trimmed error text of the tool. *)
Theorem failed_command_changes_message_only (st : UFWManager) (w : World)
        (e : string) :
  (forall answer,
      selected_index st < length (rules st) ->
      isdigit (rule_number (selected st)) = true ->
      _confirm_action answer = true ->
      shell w (trace w) (delete_command (rule_number (selected st)))
      = CalledProcessError e ->
      _delete_firewall_rule st w answer
      = Returns (with_status st ("Error deleting rule: " ++ strip e),
                 log w (Ran (delete_command (rule_number (selected st)))))
                tt)
  /\ (forall keys cmd svc note,
         _get_rule_input_from_form st None keys
         = Returns st (Some (cmd, svc, note)) ->
         shell w (trace w) ("sudo ufw " ++ cmd) = CalledProcessError e ->
         _add_or_edit_rule st w false keys
         = Returns (with_status st ("Error applying rule: " ++ strip e),
                    log w (Ran ("sudo ufw " ++ cmd))) tt)
  /\ (forall keys r cmd svc note,
         selected_rule st true = Some (Some r) ->
         _get_rule_input_from_form st (Some r) keys
         = Returns st (Some (cmd, svc, note)) ->
         shell w (trace w) (delete_command (rule_number r))
         = CalledProcessError e ->
         _add_or_edit_rule st w true keys
         = Returns (with_status st ("Error applying rule: " ++ strip e),
                    log w (Ran (delete_command (rule_number r)))) tt)
  /\ (forall ignored enter rest,
         forallb ignored_by_panic ignored = true ->
         key_in enter [Curses.KEY_ENTER; 10%Z; 13%Z] = true ->
         shell w (trace w) reset_command = CalledProcessError e ->
         _panic_mode st w (ignored ++ enter :: rest)
         = Returns (with_status st ("Error resetting firewall: " ++ strip e),
                    log w (Ran reset_command)) tt).
Proof.
  split; [|split; [|split]].
  - intros answer Hsel Hdigit Hyes Hrun.
    unfold rule_number, selected, delete_command in *.
    unfold _delete_firewall_rule.
    destruct (Nat.leb_spec (length (rules st)) (selected_index st)); [lia|].
    destruct (rules st) as [|r0 rs] eqn:Hrules; [cbn in Hsel; lia|].
    rewrite Hdigit, Hyes. cbn [negb].
    unfold _run_command. cbn [is_empty append] in Hrun |- *.
    rewrite Hrun. reflexivity.
  - intros keys cmd svc note Hform Hrun.
    rewrite (add_or_edit_after_form st w false keys None cmd svc note
               eq_refl Hform).
    unfold apply_rule, _run_command. rewrite Hrun. reflexivity.
  - intros keys r cmd svc note Hsel Hform Hrun.
    rewrite (add_or_edit_after_form st w true keys (Some r) cmd svc note
               Hsel Hform).
    unfold apply_rule, _run_command, delete_command in *.
    cbn [is_empty append] in Hrun |- *. rewrite Hrun. reflexivity.
  - intros ignored enter rest Hign Henter Hrun.
    induction ignored as [|k ks IH].
    + cbn [List.app _panic_mode]. rewrite Henter.
      unfold _run_command, reset_command in *.
      cbn [is_empty append] in Hrun |- *. rewrite Hrun. reflexivity.
    + cbn [forallb] in Hign. apply andb_prop in Hign.
      destruct Hign as [Hk Hks].
      rewrite <- app_comm_cons. cbn [_panic_mode].
      unfold ignored_by_panic in Hk. apply andb_prop in Hk.
      destruct Hk as [Hk1 Hk2].
      apply negb_true_iff in Hk1, Hk2. rewrite Hk1, Hk2.
      now apply IH.
Qed.

Lemma failed_command_changes_message_only_witness :
  _delete_firewall_rule annotated_second
    (mkWorld failing_shell [] (Content EmptyString) (Content EmptyString)
             (fun _ => 0)) (Some "y")
  = Returns (with_status annotated_second "Error deleting rule: ERROR: bad",
             log failing_world (Ran (delete_command "1"))) tt
  /\ _add_or_edit_rule annotated_second failing_world false keys_port_22
     = Returns (with_status annotated_second
                            "Error applying rule: ERROR: bad",
                log failing_world
                    (Ran "sudo ufw allow in to any port 22 proto tcp")) tt
  /\ _add_or_edit_rule annotated_second failing_world true [10%Z]
     = Returns (with_status annotated_second
                            "Error applying rule: ERROR: bad",
                log failing_world (Ran (delete_command "1"))) tt
  /\ _panic_mode annotated_second failing_world [65; 13; 27]%Z
     = Returns (with_status annotated_second
                            "Error resetting firewall: ERROR: bad",
                log failing_world (Ran reset_command)) tt.
Proof.
  destruct (failed_command_changes_message_only
              annotated_second failing_world ("ERROR: bad" ++ nl))
    as (H1 & H2 & H3 & H4).
  split; [|split; [|split]].
  - apply (H1 (Some "y")); [cbn; lia | reflexivity | reflexivity
                           | reflexivity].
  - apply (H2 keys_port_22 "allow in to any port 22 proto tcp"
              EmptyString EmptyString); reflexivity.
  - apply (H3 [10%Z]
              ("[ 1]", "22/tcp                     ALLOW IN    Anywhere")
              "allow in to any port 22 proto tcp" EmptyString EmptyString);
      reflexivity.
  - apply (H4 [65%Z] 13%Z [27%Z]); reflexivity.
Defined.

(** X11.  An edit whose deletion succeeds and whose insertion fails stops
    there: it reports the error of the insertion, writes no file, keeps
    the stores and does not fetch the rules again, so that the object
    still lists the rule that the tool has deleted. *)
Theorem edit_insert_failure_keeps_old_list (st : UFWManager) (w : World)
        (keys : list Z) (r : rule) (cmd svc note out e : string) :
  selected_rule st true = Some (Some r) ->
  _get_rule_input_from_form st (Some r) keys
  = Returns st (Some (cmd, svc, note)) ->
  shell w (trace w) (delete_command (rule_number r)) = Completed out ->
  shell w (trace w ++ [Ran (delete_command (rule_number r))])%list
        (insert_command (rule_number r) cmd) = CalledProcessError e ->
  _add_or_edit_rule st w true keys
  = Returns (with_status st ("Error applying rule: " ++ strip e),
             log (log w (Ran (delete_command (rule_number r))))
                 (Ran (insert_command (rule_number r) cmd))) tt.
Proof.
  intros Hsel Hform Hdel Hins.
  rewrite (add_or_edit_after_form st w true keys (Some r) cmd svc note
             Hsel Hform).
  unfold apply_rule, _run_command.
  unfold delete_command, insert_command in *.
  cbn [is_empty append] in Hdel, Hins |- *.
  rewrite Hdel. cbn [log trace shell]. rewrite Hins. reflexivity.
Qed.

Lemma edit_insert_failure_keeps_old_list_witness :
  _add_or_edit_rule annotated_second world_insert_fails true [10%Z]
  = Returns (with_status annotated_second "Error applying rule: ERROR: bad",
             log (log world_insert_fails (Ran (delete_command "1")))
                 (Ran (insert_command
                         "1" "allow in to any port 22 proto tcp"))) tt.
Proof.
  apply (edit_insert_failure_keeps_old_list
           annotated_second world_insert_fails [10%Z]
           ("[ 1]", "22/tcp                     ALLOW IN    Anywhere")
           "allow in to any port 22 proto tcp" EmptyString EmptyString
           "Rule deleted" ("ERROR: bad" ++ nl));
    reflexivity.
Defined.

(** X12.  The reset dialog never touches the annotations: however it
    ends, with the firewall reset, with a failed reset or with an abort,
    both stores, both files and the selection are what they were, so the
    annotations of the rules that a reset removed stay attached to their
    numbers. *)
Theorem reset_keeps_annotations (st st' : UFWManager) (w w' : World)
        (keys : list Z) :
  _panic_mode st w keys = Returns (st', w') tt ->
  notes st' = notes st
  /\ services st' = services st
  /\ notes_txt w' = notes_txt w
  /\ services_txt w' = services_txt w
  /\ selected_index st' = selected_index st.
Proof.
  induction keys as [|k ks IH]; cbn [_panic_mode]; [discriminate|].
  destruct (key_in k [Curses.KEY_ENTER; 10%Z; 13%Z]).
  - unfold _run_command. cbn [is_empty].
    destruct (shell w (trace w) _) as [out|e].
    + match goal with
      | |- context [_get_firewall_rules ?a ?b] =>
          destruct (fetch_frame a b)
            as (Gn & Gs & Gsel & _ & Gnf & Gsf & _);
          destruct (_get_firewall_rules a b) as [st1 w1]
      end.
      intros H. inversion H; subst. cbn in *. auto.
    + intros H. inversion H; subst. cbn. auto.
  - destruct (k =? 27)%Z; [|exact IH].
    intros H. inversion H; subst. cbn. auto.
Qed.

Lemma reset_keeps_annotations_witness :
  exists st' w',
    _panic_mode annotated_second world_three_rules [65; 10]%Z
    = Returns (st', w') tt
    /\ notes st' = notes annotated_second
    /\ services st' = services annotated_second
    /\ notes_txt w' = notes_txt world_three_rules
    /\ services_txt w' = services_txt world_three_rules
    /\ selected_index st' = selected_index annotated_second.
Proof.
  eexists. eexists. split; [reflexivity|].
  apply (reset_keeps_annotations annotated_second _ world_three_rules _
           [65; 10]%Z).
  reflexivity.
Defined.

(** X13.  A reload always fetches the rules again, whether the reload
    command succeeded or failed: it runs the two commands in this order
    and touches neither the stores nor the files.  The message of the
    reload, success or error, is what the status line shows only when the
    fetch lists at least one rule; otherwise the fetch has replaced it. *)
Theorem reload_always_fetches (st : UFWManager) (w : World) :
  trace (snd (_reload_firewall st w))
  = (trace w ++ [Ran reload_command; Ran fetch_command])%list
  /\ notes (fst (_reload_firewall st w)) = notes st
  /\ services (fst (_reload_firewall st w)) = services st
  /\ notes_txt (snd (_reload_firewall st w)) = notes_txt w
  /\ services_txt (snd (_reload_firewall st w)) = services_txt w
  /\ selected_index (fst (_reload_firewall st w)) = selected_index st
  /\ (rules (fst (_reload_firewall st w)) <> [] ->
      status_message (fst (_reload_firewall st w))
      = reload_message (shell w (trace w) reload_command))
  /\ (rules (fst (_reload_firewall st w)) = [] ->
      status_message (fst (_reload_firewall st w))
      <> reload_message (shell w (trace w) reload_command)).
Proof.
  unfold _reload_firewall, _run_command, reload_command.
  set (r := shell w (trace w) "sudo ufw reload").
  set (st1 := match r with
              | Completed _ => with_status st "Firewall reloaded successfully."
              | CalledProcessError e =>
                  with_status st ("Error reloading firewall: " ++ strip e)
              end).
  assert (H1 : notes st1 = notes st /\ services st1 = services st
               /\ selected_index st1 = selected_index st
               /\ status_message st1 = reload_message r).
  { unfold st1. destruct r; cbn; auto. }
  destruct H1 as (N1 & S1 & I1 & M1).
  set (w1 := log w (Ran "sudo ufw reload")).
  destruct (fetch_frame st1 w1) as (Gn & Gs & Gsel & _ & Gnf & Gsf & _ & _ & Gt).
  destruct (get_firewall_rules_frame st1 w1) as (_ & _ & _ & _ & _ & Gm).
  assert (Gempty : rules (fst (_get_firewall_rules st1 w1)) = [] ->
                   status_message (fst (_get_firewall_rules st1 w1))
                   = no_rules_message
                   \/ status_message (fst (_get_firewall_rules st1 w1))
                      = "Error fetching UFW status. Is it installed and enabled?").
  { unfold _get_firewall_rules, _run_command.
    destruct (shell w1 (trace w1) "sudo ufw status numbered").
    - destruct (collect_rules _); cbn; [now left | discriminate].
    - cbn. now right. }
  split; [rewrite Gt; unfold w1; cbn [trace log];
          now rewrite <- app_assoc|].
  split; [now rewrite Gn|]. split; [now rewrite Gs|].
  split; [exact Gnf|]. split; [exact Gsf|]. split; [now rewrite Gsel|].
  split.
  - intros Hr. rewrite (Gm Hr). exact M1.
  - intros Hr E. rewrite <- M1 in E. clear M1.
    destruct (Gempty Hr) as [Hm|Hm]; rewrite Hm in E;
      unfold st1 in E; destruct r; cbn in E; discriminate E.
Qed.

Lemma reload_always_fetches_witness :
  status_message (fst (_reload_firewall annotated_second world_reload_fails))
  = "Error reloading firewall: ERROR: busy"
  /\ status_message (fst (_reload_firewall annotated_second empty_world))
     <> "Firewall reloaded successfully.".
Proof.
  destruct (reload_always_fetches annotated_second world_reload_fails)
    as (_ & _ & _ & _ & _ & _ & H1 & _).
  destruct (reload_always_fetches annotated_second empty_world)
    as (_ & _ & _ & _ & _ & _ & _ & H2).
  split.
  - apply H1. discriminate.
  - apply H2. reflexivity.
Defined.






(* ================================================================== *)
(** * Reindexing keeps stores well formed *)






(* ================================================================== *)
(** * Keys of the form and of the confirmation *)

Section FormKeys.

Lemma choices_cases (fs : form_fields) :
  choices_in_range fs ->
  exists a d p port ip svc note,
    fs = mkFields a d p port ip svc note /\ a < 4 /\ d < 2 /\ p < 3.
Proof.
  destruct fs as [a d p port ip svc note]. intros (Ha & Hd & Hp).
  cbn in Ha, Hd, Hp. exists a, d, p, port, ip, svc, note. auto.
Qed.

Lemma printable_code (c : ascii) :
  printable_char c = true ->
  (32 <= Z.of_nat (nat_of_ascii c) <= 126)%Z.
Proof.
  unfold printable_char. intros H. apply andb_prop in H.
  destruct H as [H1 H2]. apply Nat.leb_le in H1, H2. lia.
Qed.

Lemma key_in_false (k : Z) (keys : list Z) :
  Forall (fun x => k <> x) keys -> key_in k keys = false.
Proof.
  unfold key_in. induction 1 as [|x l Hx _ IH]; [reflexivity|].
  cbn [existsb]. rewrite IH, orb_false_r. now apply Z.eqb_neq.
Qed.

Lemma form_key_printable (fs : form_fields) (idx : nat) (name : field_name)
      (c : ascii) :
  nth idx field_order FAction = name ->
  options_of name = None ->
  printable_char c = true ->
  form_key fs idx (Z.of_nat (nat_of_ascii c))
  = (if max_len name <=? String.length (get_text fs name) then fs
     else set_text fs name (get_text fs name ++ String c EmptyString), idx).
Proof.
  intros Hname Hopt Hc. assert (Hk := printable_code c Hc).
  unfold form_key. rewrite Hname, Hopt.
  rewrite !key_in_false
    by (unfold Curses.KEY_UP, Curses.KEY_BTAB, Curses.KEY_DOWN,
          Curses.KEY_BACKSPACE; repeat constructor; lia).
  destruct Hk as [Hk1 Hk2].
  apply Z.leb_le in Hk1, Hk2. rewrite Hk1, Hk2. cbn [andb].
  unfold chr. rewrite Nat2Z.id, ascii_nat_embedding.
  now destruct (max_len name <=? String.length (get_text fs name)).
Qed.

Lemma set_text_get (fs : form_fields) (name : field_name) :
  set_text fs name (get_text fs name) = fs.
Proof. destruct fs, name; reflexivity. Qed.

Lemma set_text_twice (fs : form_fields) (name : field_name) (a b : string) :
  set_text (set_text fs name a) name b = set_text fs name b.
Proof. destruct fs, name; reflexivity. Qed.

Lemma get_text_set_same (fs : form_fields) (name : field_name) (a : string) :
  options_of name = None -> get_text (set_text fs name a) name = a.
Proof. destruct fs, name; cbn; intros H; try discriminate H; reflexivity. Qed.

Lemma form_loop_typed (s : string) (fs : form_fields) (idx : nat)
      (name : field_name) (rest : list Z) :
  nth idx field_order FAction = name ->
  options_of name = None ->
  printable s = true ->
  form_loop fs idx (type_keys s ++ rest)
  = form_loop
      (set_text fs name
         (get_text fs name
          ++ take (max_len name - String.length (get_text fs name)) s))
      idx rest.
Proof.
  intros Hname Hopt. revert fs.
  induction s as [|c s IH]; intros fs Hs.
  - cbn [type_keys List.app]. destruct (max_len name - _); cbn [take];
      now rewrite append_nil_r, set_text_get.
  - cbn [printable forall_chars] in Hs. apply andb_prop in Hs.
    destruct Hs as [Hc Hs]. cbn [type_keys]. rewrite <- app_comm_cons.
    cbn [form_loop]. assert (Hk := printable_code c Hc).
    rewrite key_in_false
      by (unfold Curses.KEY_ENTER; repeat constructor; lia).
    replace (Z.of_nat (nat_of_ascii c) =? 27)%Z with false
      by (symmetry; apply Z.eqb_neq; lia).
    rewrite (form_key_printable fs idx name c Hname Hopt Hc).
    destruct (Nat.leb_spec (max_len name) (String.length (get_text fs name)))
      as [Hfull|Hroom].
    + rewrite (IH fs Hs).
      replace (max_len name - String.length (get_text fs name)) with 0
        by lia.
      destruct s; reflexivity.
    + rewrite (IH _ Hs). rewrite set_text_twice.
      rewrite (get_text_set_same _ _ _ Hopt).
      rewrite length_append. cbn [String.length].
      replace (max_len name - String.length (get_text fs name))
        with (S (max_len name - (String.length (get_text fs name) + 1)))
        by lia.
      cbn [take]. rewrite append_assoc. reflexivity.
Qed.

Lemma digits_printable (s : string) :
  forall_chars isdigit_char s = true -> printable s = true.
Proof.
  apply forall_chars_impl. intros c H. unfold isdigit_char in H.
  unfold printable_char. apply andb_prop in H. destruct H as [H1 H2].
  apply Nat.leb_le in H1, H2.
  apply andb_true_intro; split; apply Nat.leb_le; lia.
Qed.

Lemma take_all (n : nat) (s : string) :
  String.length s <= n -> take n s = s.
Proof.
  revert n. induction s as [|c s IH]; intros n H.
  - now destruct n.
  - destruct n; cbn [String.length] in H; [lia|].
    cbn [take]. rewrite IH; [reflexivity | lia].
Qed.

Lemma lower_y (s : string) : lower s = "y" <-> s = "y" \/ s = "Y".
Proof.
  split.
  - destruct s as [|c [|d r]]; cbn [lower]; intros H;
      try discriminate H.
    injection H as H.
    destruct c as [[] [] [] [] [] [] [] []]; try discriminate H; auto.
  - intros [->| ->]; reflexivity.
Qed.

End FormKeys.

(** X16.  In the form, opposite keys cancel: Down then Up, Up then Down,
    Right then Left and Left then Right each bring the form back to the
    same field with the same values, and seven times Down goes once
    around the seven fields. *)
Theorem form_moves_cancel (fs : form_fields) (idx : nat) (rest : list Z) :
  idx < length field_order ->
  choices_in_range fs ->
  form_loop fs idx (Curses.KEY_DOWN :: Curses.KEY_UP :: rest)
  = form_loop fs idx rest
  /\ form_loop fs idx (Curses.KEY_UP :: Curses.KEY_DOWN :: rest)
     = form_loop fs idx rest
  /\ form_loop fs idx (Curses.KEY_RIGHT :: Curses.KEY_LEFT :: rest)
     = form_loop fs idx rest
  /\ form_loop fs idx (Curses.KEY_LEFT :: Curses.KEY_RIGHT :: rest)
     = form_loop fs idx rest
  /\ form_loop fs idx (repeat Curses.KEY_DOWN 7 ++ rest)
     = form_loop fs idx rest.
Proof.
  intros Hidx Hfs.
  destruct (choices_cases fs Hfs)
    as (a & d & p & port & ip & svc & note & -> & Ha & Hd & Hp).
  cbn [length field_order] in Hidx.
  destruct idx as [|[|[|[|[|[|[|idx]]]]]]]; try lia;
    destruct a as [|[|[|[|a]]]]; try lia;
    destruct d as [|[|d]]; try lia;
    destruct p as [|[|[|p]]]; try lia;
    repeat split; reflexivity.
Qed.

Lemma form_moves_cancel_witness :
  form_loop default_fields 3 (Curses.KEY_DOWN :: Curses.KEY_UP :: [10%Z])
  = form_loop default_fields 3 [10%Z].
Proof.
  apply (form_moves_cancel default_fields 3 [10%Z]).
  - cbn. lia.
  - unfold choices_in_range. cbn. lia.
Defined.

(** X17.  Typing into a text field appends the characters typed, in
    order, until the field holds as many characters as its limit allows
    (5 for the port, 15 for the address, 18 for the service, 43 for the
    note); what is typed beyond the limit is dropped, and nothing else in
    the form changes. *)
Theorem typed_text_fills_field (fs : form_fields) (idx : nat)
        (name : field_name) (s : string) (rest : list Z) :
  nth_error field_order idx = Some name ->
  options_of name = None ->
  printable s = true ->
  form_loop fs idx (type_keys s ++ rest)
  = form_loop
      (set_text fs name
         (get_text fs name
          ++ take (max_len name - String.length (get_text fs name)) s))
      idx rest.
Proof.
  intros Hname Hopt Hs. apply form_loop_typed; [|exact Hopt|exact Hs].
  now apply nth_error_nth.
Qed.

Lemma typed_text_fills_field_witness :
  form_loop default_fields 3 (type_keys "6553599" ++ [10%Z])
  = form_loop (set_text default_fields FPort "65535") 3 [10%Z].
Proof.
  apply (typed_text_fills_field default_fields 3 FPort "6553599" [10%Z]);
    reflexivity.
Defined.

(** X18.  Adding a rule by typing only a port: from the empty form,
    three times Down, the digits of the port (at most five) and Enter
    commit the command that allows incoming TCP traffic to that port
    from anywhere, with no service and no note. *)
Theorem typed_port_builds_default_command (st : UFWManager) (port : string) :
  isdigit port = true ->
  String.length port <= 5 ->
  _get_rule_input_from_form
    st None
    ([Curses.KEY_DOWN; Curses.KEY_DOWN; Curses.KEY_DOWN]
     ++ type_keys port ++ [10%Z])
  = Returns st (Some ("allow in to any port " ++ port ++ " proto tcp",
                      EmptyString, EmptyString)).
Proof.
  intros Hd Hlen. unfold _get_rule_input_from_form.
  cbn [seed_fields].
  change (form_loop default_fields 0
            ([Curses.KEY_DOWN; Curses.KEY_DOWN; Curses.KEY_DOWN]
             ++ type_keys port ++ [10%Z]))
    with (form_loop default_fields 3 (type_keys port ++ [10%Z])).
  rewrite (form_loop_typed port default_fields 3 FPort [10%Z]
             eq_refl eq_refl (digits_printable _ (isdigit_forall _ Hd))).
  change (get_text default_fields FPort) with EmptyString.
  change (max_len FPort - String.length EmptyString) with 5.
  rewrite (take_all 5 port Hlen).
  change (EmptyString ++ port) with port.
  change (form_loop (set_text default_fields FPort port) 3 [10%Z])
    with (Entered (set_text default_fields FPort port)).
  cbv iota.
  rewrite build_rule_accepts by exact Hd.
  reflexivity.
Qed.

Lemma typed_port_builds_default_command_witness :
  _get_rule_input_from_form
    fresh None
    ([Curses.KEY_DOWN; Curses.KEY_DOWN; Curses.KEY_DOWN]
     ++ type_keys "8080" ++ [10%Z])
  = Returns fresh (Some ("allow in to any port " ++ "8080" ++ " proto tcp",
                         EmptyString, EmptyString)).
Proof.
  apply (typed_port_builds_default_command fresh "8080").
  - reflexivity.
  - cbn. lia.
Defined.

(** X19.  The confirmation of a deletion accepts exactly the answers
    that are the letter y, in either case, with any whitespace around
    it; every other answer, and no answer at all, declines. *)
Theorem confirm_accepts_only_y (answer : option string) :
  _confirm_action answer = true
  <-> exists a, answer = Some a /\ (strip a = "y" \/ strip a = "Y").
Proof.
  unfold _confirm_action. destruct answer as [a|].
  - rewrite String.eqb_eq, lower_y. split.
    + intros H. now exists a.
    + intros (b & Hb & H). now injection Hb as <-.
  - split; [discriminate|]. intros (a & Ha & _). discriminate Ha.
Qed.

Lemma confirm_accepts_only_y_witness : _confirm_action (Some " Y ") = true.
Proof.
  apply (proj2 (confirm_accepts_only_y (Some " Y "))).
  exists " Y ". split; [reflexivity | right; reflexivity].
Defined.

(* ================================================================== *)
(** * Drawing the rule list *)

Section Drawing.

Lemma scrolled_bounds (st : UFWManager) (height : Z) :
  (1 <= list_height height)%Z ->
  (0 <= scrolled st height
   /\ scrolled st height <= Z.of_nat (selected_index st)
   /\ Z.of_nat (selected_index st) < scrolled st height + list_height height
   /\ (Z.of_nat (scroll_pos st) <= Z.of_nat (selected_index st)
       /\ Z.of_nat (selected_index st)
          < Z.of_nat (scroll_pos st) + list_height height ->
       scrolled st height = Z.of_nat (scroll_pos st)))%Z.
Proof.
  intros Hh. unfold scrolled.
  destruct (Z.ltb_spec (Z.of_nat (selected_index st))
                       (Z.of_nat (scroll_pos st)));
    match goal with
    | |- context [(?a >=? ?b)%Z] => destruct (Z.geb_spec a b)
    end; lia.
Qed.






End Drawing.



(* ================================================================== *)
(** * The main loop *)

Section Loop.

Lemma files_written_app (a b : list event) :
  files_written (a ++ b) = (files_written a ++ files_written b)%list.
Proof.
  induction a as [|[c|p t] a IH]; [reflexivity| |];
    rewrite <- app_comm_cons; cbn [files_written]; rewrite IH; reflexivity.
Qed.

Lemma files_kept_refl (w : World) : files_kept w w.
Proof. split; [reflexivity | intros p; reflexivity]. Qed.

Lemma files_kept_trans (a b c : World) :
  files_kept a b -> files_kept b c -> files_kept a c.
Proof.
  intros [H1 H2] [H3 H4]. split; [congruence|].
  intros p. now rewrite H4, H2.
Qed.

Lemma fetch_keeps_files (st : UFWManager) (w : World) :
  files_kept w (snd (_get_firewall_rules st w)).
Proof.
  destruct (fetch_frame st w) as (_ & _ & _ & _ & Fn & Fs & _ & _ & Ft).
  split.
  - rewrite Ft, files_written_app. cbn [files_written].
    now rewrite app_nil_r.
  - intros []; cbn [file_at]; [now rewrite Fn | now rewrite Fs].
Qed.

Lemma load_keeps_files (st : UFWManager) (w : World) :
  files_kept w (snd (_setup_and_load_files st w)).
Proof.
  destruct (load_frame st w) as (Ht & _). split.
  - now rewrite Ht.
  - intros p. apply load_file_texts.
Qed.

Lemma reload_frame (st : UFWManager) (w : World) :
  files_kept w (snd (_reload_firewall st w))
  /\ notes (fst (_reload_firewall st w)) = notes st
  /\ services (fst (_reload_firewall st w)) = services st.
Proof.
  unfold _reload_firewall, _run_command.
  set (st1 := match shell w (trace w) "sudo ufw reload" with
              | Completed _ => _
              | CalledProcessError e => _
              end).
  set (w1 := log w (Ran "sudo ufw reload")).
  assert (H1 : notes st1 = notes st /\ services st1 = services st)
    by (unfold st1; destruct (shell w (trace w) "sudo ufw reload"); auto).
  destruct H1 as [N1 S1].
  destruct (fetch_frame st1 w1) as (Gn & Gs & _).
  assert (K : files_kept w w1).
  { split.
    - unfold w1. cbn [trace log]. rewrite files_written_app.
      cbn [files_written]. now rewrite app_nil_r.
    - intros []; reflexivity. }
  split; [|split; congruence].
  eapply files_kept_trans; [exact K | apply fetch_keeps_files].
Qed.

Lemma panic_frame (keys : list Z) (st st' : UFWManager) (w w' : World) :
  _panic_mode st w keys = Returns (st', w') tt ->
  files_kept w w' /\ notes st' = notes st /\ services st' = services st.
Proof.
  induction keys as [|k ks IH]; cbn [_panic_mode]; [discriminate|].
  destruct (key_in k [Curses.KEY_ENTER; 10%Z; 13%Z]).
  - unfold _run_command. cbn [is_empty].
    set (w1 := log w (Ran _)).
    assert (K : files_kept w w1).
    { split.
      - unfold w1. cbn [trace log]. rewrite files_written_app.
        cbn [files_written]. now rewrite app_nil_r.
      - intros []; reflexivity. }
    destruct (shell w (trace w) _) as [out|e].
    + match goal with
      | |- context [_get_firewall_rules ?a ?b] =>
          destruct (fetch_frame a b) as (Gn & Gs & _);
          assert (K2 := fetch_keeps_files a b);
          destruct (_get_firewall_rules a b) as [st1 w2]
      end.
      intros H. injection H as <- <-. cbn [fst snd] in *.
      split; [eapply files_kept_trans; eassumption|]. auto.
    + intros H. injection H as <- <-. auto.
  - destruct (k =? 27)%Z; [|exact IH].
    intros H. injection H as <- <-. split; [apply files_kept_refl|]. auto.
Qed.

Lemma draw_frame (st st1 : UFWManager) (h wd : Z) (v : main_view) :
  _draw_main_window st h wd = Returns st1 v ->
  st1 = with_scroll st (scroll_pos st1).
Proof.
  unfold _draw_main_window.
  destruct (String.eqb (ufw_status st) "error").
  { intros H. injection H as <- _. now destruct st. }
  destruct (rules st) as [|r0 rs] eqn:Hrules.
  { intros H. injection H as <- _. now destruct st. }
  destruct (draw_rows _ _ _ _); [discriminate|].
  intros H. injection H as <- _. reflexivity.
Qed.

Lemma redraw_returns (i : pass_input) (st st' : UFWManager) (w w' : World)
      (e : pass_end) :
  redraw i st w = Returns (st', w') e ->
  e = Next /\ w' = w
  /\ exists st1 v,
       _draw_main_window st (height i) (width i) = Returns st1 v
       /\ st' = with_status st1 EmptyString.
Proof.
  unfold redraw.
  destruct (_draw_main_window st (height i) (width i)) as [st1 v| |] eqn:Hd;
    [|discriminate|discriminate].
  unfold _draw_footer.
  destruct (is_empty (status_message st1)) eqn:Hm; cbn [negb];
    intros H; injection H as <- <- <-.
  - split; [reflexivity|]. split; [reflexivity|].
    exists st1, v. split; [reflexivity|].
    destruct st1 as [a b m c d f g]. cbn in Hm. destruct m; [|discriminate].
    reflexivity.
  - split; [reflexivity|]. split; [reflexivity|].
    exists st1, v. split; reflexivity.
Qed.

Lemma idle_refresh_frame (i : pass_input) (st : UFWManager) (w : World) :
  files_kept w (snd (idle_refresh i st w))
  /\ (key i <> (-1)%Z -> idle_refresh i st w = (st, w)).
Proof.
  unfold idle_refresh. destruct (Z.eqb_spec (key i) (-1)).
  - split; [|contradiction].
    assert (K1 := fetch_keeps_files st w).
    destruct (_get_firewall_rules st w) as [st1 w1]. cbn [snd] in K1.
    eapply files_kept_trans; [exact K1 | apply load_keeps_files].
  - split; [apply files_kept_refl | reflexivity].
Qed.

(** The end of a pass that does not break: the refresh of an idle pass,
    then the redraw. *)
Lemma finish_returns (i : pass_input) (st st' : UFWManager) (w w' : World)
      (e : pass_end) :
  finish_pass i st w = Returns (st', w') e ->
  e = Next
  /\ w' = snd (idle_refresh i st w)
  /\ exists st1 v,
       _draw_main_window (fst (idle_refresh i st w)) (height i) (width i)
       = Returns st1 v
       /\ st' = with_status st1 EmptyString.
Proof.
  unfold finish_pass.
  destruct (idle_refresh i st w) as [st0 w0]. cbn [fst snd].
  apply redraw_returns.
Qed.

Lemma big_enough_sizes (i : pass_input) :
  big_enough i = true -> ((height i <? 15) || (width i <? 80))%Z = false.
Proof.
  unfold big_enough. intros H. apply andb_prop in H. destruct H as [H1 H2].
  apply Z.leb_le in H1, H2. apply orb_false_iff.
  split; apply Z.ltb_ge; lia.
Qed.

Lemma small_sizes (i : pass_input) :
  big_enough i = false -> ((height i <? 15) || (width i <? 80))%Z = true.
Proof.
  unfold big_enough. intros H. apply andb_false_iff in H.
  apply orb_true_iff.
  destruct H as [H|H]; apply Z.leb_gt in H; [left|right];
    apply Z.ltb_lt; lia.
Qed.

(** A pass on the main screen that does not quit: the branch of the key,
    then the end of the pass. *)
Lemma loop_pass_main (st : UFWManager) (w : World) (i : pass_input) :
  big_enough i = true ->
  key_in (key i) [113; 81]%Z = false ->
  loop_pass st w i = lift_unit (key_action st w i) (finish_pass i).
Proof.
  intros Hbig Hq. unfold loop_pass, key_action.
  rewrite (big_enough_sizes i Hbig), Hq.
  fold (finish_pass i).
  destruct (key i =? Curses.KEY_UP)%Z; [reflexivity|].
  destruct ((key i =? Curses.KEY_DOWN)%Z && negb (length (rules st) =? 0));
    [reflexivity|].
  destruct (key_in (key i) [114; 82]%Z).
  { cbn [lift_unit]. now destruct (_reload_firewall st w). }
  destruct (key_in (key i) [100; 68]%Z); [reflexivity|].
  destruct (key_in (key i) [97; 65]%Z); [reflexivity|].
  destruct (key_in (key i) [Curses.KEY_ENTER; 10; 13]%Z); [reflexivity|].
  destruct (key i =? 80)%Z; reflexivity.
Qed.

Lemma loop_pass_small (st : UFWManager) (w : World) (i : pass_input) :
  big_enough i = false ->
  loop_pass st w i
  = Returns (st, w) (if (key i =? 113)%Z then Break else Next).
Proof.
  intros Hs. unfold loop_pass. rewrite (small_sizes i Hs).
  now destruct (key i =? 113)%Z.
Qed.

Lemma loop_pass_quit (st : UFWManager) (w : World) (i : pass_input) :
  quit_key i = true -> loop_pass st w i = Returns (st, w) Break.
Proof.
  unfold quit_key. intros Hq. destruct (big_enough i) eqn:Hbig.
  - unfold loop_pass. rewrite (big_enough_sizes i Hbig).
    unfold key_in. cbn [existsb]. rewrite andb_true_r in Hq.
    rewrite orb_false_r. now rewrite Hq.
  - rewrite loop_pass_small by exact Hbig.
    rewrite andb_false_r, orb_false_r in Hq. now rewrite Hq.
Qed.

Lemma loop_pass_no_quit (st st' : UFWManager) (w w' : World)
      (i : pass_input) (e : pass_end) :
  quit_key i = false ->
  loop_pass st w i = Returns (st', w') e ->
  e = Next
  /\ ((big_enough i = false /\ st' = st /\ w' = w)
      \/ (big_enough i = true
          /\ exists st2 w2,
               key_action st w i = Returns (st2, w2) tt
               /\ finish_pass i st2 w2 = Returns (st', w') Next)).
Proof.
  unfold quit_key. intros Hq. destruct (big_enough i) eqn:Hbig.
  - rewrite andb_true_r in Hq.
    rewrite loop_pass_main; [|exact Hbig|].
    + unfold lift_unit.
      destruct (key_action st w i) as [[st2 w2] []| |];
        [|discriminate|discriminate].
      intros H. destruct (finish_returns _ _ _ _ _ _ H) as [-> _].
      split; [reflexivity|]. right. split; [reflexivity|].
      now exists st2, w2.
    + unfold key_in. cbn [existsb]. now rewrite orb_false_r.
  - rewrite andb_false_r, orb_false_r in Hq.
    rewrite loop_pass_small by exact Hbig. rewrite Hq.
    intros H. injection H as <- <- <-.
    split; [reflexivity|]. now left.
Qed.

End Loop.

(** X21.  A status message is shown for one pass.  Every pass on the main
    screen that does not quit ends with an empty status message: the
    footer has drawn whatever message the pass produced and cleared it.
    On a terminal that is too small a pass changes nothing at all, so a
    pending message waits. *)
Theorem pass_clears_status_message (st st' : UFWManager) (w w' : World)
        (i : pass_input) :
  loop_pass st w i = Returns (st', w') Next ->
  (big_enough i = true -> status_message st' = EmptyString)
  /\ (big_enough i = false -> st' = st /\ w' = w).
Proof.
  intros H. destruct (quit_key i) eqn:Hq.
  { rewrite loop_pass_quit in H by exact Hq. discriminate H. }
  destruct (loop_pass_no_quit _ _ _ _ _ _ Hq H)
    as (_ & [(Hs & -> & ->)|(Hb & st2 & w2 & _ & Hf)]).
  - split; [congruence | auto].
  - split; [|congruence]. intros _.
    destruct (finish_returns _ _ _ _ _ _ Hf) as (_ & _ & st1 & v & _ & ->).
    reflexivity.
Qed.

Lemma pass_clears_status_message_witness :
  exists st' w',
    loop_pass (with_status annotated_second applied_message)
              world_three_rules (pass_24x80 Curses.KEY_DOWN None [])
    = Returns (st', w') Next
    /\ status_message st' = EmptyString.
Proof.
  destruct (loop_pass (with_status annotated_second applied_message)
                      world_three_rules
                      (pass_24x80 Curses.KEY_DOWN None []))
    as [[st' w'] [|]| |] eqn:Hp;
    try (vm_compute in Hp; discriminate Hp).
  exists st', w'. split; [reflexivity|].
  apply (proj1 (pass_clears_status_message
                  (with_status annotated_second applied_message) st'
                  world_three_rules w'
                  (pass_24x80 Curses.KEY_DOWN None []) Hp)).
  reflexivity.
Defined.

(** X22.  The loop ends on a quit key and on nothing else.  A pass that
    reads q, or Q on the main screen, ends the loop at once and changes
    nothing; and when the loop returns, the pass that ended it read such
    a key and no earlier pass did. *)
Theorem loop_ends_only_on_quit (st st' : UFWManager) (w w' : World)
        (inputs : list pass_input) :
  (forall i s x, quit_key i = true -> loop_pass s x i = Returns (s, x) Break)
  /\ (_app_loop st w inputs = Returns (st', w') tt ->
      exists before i after,
        inputs = (before ++ i :: after)%list
        /\ quit_key i = true
        /\ forallb (fun j => negb (quit_key j)) before = true).
Proof.
  split; [intros i s x; apply loop_pass_quit|].
  unfold _app_loop. destruct (_get_firewall_rules st w) as [st0 w0].
  revert st0 w0. induction inputs as [|i rest IH]; intros st0 w0;
    cbn [run_passes]; [discriminate|].
  destruct (quit_key i) eqn:Hq.
  - intros _. exists [], i, rest. auto.
  - destruct (loop_pass st0 w0 i) as [[st1 w1] e| |] eqn:Hp;
      [|discriminate|discriminate].
    destruct (loop_pass_no_quit _ _ _ _ _ _ Hq Hp) as [-> _].
    intros H. destruct (IH _ _ H) as (before & j & after & -> & Hj & Hb).
    exists (i :: before), j, after.
    split; [reflexivity|]. split; [exact Hj|].
    cbn [forallb]. now rewrite Hq, Hb.
Qed.

Lemma loop_ends_only_on_quit_witness :
  exists before i after,
    [pass_24x80 Curses.KEY_DOWN None []; pass_24x80 (-1) None [];
     pass_24x80 81 None []; pass_24x80 65 None []]
    = (before ++ i :: after)%list
    /\ quit_key i = true
    /\ forallb (fun j => negb (quit_key j)) before = true.
Proof.
  refine (proj2 (loop_ends_only_on_quit
                   annotated_second _ world_three_rules _
                   [pass_24x80 Curses.KEY_DOWN None [];
                    pass_24x80 (-1) None [];
                    pass_24x80 81 None []; pass_24x80 65 None []]) _).
  vm_compute. reflexivity.
Defined.

Lemma key_action_quiet (st st2 : UFWManager) (w w2 : World)
      (i : pass_input) :
  annotation_key (key i) = false ->
  key_action st w i = Returns (st2, w2) tt ->
  files_kept w w2 /\ notes st2 = notes st /\ services st2 = services st.
Proof.
  intros Hk.
  assert (Hks : key_in (key i) [100; 68]%Z = false
                /\ key_in (key i) [97; 65]%Z = false
                /\ key_in (key i) [Curses.KEY_ENTER; 10; 13]%Z = false).
  { unfold annotation_key, key_in in *. cbn [existsb] in *.
    rewrite !orb_false_iff in Hk. rewrite !orb_false_iff. tauto. }
  destruct Hks as (K1 & K2 & K3).
  unfold key_action. rewrite K1, K2, K3.
  destruct (key i =? Curses.KEY_UP)%Z.
  { intros H. injection H as <- <-. split; [apply files_kept_refl|]. auto. }
  destruct ((key i =? Curses.KEY_DOWN)%Z && negb (length (rules st) =? 0)).
  { intros H. injection H as <- <-. split; [apply files_kept_refl|]. auto. }
  destruct (key_in (key i) [114; 82]%Z).
  { intros H. injection H as H. destruct (reload_frame st w) as (R1 & R2 & R3).
    rewrite H in R1, R2, R3. auto. }
  destruct (key i =? 80)%Z.
  { apply panic_frame. }
  intros H. injection H as <- <-. split; [apply files_kept_refl|]. auto.
Qed.

(** X23.  Only the delete dialog and the form write the annotation
    files.  A pass whose key is none of d, D, a, A and Enter (moving the
    selection, reloading, resetting the firewall, an idle refresh, any
    other key) leaves the texts of both files as they were and writes
    nothing; and unless the pass was idle, both stores of the object are
    unchanged too. *)
Theorem only_dialog_keys_write_files (st st' : UFWManager) (w w' : World)
        (i : pass_input) (e : pass_end) :
  annotation_key (key i) = false ->
  loop_pass st w i = Returns (st', w') e ->
  files_kept w w'
  /\ (key i <> (-1)%Z ->
      notes st' = notes st /\ services st' = services st).
Proof.
  intros Hk H. destruct (quit_key i) eqn:Hq.
  { rewrite loop_pass_quit in H by exact Hq. injection H as <- <- _.
    split; [apply files_kept_refl | auto]. }
  destruct (loop_pass_no_quit _ _ _ _ _ _ Hq H)
    as (_ & [(Hs & -> & ->)|(Hb & st2 & w2 & Ha & Hf)]).
  { split; [apply files_kept_refl | auto]. }
  destruct (key_action_quiet _ _ _ _ _ Hk Ha) as (K1 & N1 & S1).
  destruct (finish_returns _ _ _ _ _ _ Hf) as (_ & -> & st1 & v & Hd & ->).
  destruct (idle_refresh_frame i st2 w2) as (K2 & Hid).
  split; [eapply files_kept_trans; eassumption|].
  intros Hne. rewrite (Hid Hne) in Hd. cbn [fst] in Hd.
  apply draw_frame in Hd. rewrite Hd.
  cbn [notes services with_status with_scroll]. auto.
Qed.

Lemma only_dialog_keys_write_files_witness :
  exists st' w',
    loop_pass annotated_second world_three_rules
              (pass_24x80 80 None [10%Z])
    = Returns (st', w') Next
    /\ files_kept world_three_rules w'
    /\ (80%Z <> (-1)%Z ->
        notes st' = notes annotated_second
        /\ services st' = services annotated_second).
Proof.
  eexists. eexists. split; [reflexivity|].
  apply (only_dialog_keys_write_files
           annotated_second _ world_three_rules _
           (pass_24x80 80 None [10%Z]) Next);
    reflexivity.
Defined.

(** X24.  An idle pass follows the outside.  When the wait for a key
    times out on the main screen, the pass runs one fetch of the rules
    and reads both annotation files again: with accessible files the
    stores are afterwards what the files hold, whatever the object held
    before, and the rule list and the firewall status are those of the
    fetch.  The selection is not adjusted to the new list. *)
Theorem idle_pass_refreshes (st st' : UFWManager) (w w' : World)
        (i : pass_input) :
  big_enough i = true ->
  key i = (-1)%Z ->
  accessible w ->
  loop_pass st w i = Returns (st', w') Next ->
  rules st' = rules (fst (_get_firewall_rules st w))
  /\ ufw_status st' = ufw_status (fst (_get_firewall_rules st w))
  /\ notes st' = parse_file (text_of (notes_txt w))
  /\ services st' = parse_file (text_of (services_txt w))
  /\ selected_index st' = selected_index st
  /\ commands_run (trace w')
     = (commands_run (trace w) ++ [fetch_command])%list.
Proof.
  intros Hbig Hkey Hacc H.
  assert (Hq : quit_key i = false)
    by (unfold quit_key; rewrite Hkey; reflexivity).
  destruct (loop_pass_no_quit _ _ _ _ _ _ Hq H)
    as (_ & [(Hs & _)|(_ & st2 & w2 & Ha & Hf)]); [congruence|].
  assert (Hact : key_action st w i = Returns (st, w) tt).
  { unfold key_action. rewrite Hkey. reflexivity. }
  rewrite Hact in Ha. injection Ha as <- <-.
  destruct (finish_returns _ _ _ _ _ _ Hf) as (_ & -> & st1 & v & Hd & ->).
  apply draw_frame in Hd.
  unfold idle_refresh in *. rewrite Hkey in *.
  change ((-1 =? -1)%Z) with true in *. cbv iota in *.
  destruct (fetch_frame st w)
    as (_ & _ & Fsel & _ & Fn & Fs & _ & _ & Ft).
  destruct (_get_firewall_rules st w) as [st0 w0]. cbn [fst snd] in *.
  assert (Hacc0 : accessible w0).
  { destruct Hacc as [A1 A2]. split; intros e; [rewrite Fn | rewrite Fs];
      auto. }
  rewrite (load_accessible st0 w0 Hacc0) in *. cbn [fst snd] in *.
  rewrite Hd. cbn [rules ufw_status notes services selected_index
                   with_status with_scroll with_services with_notes trace].
  rewrite Fn, Fs, Ft, Fsel, commands_run_app. cbn [commands_run].
  repeat split; reflexivity.
Qed.

Lemma idle_pass_refreshes_witness :
  exists st' w',
    loop_pass annotated_second world_edited_outside
              (pass_24x80 (-1) None [])
    = Returns (st', w') Next
    /\ notes st' = [("1", "ssh")]
    /\ services st' = [].
Proof.
  assert (Hacc : accessible world_edited_outside)
    by (split; intros e H; cbn in H; discriminate H).
  destruct (loop_pass annotated_second world_edited_outside
                      (pass_24x80 (-1) None []))
    as [[st' w'] [|]| |] eqn:Hp;
    try (vm_compute in Hp; discriminate Hp).
  exists st', w'. split; [reflexivity|].
  destruct (idle_pass_refreshes annotated_second st' world_edited_outside w'
              (pass_24x80 (-1) None []) eq_refl eq_refl Hacc Hp)
    as (_ & _ & Hn & Hs & _ & _).
  split; [exact Hn | exact Hs].
Defined.

(** X25.  Moving the selection keeps it on the list and in view.  On the
    main screen, with the selection on a listed rule, Up and Down move it
    by one position and stop at the first and at the last rule; the pass
    runs no command and changes neither rules nor stores; and, when the
    status is not the error status, the scroll position after the pass
    is such that the selected rule is among the rows that fit. *)
Theorem navigation_keeps_selection_visible (st st' : UFWManager)
        (w w' : World) (i : pass_input) :
  big_enough i = true ->
  key i = Curses.KEY_UP \/ key i = Curses.KEY_DOWN ->
  selected_index st < length (rules st) ->
  loop_pass st w i = Returns (st', w') Next ->
  w' = w
  /\ rules st' = rules st
  /\ notes st' = notes st
  /\ services st' = services st
  /\ selected_index st'
     = (if (key i =? Curses.KEY_UP)%Z then Nat.pred (selected_index st)
        else Nat.min (length (rules st) - 1) (selected_index st + 1))
  /\ selected_index st' < length (rules st')
  /\ (ufw_status st <> "error" ->
      scroll_pos st' <= selected_index st'
      /\ (Z.of_nat (selected_index st')
          < Z.of_nat (scroll_pos st') + list_height (height i))%Z).
Proof.
  intros Hbig Hkey Hsel H.
  assert (Hq : quit_key i = false)
    by (unfold quit_key; destruct Hkey as [-> | ->]; reflexivity).
  assert (Hm1 : key i <> (-1)%Z)
    by (destruct Hkey as [-> | ->]; discriminate).
  destruct (loop_pass_no_quit _ _ _ _ _ _ Hq H)
    as (_ & [(Hs & _)|(_ & st2 & w2 & Ha & Hf)]); [congruence|].
  set (sel := if (key i =? Curses.KEY_UP)%Z then Nat.pred (selected_index st)
              else Nat.min (length (rules st) - 1) (selected_index st + 1)).
  assert (Hact : key_action st w i = Returns (with_selected st sel, w) tt).
  { unfold key_action, sel. destruct Hkey as [-> | ->].
    - reflexivity.
    - change (Curses.KEY_DOWN =? Curses.KEY_UP)%Z with false.
      change (Curses.KEY_DOWN =? Curses.KEY_DOWN)%Z with true.
      cbv iota. destruct (rules st); [cbn in Hsel; lia | reflexivity]. }
  rewrite Hact in Ha. injection Ha as <- <-.
  destruct (finish_returns _ _ _ _ _ _ Hf) as (_ & -> & st1 & v & Hd & ->).
  destruct (idle_refresh_frame i (with_selected st sel) w) as (_ & Hid).
  rewrite (Hid Hm1) in *. cbn [fst snd] in *.
  assert (Hsel' : sel < length (rules st)).
  { unfold sel. destruct (key i =? Curses.KEY_UP)%Z; lia. }
  assert (Hfr := draw_frame _ _ _ _ _ Hd).
  assert (E : rules st1 = rules st /\ notes st1 = notes st
              /\ services st1 = services st /\ selected_index st1 = sel)
    by (rewrite Hfr; repeat split; reflexivity).
  destruct E as (E1 & E2 & E3 & E4).
  cbn [rules notes services selected_index with_status].
  split; [reflexivity|]. split; [exact E1|]. split; [exact E2|].
  split; [exact E3|]. split; [exact E4|].
  split; [rewrite E1, E4; exact Hsel'|].
  intros Herr.
  assert (Hh : (1 <= list_height (height i))%Z).
  { unfold big_enough in Hbig. apply andb_prop in Hbig.
    destruct Hbig as [Hb _]. apply Z.leb_le in Hb. unfold list_height.
    apply Z.div_le_lower_bound; lia. }
  unfold _draw_main_window in Hd.
  cbn [ufw_status rules with_selected] in Hd.
  destruct (String.eqb_spec (ufw_status st) "error") as [|_];
    [contradiction|].
  destruct (rules st) as [|r0 rs] eqn:Hrules; [cbn in Hsel; lia|].
  destruct (draw_rows _ _ _ _); [discriminate|].
  injection Hd as <- _.
  cbn [selected_index scroll_pos with_status with_scroll with_selected].
  destruct (scrolled_bounds (with_selected st sel) (height i) Hh)
    as (S0 & S1 & S2 & _).
  cbn [selected_index with_selected] in S1, S2. lia.
Qed.

Lemma navigation_keeps_selection_visible_witness :
  exists st' w',
    loop_pass (with_selected annotated_second 2) world_three_rules
              (pass_24x80 Curses.KEY_DOWN None [])
    = Returns (st', w') Next
    /\ selected_index st' = 2
    /\ selected_index st' < length (rules st').
Proof.
  assert (Hsel : selected_index (with_selected annotated_second 2)
                 < length (rules (with_selected annotated_second 2)))
    by (cbn; lia).
  destruct (loop_pass (with_selected annotated_second 2) world_three_rules
                      (pass_24x80 Curses.KEY_DOWN None []))
    as [[st' w'] [|]| |] eqn:Hp;
    try (vm_compute in Hp; discriminate Hp).
  exists st', w'. split; [reflexivity|].
  destruct (navigation_keeps_selection_visible
              (with_selected annotated_second 2) st' world_three_rules w'
              (pass_24x80 Curses.KEY_DOWN None [])
              eq_refl (or_intror eq_refl) Hsel Hp)
    as (_ & _ & _ & _ & H1 & H2 & _).
  split; [exact H1 | exact H2].
Defined.

(* ================================================================== *)
(** * Editing without touching the annotations *)

Section EditRoundTrip.




End EditRoundTrip.



(* ================================================================== *)
(** * A row that cannot be drawn *)

Section RowFailure.

Lemma prefix_head_ne (a c : ascii) (w r : string) :
  a <> c -> String.prefix (String a w) (String c r) = false.
Proof.
  intros Hne. cbn [String.prefix].
  destruct (ascii_dec a c); [contradiction | reflexivity].
Qed.

Lemma action_word_cases (word : string) :
  In word display_actions ->
  word = "ALLOW" \/ word = "DENY" \/ word = "REJECT" \/ word = "LIMIT".
Proof. cbn. intuition. Qed.

Lemma action_prefix_lower (word : string) (c : ascii) (r : string) :
  In word display_actions -> isupper_char c = false ->
  String.prefix word (String c r) = false.
Proof.
  intros Hw Hc.
  destruct (action_word_cases word Hw) as [->|[->|[->| ->]]];
    apply prefix_head_ne; intros <-; discriminate Hc.
Qed.

Lemma match_action_lower (prev : option ascii) (c : ascii) (r : string) :
  isupper_char c = false ->
  Re.match_action_at display_actions "IN" "OUT" prev (String c r) = None.
Proof.
  intros Hc. unfold display_actions. cbn [Re.match_action_at].
  rewrite !action_prefix_lower by (cbn; auto 6 || exact Hc).
  reflexivity.
Qed.

Lemma search_action_skip (to rest : string) (prev : option ascii) :
  no_upper to = true ->
  Re.search_action display_actions "IN" "OUT" prev (to ++ rest)
  = Re.search_action display_actions "IN" "OUT" (Re.last_char prev to) rest.
Proof.
  revert prev. induction to as [|c to IH]; intros prev Hto; [reflexivity|].
  cbn [no_upper forall_chars] in Hto. apply andb_prop in Hto.
  destruct Hto as [Hc Hto]. apply negb_true_iff in Hc.
  change (String c to ++ rest) with (String c (to ++ rest)).
  cbn [Re.search_action Re.last_char].
  rewrite (match_action_lower prev c _ Hc). now apply IH.
Qed.

Lemma search_action_last_word (to word : string) :
  In word display_actions -> no_upper to = true ->
  Re.search_action display_actions "IN" "OUT" None (to ++ " " ++ word)
  = Some word.
Proof.
  intros Hw Hto. rewrite (search_action_skip to _ None Hto).
  change (" " ++ word) with (String " " word).
  cbn [Re.search_action].
  rewrite (match_action_lower _ " " word eq_refl).
  destruct (action_word_cases word Hw) as [->|[->|[->| ->]]]; reflexivity.
Qed.

Lemma cut_last_word (to word : string) :
  In word display_actions -> no_upper to = true ->
  cut word (to ++ " " ++ word) = Some (to ++ " ", EmptyString).
Proof.
  intros Hw Hto. induction to as [|c to IH].
  - change (EmptyString ++ " " ++ word) with (String " " word).
    rewrite cut_cons, (action_prefix_lower word " " word Hw eq_refl).
    destruct (action_word_cases word Hw) as [->|[->|[->| ->]]];
      reflexivity.
  - cbn [no_upper forall_chars] in Hto. apply andb_prop in Hto.
    destruct Hto as [Hc Hto]. apply negb_true_iff in Hc.
    change (String c to ++ " " ++ word)
      with (String c (to ++ " " ++ word)).
    rewrite cut_cons, (action_prefix_lower word c _ Hw Hc).
    now rewrite (IH Hto).
Qed.

Lemma row_parts_last_word (to word : string) :
  In word display_actions -> no_upper to = true ->
  row_parts (to ++ " " ++ word) = inl IndexError.
Proof.
  intros Hw Hto. unfold row_parts.
  rewrite (search_action_last_word to word Hw Hto).
  unfold split1. rewrite (cut_last_word to word Hw Hto). reflexivity.
Qed.

Lemma row_line_error (st : UFWManager) (r : rule) (e : exn) :
  row_line st r = inl e -> e = IndexError.
Proof.
  unfold row_line, row_parts.
  destruct (Re.search_action _ _ _ _ _) as [a|]; [|discriminate].
  destruct (split1 a (snd r)) as [|x [|y [|z l]]];
    try (intros H; injection H as <-; reflexivity).
  destruct (split (strip y)); [|discriminate].
  intros H. injection H as <-. reflexivity.
Qed.

Lemma draw_rows_error (st : UFWManager) (width : Z) (visible : list rule)
      (i : nat) (e : exn) :
  draw_rows st width i visible = inl e -> e = IndexError.
Proof.
  revert i. induction visible as [|r rest IH]; intros i; cbn [draw_rows];
    [discriminate|].
  destruct (row_line st r) as [e1|line] eqn:Hl.
  - intros H. injection H as <-. now apply (row_line_error st r).
  - destruct (draw_rows st width (S i) rest) as [e2|rows] eqn:Hr;
      [|discriminate].
    intros H. injection H as <-. now apply (IH (S i)).
Qed.

Lemma draw_rows_fails (st : UFWManager) (width : Z) (visible : list rule)
      (i : nat) (r : rule) (e : exn) :
  In r visible -> row_line st r = inl e ->
  draw_rows st width i visible = inl IndexError.
Proof.
  intros Hin Hr.
  destruct (draw_rows st width i visible) as [e1|rows] eqn:Hd.
  - now rewrite (draw_rows_error _ _ _ _ _ Hd).
  - exfalso. revert i rows Hd.
    induction visible as [|x rest IH]; intros i rows Hd; [contradiction|].
    cbn [draw_rows] in Hd.
    destruct (row_line st x) as [e1|line] eqn:Hl; [discriminate|].
    destruct (draw_rows st width (S i) rest) as [e2|rows'] eqn:Hrest;
      [discriminate|].
    destruct Hin as [->|Hin]; [congruence|].
    now apply (IH Hin (S i) rows').
Qed.

Lemma slice_holds_selected (st : UFWManager) (height : Z) :
  (1 <= list_height height)%Z ->
  selected_index st < length (rules st) ->
  let p := Z.to_nat (scrolled st height) in
  In (selected st)
     (list_slice p (Z.of_nat p + list_height height) (rules st)).
Proof.
  intros Hh Hsel p.
  destruct (scrolled_bounds st height Hh) as (S0 & S1 & S2 & _).
  unfold list_slice.
  destruct (Z.ltb_spec (Z.of_nat p + list_height height) 0); [lia|].
  set (n := Z.to_nat (Z.of_nat p + list_height height) - p).
  assert (Hn : selected_index st - p < n) by (unfold n, p; lia).
  assert (Hnth : nth (selected_index st - p)
                     (firstn n (skipn p (rules st)))
                     (EmptyString, EmptyString)
                 = selected st).
  { rewrite nth_firstn. apply Nat.ltb_lt in Hn. rewrite Hn.
    rewrite nth_skipn. unfold selected. f_equal. unfold p. lia. }
  rewrite <- Hnth. apply nth_In.
  rewrite length_firstn, length_skipn. unfold p in *. lia.
Qed.

End RowFailure.

(** X27.  A listed rule whose description ends with its action word has
    no row: the column after the action is read as the first word of
    what follows, and nothing follows.  When the selection is on such a
    rule (a description without capital letter, a space and one of
    ALLOW, DENY, REJECT, LIMIT), drawing the list raises IndexError
    instead of returning, and the pass that draws it does not complete. *)
Theorem draw_fails_on_rule_without_source
        (st : UFWManager) (w : World) (i : pass_input) (to word : string) :
  ufw_status st <> "error" ->
  (1 <= list_height (height i))%Z ->
  selected_index st < length (rules st) ->
  snd (selected st) = to ++ " " ++ word ->
  In word display_actions ->
  no_upper to = true ->
  row_parts (snd (selected st)) = inl IndexError
  /\ _draw_main_window st (height i) (width i)
     = Raises IndexError
              (with_scroll st (Z.to_nat (scrolled st (height i))))
  /\ redraw i st w
     = Raises IndexError
              (with_scroll st (Z.to_nat (scrolled st (height i))), w).
Proof.
  intros Herr Hh Hsel Hdesc Hw Hto.
  assert (Hparts : row_parts (snd (selected st)) = inl IndexError)
    by (rewrite Hdesc; now apply row_parts_last_word).
  assert (Hdraw : _draw_main_window st (height i) (width i)
                  = Raises IndexError
                      (with_scroll st
                                   (Z.to_nat (scrolled st (height i))))).
  { unfold _draw_main_window.
    destruct (String.eqb_spec (ufw_status st) "error"); [contradiction|].
    assert (Hin := slice_holds_selected st (height i) Hh Hsel).
    cbv zeta in Hin.
    destruct (rules st) as [|r0 rs] eqn:Hrules; [cbn in Hsel; lia|].
    set (st1 := with_scroll st (Z.to_nat (scrolled st (height i)))).
    change (rules st1) with (rules st). rewrite Hrules.
    change (scroll_pos st1) with (Z.to_nat (scrolled st (height i))).
    rewrite (draw_rows_fails st1 (width i) _ 0 (selected st) IndexError Hin);
      [reflexivity|].
    unfold row_line. change (notes st1) with (notes st).
    change (services st1) with (services st). now rewrite Hparts. }
  split; [exact Hparts|]. split; [exact Hdraw|].
  unfold redraw. now rewrite Hdraw.
Qed.

Lemma draw_fails_on_rule_without_source_witness :
  row_parts "80/tcp DENY" = inl IndexError
  /\ _draw_main_window
       (mkUFWManager 1 0 EmptyString rules_second_without_source "active"
                     [] [])
       24 80
     = Raises IndexError
              (mkUFWManager 1 0 EmptyString rules_second_without_source
                            "active" [] [])
  /\ redraw (pass_24x80 (-1) None [])
            (mkUFWManager 1 0 EmptyString rules_second_without_source
                          "active" [] [])
            empty_world
     = Raises IndexError
              (mkUFWManager 1 0 EmptyString rules_second_without_source
                            "active" [] [], empty_world).
Proof.
  apply (draw_fails_on_rule_without_source
           (mkUFWManager 1 0 EmptyString rules_second_without_source
                         "active" [] [])
           empty_world (pass_24x80 (-1) None []) "80/tcp" "DENY").
  - discriminate.
  - cbv. discriminate.
  - cbn. lia.
  - reflexivity.
  - cbn. auto.
  - reflexivity.
Defined.
